(** * ForstLedger: hash-chained audit trail and breach classifier

    A shallow embedding of the two cores of the cold-chain monitor:
    - [database.py]: the SHA-256 hash chains written by
      [VaccineDatabase.add_temperature_log] and
      [VaccineDatabase.add_audit_entry], and the replay done by
      [VaccineDatabase.verify_audit_trail];
    - [predictor.py]: [TemperaturePredictor.predict_temperature] and
      [TemperaturePredictor.check_breach_risk].

    Around them, the functions that call them or stand beside them:
    - [database.py]: the doctors table ([add_doctor],
      [verify_doctor_email], [authenticate_doctor],
      [update_doctor_password]) and [add_alert];
    - [auth.py]: [validate_email], [validate_password],
      [register_doctor], [login], [logout], [change_password];
    - [alerts.py]: [get_time_ago] and [get_alert_statistics].

    Python [str] values are carried as their UTF-8 byte strings (Rocq
    [string]), Python [float] values as IEEE-754 binary64 numbers (Rocq's
    primitive [float]), Python [int] values as [Z]. *)

From Stdlib Require Import ZArith List String Ascii Bool Lia Floats.
Import ListNotations.

Set Warnings "-inexact-float".

Local Open Scope Z_scope.

(* ================================================================== *)
(** ** hashlib.sha256(...).hexdigest() *)
(* ================================================================== *)

Module Sha256.

(** 32-bit words are [Z] values kept in [0, 2^32). *)
Definition wrap32 (x : Z) : Z := Z.land x 4294967295.

Definition add32 (x y : Z) : Z := wrap32 (x + y).

Definition rotr (n x : Z) : Z :=
  Z.lor (Z.shiftr x n) (wrap32 (Z.shiftl x (32 - n))).

Definition not32 (x : Z) : Z := Z.lxor x 4294967295.

Definition choose (e f g : Z) : Z :=
  Z.lxor (Z.land e f) (Z.land (not32 e) g).

Definition majority (a b c : Z) : Z :=
  Z.lxor (Z.lxor (Z.land a b) (Z.land a c)) (Z.land b c).

Definition big_sigma0 (a : Z) : Z :=
  Z.lxor (Z.lxor (rotr 2 a) (rotr 13 a)) (rotr 22 a).

Definition big_sigma1 (e : Z) : Z :=
  Z.lxor (Z.lxor (rotr 6 e) (rotr 11 e)) (rotr 25 e).

Definition small_sigma0 (x : Z) : Z :=
  Z.lxor (Z.lxor (rotr 7 x) (rotr 18 x)) (Z.shiftr x 3).

Definition small_sigma1 (x : Z) : Z :=
  Z.lxor (Z.lxor (rotr 17 x) (rotr 19 x)) (Z.shiftr x 10).

(** The first sixty-four primes. *)
Definition primes : list Z :=
  [ 2; 3; 5; 7; 11; 13; 17; 19; 23; 29; 31; 37; 41; 43; 47; 53;
    59; 61; 67; 71; 73; 79; 83; 89; 97; 101; 103; 107; 109; 113; 127; 131;
    137; 139; 149; 151; 157; 163; 167; 173; 179; 181; 191; 193; 197; 199;
    211; 223; 227; 229; 233; 239; 241; 251; 257; 263; 269; 271; 277; 281;
    283; 293; 307; 311 ].

(** Integer cube root by bisection over the given number of bits. *)
Fixpoint cube_root (bits : nat) (n root : Z) : Z :=
  match bits with
  | O => root
  | S k =>
      let candidate := root + 2 ^ Z.of_nat k in
      if candidate * candidate * candidate <=? n
      then cube_root k n candidate
      else cube_root k n root
  end.

(** The round constants: the first 32 bits of the fractional part of the
    cube root of each prime. *)
Definition round_constants : list Z :=
  Eval vm_compute in
    map (fun p => wrap32 (cube_root 36 (p * 2 ^ 96) 0)) primes.

(** The chaining value: eight words.  It starts from the first 32 bits of
    the fractional part of the square root of each of the first eight
    primes. *)
Record state : Type := State
  { sa : Z; sb : Z; sc : Z; sd : Z; se : Z; sf : Z; sg : Z; sh : Z }.

Definition square_root_bits (p : Z) : Z := wrap32 (Z.sqrt (p * 2 ^ 64)).

Definition initial_state : state :=
  Eval vm_compute in
    State (square_root_bits 2) (square_root_bits 3) (square_root_bits 5)
          (square_root_bits 7) (square_root_bits 11) (square_root_bits 13)
          (square_root_bits 17) (square_root_bits 19).

(** Message padding: a 0x80 byte, zero bytes up to 56 modulo 64, then the
    bit length as a 64-bit big-endian integer. *)
Fixpoint big_endian (width : nat) (x : Z) : list Z :=
  match width with
  | O => []
  | S k => Z.land (Z.shiftr x (8 * Z.of_nat k)) 255 :: big_endian k x
  end.

Definition pad (msg : list Z) : list Z :=
  let len := Z.of_nat (List.length msg) in
  let zeros := Z.to_nat ((55 - len) mod 64) in
  msg ++ [128] ++ repeat 0 zeros ++ big_endian 8 (8 * len).

(** Four bytes to one big-endian word, sixteen words to a block. *)
Fixpoint to_words (bytes : list Z) : list Z :=
  match bytes with
  | b0 :: b1 :: b2 :: b3 :: rest =>
      (Z.shiftl b0 24 + Z.shiftl b1 16 + Z.shiftl b2 8 + b3) :: to_words rest
  | _ => []
  end.

Fixpoint to_blocks (fuel : nat) (words : list Z) : list (list Z) :=
  match fuel, words with
  | S k, _ :: _ => firstn 16 words :: to_blocks k (skipn 16 words)
  | _, _ => []
  end.

(** Message schedule.  [recent] holds the words computed so far, newest
    first, so that W[t-2], W[t-7], W[t-15], W[t-16] sit at positions 1, 6,
    14 and 15. *)
Fixpoint extend_schedule (rounds : nat) (recent : list Z) : list Z :=
  match rounds with
  | O => recent
  | S k =>
      let w2 := nth 1 recent 0 in
      let w7 := nth 6 recent 0 in
      let w15 := nth 14 recent 0 in
      let w16 := nth 15 recent 0 in
      let w := add32 (add32 (small_sigma1 w2) w7)
                     (add32 (small_sigma0 w15) w16) in
      extend_schedule k (w :: recent)
  end.

Definition schedule (block : list Z) : list Z :=
  rev (extend_schedule 48 (rev block)).

Definition round (s : state) (kw : Z * Z) : state :=
  let '(k, w) := kw in
  let t1 := add32 (add32 (add32 (add32 (sh s) (big_sigma1 (se s)))
                                (choose (se s) (sf s) (sg s))) k) w in
  let t2 := add32 (big_sigma0 (sa s)) (majority (sa s) (sb s) (sc s)) in
  State (add32 t1 t2) (sa s) (sb s) (sc s)
        (add32 (sd s) t1) (se s) (sf s) (sg s).

Definition compress (s : state) (block : list Z) : state :=
  let r := fold_left round (combine round_constants (schedule block)) s in
  State (add32 (sa s) (sa r)) (add32 (sb s) (sb r))
        (add32 (sc s) (sc r)) (add32 (sd s) (sd r))
        (add32 (se s) (se r)) (add32 (sf s) (sf r))
        (add32 (sg s) (sg r)) (add32 (sh s) (sh r)).

Definition digest (msg : list Z) : state :=
  let words := to_words (pad msg) in
  fold_left compress (to_blocks (List.length words) words) initial_state.

(** Lower-case hexadecimal rendering, eight digits per word. *)
Definition hex_digit (d : Z) : ascii :=
  if d <? 10 then ascii_of_nat (Z.to_nat (48 + d))
  else ascii_of_nat (Z.to_nat (87 + d)).

Fixpoint hex (digits : nat) (x : Z) : string :=
  match digits with
  | O => EmptyString
  | S k => String (hex_digit (Z.land (Z.shiftr x (4 * Z.of_nat k)) 15))
                  (hex k x)
  end.

(** [data.encode()]: the bytes of a string. *)
Definition encode (s : string) : list Z :=
  map (fun c => Z.of_nat (nat_of_ascii c)) (list_ascii_of_string s).

(** [hashlib.sha256(s.encode()).hexdigest()] *)
Definition hexdigest (s : string) : string :=
  let d := digest (encode s) in
  (hex 8 (sa d) ++ hex 8 (sb d) ++ hex 8 (sc d) ++ hex 8 (sd d) ++
   hex 8 (se d) ++ hex 8 (sf d) ++ hex 8 (sg d) ++ hex 8 (sh d))%string.

Arguments hexdigest : simpl never.

End Sha256.

(* ================================================================== *)
(** ** datetime.datetime *)
(* ================================================================== *)

Module Datetime.

Local Open Scope string_scope.

(** A naive [datetime.datetime] (no tzinfo), as [datetime.now()] returns
    it and as psycopg2 returns the value of a TIMESTAMP column. *)
Record datetime : Type := Build
  { year : Z; month : Z; day : Z;
    hour : Z; minute : Z; second : Z; microsecond : Z }.

(** The ranges the constructor of [datetime] enforces. *)
Definition valid (t : datetime) : Prop :=
  1 <= year t <= 9999 /\ 1 <= month t <= 12 /\ 1 <= day t <= 31 /\
  0 <= hour t <= 23 /\ 0 <= minute t <= 59 /\ 0 <= second t <= 59 /\
  0 <= microsecond t <= 999999.

Definition digit (d : Z) : ascii := ascii_of_nat (Z.to_nat (48 + d)).

(** ["%0<width>d" % n] for [0 <= n < 10^width]. *)
Fixpoint zfill (width : nat) (n : Z) : string :=
  match width with
  | O => EmptyString
  | S k => String (digit ((n / 10 ^ Z.of_nat k) mod 10)) (zfill k n)
  end.

(** [datetime.isoformat(sep)] with the default [timespec='auto']: the
    fraction is printed only when [microsecond] is not zero. *)
Definition isoformat (sep : ascii) (t : datetime) : string :=
  zfill 4 (year t) ++ "-" ++ zfill 2 (month t) ++ "-" ++ zfill 2 (day t) ++
  String sep
   (zfill 2 (hour t) ++ ":" ++ zfill 2 (minute t) ++ ":" ++
    zfill 2 (second t) ++
    (if (microsecond t =? 0)%Z then "" else "." ++ zfill 6 (microsecond t))).

(** [datetime.now().isoformat()]: the separator defaults to ['T']. *)
Definition isoformat_T (t : datetime) : string := isoformat "T" t.

(** [str(t)], which is what an f-string applies to a [datetime] object:
    [datetime.__str__] is [isoformat(sep=' ')]. *)
Definition str (t : datetime) : string := isoformat " " t.

End Datetime.

(* ================================================================== *)
(** ** database.py: the two hash chains *)
(* ================================================================== *)

Module Database.

Import Datetime.
Local Open Scope string_scope.

(** [s * n] on Python strings. *)
Fixpoint str_mul (s : string) (n : nat) : string :=
  match n with
  | O => EmptyString
  | S k => s ++ str_mul s k
  end.

(** ["0" * 64], the previous hash of the first record of a chain. *)
Definition sentinel : string := str_mul "0" 64.

(** A row of [audit_trail].  The [timestamp] column has type TIMESTAMP:
    PostgreSQL parses the ISO-8601 text handed to INSERT into the instant
    it denotes, and psycopg2 hands that instant back as a [datetime]. *)
Record audit_trail_row : Type := AuditRow
  { audit_id : Z;
    audit_doctor_id : string;
    audit_timestamp : datetime;
    audit_action : string;
    audit_previous_hash : string;
    audit_current_hash : string;
    audit_details : string }.

(** A row of [temperature_logs], holding the values handed to INSERT. *)
Record temperature_logs_row : Type := LogRow
  { log_id : Z;
    log_doctor_id : string;
    log_device_id : string;
    log_timestamp : datetime;
    log_temperature : float;
    log_vaccine_type : string;
    log_location : string;
    log_prev_hash : string;
    log_current_hash : string }.

(** The two tables, each with the last value issued by the sequence behind
    its SERIAL [id] column. *)
Record tables : Type := Tables
  { temperature_logs : list temperature_logs_row;
    temperature_logs_id_seq : Z;
    audit_trail : list audit_trail_row;
    audit_trail_id_seq : Z }.

(** The tables as [init_database] creates them. *)
Definition init_database : tables := Tables [] 0 [] 0.

(** What the functions use and the repository does not define: whether
    PostgreSQL commits an INSERT or rejects it (foreign key on [doctors],
    column widths, numeric range), and Python's conversion of a [float] to
    [str] inside an f-string. *)
Class Platform : Type :=
  { insert_audit_ok : audit_trail_row -> bool;
    insert_log_ok : temperature_logs_row -> bool;
    float_str : float -> string }.

(** A call either returns a value or re-raises [psycopg2.Error] after
    [conn.rollback()]. *)
Inductive outcome (A : Type) : Type :=
| Returned (a : A)
| Raised.
Arguments Returned {A} a.
Arguments Raised {A}.

(** [ORDER BY id]: insertion sort on the key. *)
Fixpoint insert_by {R : Type} (key : R -> Z) (r : R) (rows : list R) : list R :=
  match rows with
  | [] => [r]
  | x :: rest =>
      if (key r <? key x)%Z then r :: x :: rest
      else x :: insert_by key r rest
  end.

Definition order_by {R : Type} (key : R -> Z) (rows : list R) : list R :=
  fold_right (insert_by key) [] rows.

(** The last element of a list: [ORDER BY id DESC LIMIT 1] followed by
    [cursor.fetchone()]. *)
Fixpoint fetch_last {R : Type} (rows : list R) : option R :=
  match rows with
  | [] => None
  | [r] => Some r
  | _ :: rest => fetch_last rest
  end.

(** [SELECT ... FROM audit_trail WHERE doctor_id=%s ORDER BY id] *)
Definition select_audit (db : tables) (doctor_id : string) : list audit_trail_row :=
  order_by audit_id
    (filter (fun r => audit_doctor_id r =? doctor_id) (audit_trail db)).

(** [SELECT ... FROM temperature_logs WHERE doctor_id=%s ORDER BY id] *)
Definition select_logs (db : tables) (doctor_id : string) : list temperature_logs_row :=
  order_by log_id
    (filter (fun r => log_doctor_id r =? doctor_id) (temperature_logs db)).

Section WithPlatform.

Context {platform : Platform}.

(** [VaccineDatabase.add_audit_entry]; [now] is the value of
    [datetime.now()]. *)
Definition add_audit_entry (now : datetime) (doctor_id action details : string)
    (db : tables) : tables * outcome string :=
  let result := fetch_last (select_audit db doctor_id) in
  let previous_hash :=
    match result with
    | Some r => audit_current_hash r
    | None => sentinel
    end in
  let timestamp := isoformat_T now in
  let data_string :=
    timestamp ++ "|" ++ doctor_id ++ "|" ++ action ++ "|" ++ details ++ "|" ++
    previous_hash in
  let current_hash := Sha256.hexdigest data_string in
  let row :=
    AuditRow (audit_trail_id_seq db + 1) doctor_id now action
             previous_hash current_hash details in
  if insert_audit_ok row then
    (Tables (temperature_logs db) (temperature_logs_id_seq db)
            (audit_trail db ++ [row]) (audit_trail_id_seq db + 1),
     Returned current_hash)
  else (db, Raised).

(** [VaccineDatabase.add_temperature_log] *)
Definition add_temperature_log (now : datetime) (doctor_id device_id : string)
    (temperature : float) (vaccine_type location : string)
    (db : tables) : tables * outcome string :=
  let result := fetch_last (select_logs db doctor_id) in
  let previous_hash :=
    match result with
    | Some r => log_current_hash r
    | None => sentinel
    end in
  let timestamp := isoformat_T now in
  let data_string :=
    timestamp ++ "|" ++ doctor_id ++ "|" ++ device_id ++ "|" ++
    float_str temperature ++ "|" ++ vaccine_type ++ "|" ++ location ++ "|" ++
    previous_hash in
  let current_hash := Sha256.hexdigest data_string in
  let row :=
    LogRow (temperature_logs_id_seq db + 1) doctor_id device_id now
           temperature vaccine_type location previous_hash current_hash in
  if insert_log_ok row then
    (Tables (temperature_logs db ++ [row]) (temperature_logs_id_seq db + 1)
            (audit_trail db) (audit_trail_id_seq db),
     Returned current_hash)
  else (db, Raised).

(** A call of one of the two append functions, and the tables left by a
    sequence of such calls. *)
Inductive append_call : Type :=
| AuditEntry (now : datetime) (doctor_id action details : string)
| TemperatureLog (now : datetime) (doctor_id device_id : string)
    (temperature : float) (vaccine_type location : string).

Definition call (db : tables) (c : append_call) : tables :=
  match c with
  | AuditEntry now doctor_id action details =>
      fst (add_audit_entry now doctor_id action details db)
  | TemperatureLog now doctor_id device_id temperature vaccine_type location =>
      fst (add_temperature_log now doctor_id device_id temperature
             vaccine_type location db)
  end.

Definition run (calls : list append_call) : tables :=
  fold_left call calls init_database.

End WithPlatform.

(** One element of the list [verify_audit_trail] returns. *)
Record verification_result : Type := Verified
  { vr_id : Z; vr_timestamp : datetime; vr_action : string; vr_status : string }.

(** The string [verify_audit_trail] hashes for an entry: the f-string
    formats the [datetime] read from the table with [str]. *)
Definition verify_data_string (doctor_id : string) (entry : audit_trail_row) : string :=
  Datetime.str (audit_timestamp entry) ++ "|" ++ doctor_id ++ "|" ++
  audit_action entry ++ "|" ++ audit_details entry ++ "|" ++
  audit_previous_hash entry.

(** The dictionary appended for an entry that passed both checks. *)
Definition valid_result (entry : audit_trail_row) : verification_result :=
  Verified (audit_id entry) (audit_timestamp entry) (audit_action entry) "VALID".

(** The [for entry in entries] loop of [verify_audit_trail]. *)
Fixpoint verify_entries (doctor_id : string) (entries : list audit_trail_row)
    (previous_hash : string) (verification_results : list verification_result)
    : bool * option Z * list verification_result :=
  match entries with
  | [] => (true, None, verification_results)
  | entry :: rest =>
      if negb (audit_previous_hash entry =? previous_hash) then
        (false, Some (audit_id entry), verification_results)
      else
        let calculated_hash := Sha256.hexdigest (verify_data_string doctor_id entry) in
        if negb (calculated_hash =? audit_current_hash entry) then
          (false, Some (audit_id entry), verification_results)
        else
          verify_entries doctor_id rest (audit_current_hash entry)
            (verification_results ++ [valid_result entry])
  end.

(** [VaccineDatabase.verify_audit_trail] *)
Definition verify_audit_trail (db : tables) (doctor_id : string)
    : bool * option Z * list verification_result :=
  verify_entries doctor_id (select_audit db doctor_id) sentinel [].

(** [UPDATE audit_trail SET ... WHERE id = ...] applied from outside the
    program: the way a stored record is tampered with. *)
Definition update_audit (id : Z) (change : audit_trail_row -> audit_trail_row)
    (db : tables) : tables :=
  Tables (temperature_logs db) (temperature_logs_id_seq db)
         (map (fun r => if (audit_id r =? id)%Z then change r else r)
              (audit_trail db))
         (audit_trail_id_seq db).

Definition set_action (action : string) (r : audit_trail_row) : audit_trail_row :=
  AuditRow (audit_id r) (audit_doctor_id r) (audit_timestamp r) action
           (audit_previous_hash r) (audit_current_hash r) (audit_details r).

Definition set_details (details : string) (r : audit_trail_row) : audit_trail_row :=
  AuditRow (audit_id r) (audit_doctor_id r) (audit_timestamp r) (audit_action r)
           (audit_previous_hash r) (audit_current_hash r) details.

Definition set_timestamp (t : datetime) (r : audit_trail_row) : audit_trail_row :=
  AuditRow (audit_id r) (audit_doctor_id r) t (audit_action r)
           (audit_previous_hash r) (audit_current_hash r) (audit_details r).

Definition set_doctor_id (doctor_id : string) (r : audit_trail_row) : audit_trail_row :=
  AuditRow (audit_id r) doctor_id (audit_timestamp r) (audit_action r)
           (audit_previous_hash r) (audit_current_hash r) (audit_details r).

(** An edit of one payload field of a stored record that leaves the
    record in its stream. *)
Inductive edit : Type :=
| EditTimestamp (t : datetime)
| EditAction (action : string)
| EditDetails (details : string).

Definition apply_edit (ed : edit) (r : audit_trail_row) : audit_trail_row :=
  match ed with
  | EditTimestamp t => set_timestamp t r
  | EditAction action => set_action action r
  | EditDetails details => set_details details r
  end.

(** The edit replaces the field by a different value; timestamps are
    values a [datetime] can hold. *)
Definition edit_changes (ed : edit) (r : audit_trail_row) : Prop :=
  match ed with
  | EditTimestamp t =>
      Datetime.valid t /\ Datetime.valid (audit_timestamp r) /\
      t <> audit_timestamp r
  | EditAction action => action <> audit_action r
  | EditDetails details => details <> audit_details r
  end.

(** Keys strictly increasing along a list, as the values of a SERIAL
    column are in insertion order. *)
Fixpoint increasing (keys : list Z) : Prop :=
  match keys with
  | [] => True
  | k :: rest => Forall (fun k' => (k < k')%Z) rest /\ increasing rest
  end.

(** Both tables list their rows by increasing id, none above the last
    value its sequence issued. *)
Definition ids_in_order (db : tables) : Prop :=
  increasing (map audit_id (audit_trail db)) /\
  Forall (fun r => (audit_id r <= audit_trail_id_seq db)%Z) (audit_trail db) /\
  increasing (map log_id (temperature_logs db)) /\
  Forall (fun r => (log_id r <= temperature_logs_id_seq db)%Z)
         (temperature_logs db).

(** The serialization hashed when a record is appended, as a function of
    the stored record. *)
Definition audit_data_string (r : audit_trail_row) : string :=
  isoformat_T (audit_timestamp r) ++ "|" ++ audit_doctor_id r ++ "|" ++
  audit_action r ++ "|" ++ audit_details r ++ "|" ++ audit_previous_hash r.

Definition log_data_string {platform : Platform} (r : temperature_logs_row) : string :=
  isoformat_T (log_timestamp r) ++ "|" ++ log_doctor_id r ++ "|" ++
  log_device_id r ++ "|" ++ float_str (log_temperature r) ++ "|" ++
  log_vaccine_type r ++ "|" ++ log_location r ++ "|" ++ log_prev_hash r.

(** Linkage of one chain: the first record points to the sentinel, every
    later record to the hash of the record before it. *)
Definition linked {R : Type} (prev cur : R -> string) (chain : list R) : Prop :=
  (forall r, nth_error chain 0 = Some r -> prev r = sentinel) /\
  (forall i r r', nth_error chain i = Some r ->
                  nth_error chain (S i) = Some r' -> prev r' = cur r).

(** The chain-linkage invariant over both tables and every stream. *)
Definition chain_linkage {platform : Platform} (db : tables) : Prop :=
  (forall doctor_id,
     linked audit_previous_hash audit_current_hash (select_audit db doctor_id)) /\
  (forall doctor_id,
     linked log_prev_hash log_current_hash (select_logs db doctor_id)) /\
  (forall r, In r (audit_trail db) ->
     audit_current_hash r = Sha256.hexdigest (audit_data_string r)) /\
  (forall r, In r (temperature_logs db) ->
     log_current_hash r = Sha256.hexdigest (log_data_string r)).

(** A platform for running examples: every INSERT for the doctor seeded by
    [init_database] commits, and temperatures print through a short table
    of literals. *)
Definition demo_platform : Platform :=
  {| insert_audit_ok := fun r => audit_doctor_id r =? "DOC001";
     insert_log_ok := fun r => log_doctor_id r =? "DOC001";
     float_str := fun x =>
       if PrimFloat.eqb x 5.5%float then "5.5"
       else if PrimFloat.eqb x 6%float then "6.0"
       else "5.0" |}.

(** Stored records for the examples.  [sealed_row] gives a row the current
    hash that [verify_audit_trail] recomputes for it; [stored_tables] holds
    a chain of two such records of DOC001 around a record of DOC002. *)
Definition sealed_row (id : Z) (doctor_id : string) (t : datetime)
    (action details previous_hash : string) : audit_trail_row :=
  AuditRow id doctor_id t action previous_hash
    (Sha256.hexdigest
       (verify_data_string doctor_id
          (AuditRow id doctor_id t action previous_hash "" details)))
    details.

Definition morning : datetime := Datetime.Build 2024 1 15 10 30 0 123456.
Definition evening : datetime := Datetime.Build 2024 1 15 18 5 12 0.

Definition stored_login : audit_trail_row :=
  Eval vm_compute in
    sealed_row 3 "DOC001" morning "LOGIN" "Doctor logged in successfully" sentinel.

Definition stored_other : audit_trail_row :=
  Eval vm_compute in
    sealed_row 5 "DOC002" morning "LOGIN" "Doctor logged in successfully" sentinel.

Definition stored_logout : audit_trail_row :=
  Eval vm_compute in
    sealed_row 7 "DOC001" evening "LOGOUT" "Doctor logged out"
      (audit_current_hash stored_login).

Definition stored_tables : tables :=
  Tables [] 0 [stored_login; stored_other; stored_logout] 7.

End Database.

(* ================================================================== *)
(** ** predictor.py: forecast and breach classification *)
(* ================================================================== *)

Module Predictor.

Import Datetime.

(** Conversion of a Python [int] to [float] (exact below 2^53). *)
Definition float_of_int (i : Z) : float :=
  if i <? 0 then PrimFloat.opp (PrimFloat.of_uint63 (Uint63.of_Z (- i)))
  else PrimFloat.of_uint63 (Uint63.of_Z i).

Definition nan : float := PrimFloat.nan.

(** The attributes set by [TemperaturePredictor.__init__]. *)
Record TemperaturePredictor : Type := MkPredictor
  { safe_min : float;
    safe_max : float;
    prediction_horizon : Z;
    sample_interval : Z }.

(** [TemperaturePredictor(safe_min, safe_max)] *)
Definition init (safe_min safe_max : float) : TemperaturePredictor :=
  MkPredictor safe_min safe_max 120 5.

(** [TemperaturePredictor()] with the default bounds. *)
Definition default_predictor : TemperaturePredictor := init 2 8.

(** A row of the DataFrame handed to [predict_temperature]. *)
Record reading : Type := Reading
  { reading_timestamp : datetime;
    reading_temperature : float;
    reading_device_id : string }.

(** [temperature_data['temperature']] *)
Definition temperature_column (temperature_data : list reading) : list float :=
  map reading_temperature temperature_data.

(** The numerical routines of pandas, numpy and scikit-learn that
    [predictor.py] calls.  [ewm_mean alpha s] is [s.ewm(alpha=alpha).mean()],
    which has one value per element of [s]; [ridge_fit alpha random_state X y]
    is [Ridge(alpha=alpha, random_state=random_state).fit(X, y)];
    [ridge_predict m row] is the entry of [m.predict] for one feature row;
    [round_ndigits x n] is [round(x, n)]. *)
Class Numerics : Type :=
  { ewm_mean : float -> list float -> list float;
    ewm_mean_length :
      forall alpha s, List.length (ewm_mean alpha s) = List.length s;
    series_mean : list float -> float;
    series_std : list float -> float;
    np_mean : list float -> float;
    np_std : list float -> float;
    ridge_model : Type;
    ridge_fit : float -> Z -> list (list float) -> list float -> ridge_model;
    ridge_predict : ridge_model -> list float -> float;
    mean_absolute_error : list float -> list float -> float;
    round_ndigits : float -> Z -> float }.

(** One reading of the wall clock: [time.time()] in seconds and the hour of
    [pd.Timestamp.now()].  A clock gives the k-th reading made during a
    call. *)
Record clock_reading : Type := ClockReading
  { time_time : float; now_hour : Z }.

Definition clock : Type := nat -> clock_reading.

(** Slices of a Python sequence. *)
Definition slice {A : Type} (lo hi : nat) (l : list A) : list A :=
  firstn (hi - lo) (skipn lo l).

(** [l[-k:]]: the last [k] elements, the whole of [l] when [k] is zero or
    exceeds its length. *)
Definition take_last {A : Type} (k : nat) (l : list A) : list A :=
  match k with
  | O => l
  | _ => skipn (List.length l - k) l
  end.

(** [range(lo, hi)] *)
Definition range (lo hi : nat) : list nat := seq lo (hi - lo).

(** [max(a, b)] of Python: [b] only when [b > a]. *)
Definition py_max (a b : float) : float :=
  if PrimFloat.ltb a b then b else a.

(** The forecast result: predictions (or [None]), elapsed milliseconds,
    accuracy. *)
Definition forecast : Type := option (list float) * float * float.

Definition forecast_vector (f : forecast) : option (list float) := fst (fst f).
Definition elapsed_ms (f : forecast) : float := snd (fst f).
Definition reported_accuracy (f : forecast) : float := snd f.

Inductive alert_type : Type := HIGH_TEMP | LOW_TEMP.
Inductive severity : Type := CRITICAL | WARNING.

(** [np.where(mask)[0]]: the indices at which the mask holds, ascending. *)
Fixpoint np_where_from (start : Z) (mask : list bool) : list Z :=
  match mask with
  | [] => []
  | b :: rest =>
      if b then start :: np_where_from (start + 1) rest
      else np_where_from (start + 1) rest
  end.

Definition np_where (mask : list bool) : list Z := np_where_from 0 mask.

(** The four index arrays [check_breach_risk] computes. *)
Definition upper_breach_indices (self : TemperaturePredictor)
    (predictions : list float) : list Z :=
  np_where (map (fun p => PrimFloat.ltb (safe_max self) p) predictions).

Definition lower_breach_indices (self : TemperaturePredictor)
    (predictions : list float) : list Z :=
  np_where (map (fun p => PrimFloat.ltb p (safe_min self)) predictions).

Definition upper_warning_indices (self : TemperaturePredictor)
    (predictions : list float) : list Z :=
  np_where (map (fun p => PrimFloat.ltb (PrimFloat.sub (safe_max self) 0.5) p)
                predictions).

Definition lower_warning_indices (self : TemperaturePredictor)
    (predictions : list float) : list Z :=
  np_where (map (fun p => PrimFloat.ltb p (PrimFloat.add (safe_min self) 0.5))
                predictions).

(** ['CRITICAL' if minutes_to_breach <= 60 else 'WARNING'] *)
Definition breach_severity (minutes_to_breach : Z) : severity :=
  if minutes_to_breach <=? 60 then CRITICAL else WARNING.

Definition no_alert : option alert_type * option severity * option Z :=
  (None, None, None).

(** [TemperaturePredictor.check_breach_risk] *)
Definition check_breach_risk (self : TemperaturePredictor)
    (predictions : option (list float)) (current_temp : float)
    : option alert_type * option severity * option Z :=
  match predictions with
  | None => no_alert
  | Some predictions =>
      match upper_breach_indices self predictions with
      | first_breach_idx :: _ =>
          let minutes_to_breach := (first_breach_idx + 1) * sample_interval self in
          (Some HIGH_TEMP, Some (breach_severity minutes_to_breach),
           Some minutes_to_breach)
      | [] =>
      match lower_breach_indices self predictions with
      | first_breach_idx :: _ =>
          let minutes_to_breach := (first_breach_idx + 1) * sample_interval self in
          (Some LOW_TEMP, Some (breach_severity minutes_to_breach),
           Some minutes_to_breach)
      | [] =>
          let upper := upper_warning_indices self predictions in
          let lower := lower_warning_indices self predictions in
          let low_warning :=
            match lower with
            | first_warning_idx :: _ =>
                let minutes_to_warning := (first_warning_idx + 1) * sample_interval self in
                if minutes_to_warning <=? 120 then
                  (Some LOW_TEMP, Some WARNING, Some minutes_to_warning)
                else no_alert
            | [] => no_alert
            end in
          match upper with
          | first_warning_idx :: _ =>
              let minutes_to_warning := (first_warning_idx + 1) * sample_interval self in
              if minutes_to_warning <=? 120 then
                (Some HIGH_TEMP, Some WARNING, Some minutes_to_warning)
              else low_warning
          | [] => low_warning
          end
      end
      end
  end.

(** The k-th value of the naive ramp. *)
Definition ramp_value (last_temp : float) (k : nat) : float :=
  PrimFloat.add last_temp (PrimFloat.mul (float_of_int (Z.of_nat k)) 0.05).

(** Consecutive values differ by [step] up to [tolerance]. *)
Fixpoint steps_near (step tolerance : float) (l : list float) : bool :=
  match l with
  | a :: (b :: _) as rest =>
      PrimFloat.ltb (PrimFloat.abs (PrimFloat.sub (PrimFloat.sub b a) step))
                    tolerance
      && steps_near step tolerance rest
  | _ => true
  end.

(** [first_index P l k]: [k] is the first index of [l] whose value
    satisfies [P]. *)
Definition first_index (P : float -> bool) (l : list float) (k : nat) : Prop :=
  (exists v, nth_error l k = Some v /\ P v = true) /\
  (forall j w, (j < k)%nat -> nth_error l j = Some w -> P w = false).

Section WithNumerics.

Context {numerics : Numerics}.

(** [TemperaturePredictor.smooth_temperature] *)
Definition smooth_temperature (series : list float) (alpha : float) : list float :=
  ewm_mean alpha series.

(** The feature row built from one window, as [create_features] builds it
    with the pandas statistics.  The windows [predict_temperature] passes
    hold [lags >= 6] values; on an empty window [window.iloc[-1]] raises
    IndexError, where this definition yields NaN. *)
Definition feature_row (window : list float) (lags : nat) : list float :=
  [ last window nan;
    series_mean window;
    series_std window;
    PrimFloat.div (PrimFloat.sub (last window nan) (hd nan window))
                  (float_of_int (Z.of_nat lags));
    PrimFloat.sub (last window nan) (series_mean window);
    if (4 <=? List.length window)%nat then series_mean (take_last 4 window)
    else series_mean window ].

(** [TemperaturePredictor.create_features] *)
Definition create_features (series : list float) (lags : nat) : list (list float) :=
  map (fun i => feature_row (slice (i - lags) i series) lags)
      (range lags (List.length series)).

(** The feature row of the projection loop, built with the numpy
    statistics. *)
Definition window_features (current_window : list float) (lags : nat) : list float :=
  [ last current_window nan;
    np_mean current_window;
    np_std current_window;
    PrimFloat.div (PrimFloat.sub (last current_window nan) (hd nan current_window))
                  (float_of_int (Z.of_nat lags));
    PrimFloat.sub (last current_window nan) (np_mean current_window);
    if (4 <=? List.length current_window)%nat
    then np_mean (take_last 4 current_window)
    else np_mean current_window ].

(** The day/night adjustment applied to each predicted value. *)
Definition adjust_for_hour (current_hour : Z) (next_temp : float) : float :=
  if (20 <=? current_hour) || (current_hour <? 6) then
    PrimFloat.sub next_temp 0.05
  else if (10 <=? current_hour) && (current_hour <? 16) then
    PrimFloat.add next_temp 0.05
  else next_temp.

(** The [for _ in range(steps)] loop.  [tick] is the index of the next
    clock reading; the result carries the predictions and that index after
    the loop. *)
Fixpoint project (clk : clock) (model : ridge_model) (lags : nat) (steps : nat)
    (tick : nat) (current_window predictions : list float) : list float * nat :=
  match steps with
  | O => (predictions, tick)
  | S remaining =>
      let features := window_features current_window lags in
      let next_temp := ridge_predict model features in
      let current_hour := now_hour (clk tick) in
      let next_temp := adjust_for_hour current_hour next_temp in
      project clk model lags remaining (S tick)
              (tl current_window ++ [next_temp]) (predictions ++ [next_temp])
  end.

(** [TemperaturePredictor.predict_temperature]; the first reading of the
    clock is [start_time]. *)
Definition predict_temperature (clk : clock) (self : TemperaturePredictor)
    (temperature_data : list reading) (device_id : string) : forecast :=
  let start_time := time_time (clk 0%nat) in
  let steps := Z.to_nat (prediction_horizon self / sample_interval self) in
  if (List.length temperature_data <? 20)%nat then
    let last_temp :=
      if (0 <? List.length temperature_data)%nat
      then last (temperature_column temperature_data) nan
      else 5%float in
    let predictions :=
      map (fun i => PrimFloat.add last_temp
                      (PrimFloat.mul (float_of_int (Z.of_nat i)) 0.05))
          (range 1 (steps + 1)) in
    let elapsed := PrimFloat.mul (PrimFloat.sub (time_time (clk 1%nat)) start_time) 1000 in
    (Some predictions, elapsed, 75%float)
  else
    let series := smooth_temperature (temperature_column temperature_data) 0.3 in
    let lags := Nat.min 12 (List.length temperature_data / 3) in
    if (List.length series <? lags + 5)%nat then
      let elapsed := PrimFloat.mul (PrimFloat.sub (time_time (clk 1%nat)) start_time) 1000 in
      (None, elapsed, 75%float)
    else
      let X := create_features series lags in
      let y := skipn lags series in
      let model := ridge_fit 1 42 X y in
      let y_pred := map (ridge_predict model) X in
      let mae := mean_absolute_error y y_pred in
      let accuracy := py_max 75 (PrimFloat.sub 100 (PrimFloat.mul mae 10)) in
      let current_window := take_last lags series in
      let '(predictions, tick) := project clk model lags steps 1 current_window [] in
      let elapsed := PrimFloat.mul (PrimFloat.sub (time_time (clk tick)) start_time) 1000 in
      (Some predictions, elapsed, round_ndigits accuracy 1).

End WithNumerics.

(** An instance for running examples: textbook statistics, a model that
    predicts the latest value of its window, and no rounding. *)
Definition float_sum (l : list float) : float :=
  fold_left PrimFloat.add l 0%float.

Definition float_mean (l : list float) : float :=
  PrimFloat.div (float_sum l) (float_of_int (Z.of_nat (List.length l))).

Definition float_std (ddof : Z) (l : list float) : float :=
  let m := float_mean l in
  let squares := map (fun x => PrimFloat.mul (PrimFloat.sub x m) (PrimFloat.sub x m)) l in
  PrimFloat.sqrt
    (PrimFloat.div (float_sum squares)
                   (float_of_int (Z.of_nat (List.length l) - ddof))).

Fixpoint ewm_from (alpha num den : float) (s : list float) : list float :=
  match s with
  | [] => []
  | x :: rest =>
      let keep := PrimFloat.sub 1 alpha in
      let num' := PrimFloat.add x (PrimFloat.mul keep num) in
      let den' := PrimFloat.add 1 (PrimFloat.mul keep den) in
      PrimFloat.div num' den' :: ewm_from alpha num' den' rest
  end.

Lemma ewm_from_length (alpha num den : float) (s : list float) :
  List.length (ewm_from alpha num den s) = List.length s.
Proof.
  revert num den; induction s as [|x rest IH]; intros num den; simpl.
  - reflexivity.
  - now rewrite IH.
Qed.

Definition demo_numerics : Numerics :=
  {| ewm_mean := fun alpha s => ewm_from alpha 0 0 s;
     ewm_mean_length := fun alpha s => ewm_from_length alpha 0 0 s;
     series_mean := float_mean;
     series_std := float_std 1;
     np_mean := float_mean;
     np_std := float_std 0;
     ridge_model := unit;
     ridge_fit := fun _ _ _ _ => tt;
     ridge_predict := fun _ row => hd nan row;
     mean_absolute_error := fun y y_pred =>
       float_mean (map (fun p => PrimFloat.abs (PrimFloat.sub (fst p) (snd p)))
                       (combine y y_pred));
     round_ndigits := fun x _ => x |}.

(** A clock stopped at the given hour, and one that advances by a second
    at every reading while the hour stays the same. *)
Definition stopped_clock (hour : Z) : clock :=
  fun _ => ClockReading 0 hour.

Definition ticking_clock (hour : Z) : clock :=
  fun k => ClockReading (float_of_int (Z.of_nat k)) hour.

(** A reading of 5.0 degrees. *)
Definition reading_at_5 : reading :=
  Reading (Datetime.Build 2024 1 15 10 30 0 0) 5 "fridge-01".

End Predictor.

(* ================================================================== *)
(** ** predictor.py: action suggestions *)
(* ================================================================== *)

Module Actions.

Import Predictor.
Local Open Scope string_scope.

(** The strings [check_breach_risk] returns for its two enumerations. *)
Definition alert_type_name (a : alert_type) : string :=
  match a with
  | HIGH_TEMP => "HIGH_TEMP"
  | LOW_TEMP => "LOW_TEMP"
  end.

Definition severity_name (s : severity) : string :=
  match s with
  | CRITICAL => "CRITICAL"
  | WARNING => "WARNING"
  end.

(** [d.get(key, default)] on a dictionary with string keys, kept as the
    list of its items. *)
Fixpoint dict_get {V : Type} (d : list (string * V)) (key : string) (default : V) : V :=
  match d with
  | [] => default
  | (k, v) :: rest => if k =? key then v else dict_get rest key default
  end.

(** The [actions] dictionary of [get_action_suggestions]. *)
Definition actions : list (string * list (string * list string)) :=
  [ ("HIGH_TEMP",
     [ ("CRITICAL",
        [ "üö® IMMEDIATE ACTION REQUIRED";
          "Transfer vaccines to backup cooler immediately";
          "Add maximum ice packs to all compartments";
          "Move container to air-conditioned area (if available)";
          "Notify supervisor immediately";
          "Document the incident with photos if possible";
          "Prepare for emergency vaccine transfer" ]);
       ("WARNING",
        [ "‚ö†Ô∏è PREVENTIVE ACTION NEEDED";
          "Add extra ice packs to vaccine carrier";
          "Move container to cooler location";
          "Monitor temperature every 15 minutes";
          "Prepare backup storage unit";
          "Check if more cooling is available";
          "Inform team about potential issue" ]) ]);
    ("LOW_TEMP",
     [ ("CRITICAL",
        [ "üö® IMMEDIATE ACTION REQUIRED";
          "Remove some ice packs immediately";
          "Move container to warmer area";
          "Use temperature stabilizers if available";
          "Notify supervisor immediately";
          "Check for vaccine freezing damage";
          "Prepare warming packs" ]);
       ("WARNING",
        [ "‚ö†Ô∏è PREVENTIVE ACTION NEEDED";
          "Reduce number of ice packs";
          "Monitor temperature closely (every 10 minutes)";
          "Adjust container insulation";
          "Prepare warming packs nearby";
          "Check ambient temperature";
          "Consider moving to slightly warmer area" ]) ]) ]%list.

(** The list returned for an unknown alert type or severity. *)
Definition default_actions : list string :=
  [ "Continue monitoring temperature";
    "Maintain current storage conditions";
    "Check sensor connections";
    "Document current status" ]%list.

(** [TemperaturePredictor.get_action_suggestions] *)
Definition get_action_suggestions (alert_type severity : string) : list string :=
  dict_get (dict_get actions alert_type []) severity default_actions.

End Actions.

(* ================================================================== *)
(** ** Conditions on a forecast *)
(* ================================================================== *)

Module Thresholds.

Import Predictor.

(** No value of the forecast satisfies [P]. *)
Definition nowhere (P : float -> bool) (l : list float) : Prop :=
  forall w, In w l -> P w = false.

(** The first value satisfying [P], if any, comes later than 120 minutes. *)
Definition not_within_two_hours (self : TemperaturePredictor)
    (P : float -> bool) (l : list float) : Prop :=
  forall k, first_index P l k -> 120 < (Z.of_nat k + 1) * sample_interval self.

Definition above_max (self : TemperaturePredictor) (p : float) : bool :=
  PrimFloat.ltb (safe_max self) p.
Definition below_min (self : TemperaturePredictor) (p : float) : bool :=
  PrimFloat.ltb p (safe_min self).
Definition above_upper_margin (self : TemperaturePredictor) (p : float) : bool :=
  PrimFloat.ltb (PrimFloat.sub (safe_max self) 0.5) p.
Definition below_lower_margin (self : TemperaturePredictor) (p : float) : bool :=
  PrimFloat.ltb p (PrimFloat.add (safe_min self) 0.5).

(** The value the projection loop of [predict_temperature] appends at a
    reading of the clock, from the window it holds then. *)
Definition step_value {numerics : Numerics} (clk : clock) (model : ridge_model)
    (lags : nat) (tick : nat) (window : list float) : float :=
  adjust_for_hour (now_hour (clk tick))
    (ridge_predict model (window_features window lags)).

End Thresholds.

(* ================================================================== *)
(** ** Conditions on a stored chain *)
(* ================================================================== *)

Module ChainSpec.

Import Datetime Database.

(** The hash the next record of a chain has to point to. *)
Definition tail_hash (chain : list audit_trail_row) : string :=
  match fetch_last chain with
  | Some r => audit_current_hash r
  | None => sentinel
  end.

(** Every entry passes the two checks of [verify_audit_trail] when the
    replay starts from [previous_hash]. *)
Fixpoint passes (doctor_id : string) (previous_hash : string)
    (entries : list audit_trail_row) : Prop :=
  match entries with
  | [] => True
  | entry :: rest =>
      audit_previous_hash entry = previous_hash /\
      Sha256.hexdigest (verify_data_string doctor_id entry)
        = audit_current_hash entry /\
      passes doctor_id (audit_current_hash entry) rest
  end.

(** A call that does not append to the audit chain of [doctor_id]. *)
Definition by_others (doctor_id : string) (c : append_call) : Prop :=
  match c with
  | AuditEntry _ d _ _ => d <> doctor_id
  | TemperatureLog _ _ _ _ _ _ => True
  end.

(** The record a first login of DOC001 at [morning] leaves in an empty
    table. *)
Definition appended_login : audit_trail_row :=
  AuditRow 1 "DOC001" morning "LOGIN" sentinel
    "3bbf68b885fc772e6262301fd792aaeb44d457a7d72c4d07d52a13c021b4e357"
    "Doctor logged in successfully".

End ChainSpec.

From Stdlib Require Import DecimalString.

(* ================================================================== *)
(** ** database.py: the doctors table *)
(* ================================================================== *)

Module Accounts.

Import Datetime Database.
Local Open Scope string_scope.

(** A row of [doctors], without the two columns filled by
    [DEFAULT CURRENT_TIMESTAMP].  [verification_code] is NULL for the row
    seeded by [init_database]. *)
Record doctors_row : Type := DoctorRow
  { doctors_id : Z;
    doctors_doctor_id : string;
    doctors_name : string;
    doctors_email : string;
    doctors_password : string;
    doctors_hospital : string;
    doctors_department : string;
    doctors_phone : string;
    doctors_verified : bool;
    doctors_verification_code : option string }.

(** The doctors table with its sequence, beside the two chained tables. *)
Record store : Type := Store
  { doctors : list doctors_row;
    doctors_id_seq : Z;
    records : tables }.

(** What the functions use and the repository does not define: [bcrypt]
    (a salt is the value of [bcrypt.gensalt()]; [hashpw] and [checkpw]
    raise [ValueError] on input they refuse), and whether PostgreSQL
    commits the INSERT of a doctor or rejects it with a [psycopg2.Error],
    whose [str(e)] is then given. *)
Class Services : Type :=
  { salt : Type;
    hashpw : string -> salt -> outcome string;
    checkpw : string -> string -> outcome bool;
    checkpw_hashpw : forall password s hashed,
      hashpw password s = Returned hashed ->
      checkpw password hashed = Returned true;
    insert_doctor_error : doctors_row -> option string }.

(** [SELECT COUNT( * ) FROM doctors WHERE ...] *)
Definition count_where (p : doctors_row -> bool) (rows : list doctors_row) : Z :=
  Z.of_nat (List.length (filter p rows)).

(** [SELECT ... FROM doctors WHERE doctor_id=%s] followed by
    [cursor.fetchone()]. *)
Definition fetch_doctor (db : store) (doctor_id : string) : option doctors_row :=
  find (fun r => doctors_doctor_id r =? doctor_id) (doctors db).

(** [UPDATE doctors SET ... WHERE doctor_id=%s] *)
Definition update_doctors (doctor_id : string) (f : doctors_row -> doctors_row)
    (db : store) : store :=
  Store (map (fun r => if doctors_doctor_id r =? doctor_id then f r else r)
             (doctors db))
        (doctors_id_seq db) (records db).

Definition set_verified (r : doctors_row) : doctors_row :=
  DoctorRow (doctors_id r) (doctors_doctor_id r) (doctors_name r)
            (doctors_email r) (doctors_password r) (doctors_hospital r)
            (doctors_department r) (doctors_phone r) true
            (doctors_verification_code r).

Definition set_password (hashed : string) (r : doctors_row) : doctors_row :=
  DoctorRow (doctors_id r) (doctors_doctor_id r) (doctors_name r)
            (doctors_email r) hashed (doctors_hospital r)
            (doctors_department r) (doctors_phone r) (doctors_verified r)
            (doctors_verification_code r).

(** [str(n)] for a Python [int]. *)
Definition str_int (n : Z) : string := NilZero.string_of_int (Z.to_int n).

(** [==] between the value of a nullable text column and a [str]. *)
Definition column_eqb (column : option string) (value : string) : bool :=
  match column with
  | Some text => text =? value
  | None => false
  end.

Section WithServices.

Context {services : Services}.

(** The sample doctor inserted by [VaccineDatabase.init_database] when
    the table has no DOC001; [s] is the value of [bcrypt.gensalt()]. *)
Definition seed_doctor (s : salt) (db : store) : outcome store :=
  if Z.eqb (count_where (fun r => doctors_doctor_id r =? "DOC001") (doctors db)) 0 then
    match hashpw "password123" s with
    | Raised => Raised
    | Returned hashed_pw =>
        let row :=
          DoctorRow (doctors_id_seq db + 1) "DOC001" "Dr. Priya Sharma"
                    "dr.priya@example.com" hashed_pw "Apollo Hospital"
                    "Pediatrics" "+91-9876543210" true None in
        match insert_doctor_error row with
        | None =>
            Returned (Store (doctors db ++ [row]) (doctors_id_seq db + 1)
                            (records db))
        | Some _ => Raised
        end
    end
  else Returned db.

(** [VaccineDatabase.add_doctor]; [s] is the value of [bcrypt.gensalt()]
    and [code] that of [np.random.randint(100000, 999999)]. *)
Definition add_doctor (s : salt) (code : Z)
    (doctor_id name email password hospital department phone : string)
    (db : store) : store * outcome (bool * string) :=
  if Z.ltb 0 (count_where (fun r => doctors_doctor_id r =? doctor_id) (doctors db)) then
    (db, Returned (false, "Doctor ID already exists"))
  else if Z.ltb 0 (count_where (fun r => doctors_email r =? email) (doctors db)) then
    (db, Returned (false, "Email already registered"))
  else
    match hashpw password s with
    | Raised => (db, Raised)
    | Returned hashed_pw =>
        let verification_code := str_int code in
        let row :=
          DoctorRow (doctors_id_seq db + 1) doctor_id name email hashed_pw
                    hospital department phone false (Some verification_code) in
        match insert_doctor_error row with
        | None =>
            (Store (doctors db ++ [row]) (doctors_id_seq db + 1) (records db),
             Returned (true, verification_code))
        | Some e => (db, Returned (false, e))
        end
    end.

(** [VaccineDatabase.verify_doctor_email] *)
Definition verify_doctor_email (doctor_id code : string) (db : store)
    : store * bool :=
  match fetch_doctor db doctor_id with
  | Some result =>
      if column_eqb (doctors_verification_code result) code then
        (update_doctors doctor_id set_verified db, true)
      else (db, false)
  | None => (db, false)
  end.

(** [VaccineDatabase.authenticate_doctor]; the dictionary returned is
    kept as the list of its items. *)
Definition authenticate_doctor (doctor_id password : string) (db : store)
    : outcome (bool * option (list (string * string))) :=
  match fetch_doctor db doctor_id with
  | None => Returned (false, None)
  | Some result =>
      if negb (doctors_verified result) then
        Returned (false, Some [("error", "Email not verified")])
      else
        let stored_pw := doctors_password result in
        match checkpw password stored_pw with
        | Raised => Raised
        | Returned true =>
            Returned (true, Some [("doctor_id", doctors_doctor_id result);
                                  ("name", doctors_name result)])
        | Returned false =>
            Returned (false, Some [("error", "Invalid password")])
        end
  end.

(** [VaccineDatabase.update_doctor_password] *)
Definition update_doctor_password (s : salt)
    (doctor_id current_password new_password : string) (db : store)
    : store * outcome (bool * string) :=
  match fetch_doctor db doctor_id with
  | None => (db, Returned (false, "Doctor not found"))
  | Some result =>
      let stored_password := doctors_password result in
      match checkpw current_password stored_password with
      | Raised => (db, Raised)
      | Returned false => (db, Returned (false, "Current password is incorrect"))
      | Returned true =>
          match hashpw new_password s with
          | Raised => (db, Raised)
          | Returned new_hashed_pw =>
              (update_doctors doctor_id (set_password new_hashed_pw) db,
               Returned (true, "Password updated successfully"))
          end
      end
  end.

End WithServices.

(** No two rows share a doctor id or an email, which is what the two
    UNIQUE constraints of the table demand. *)
Definition unique_accounts (db : store) : Prop :=
  NoDup (map doctors_doctor_id (doctors db)) /\
  NoDup (map doctors_email (doctors db)).

(** An empty doctors table beside empty chained tables. *)
Definition empty_store : store := Store [] 0 init_database.

(** Services for running examples: a stand-in for bcrypt that keeps the
    password behind a prefix, and a table that accepts every doctor. *)
Definition demo_services : Services :=
  {| salt := unit;
     hashpw := fun password _ => Returned ("$2b$12$" ++ password);
     checkpw := fun password hashed => Returned (("$2b$12$" ++ password) =? hashed);
     checkpw_hashpw := fun password s hashed H =>
       match H in _ = r
         return match r with
                | Returned h => Returned (("$2b$12$" ++ password) =? h) = Returned true
                | Raised => True
                end
       with
       | eq_refl => f_equal Returned (String.eqb_refl _)
       end;
     insert_doctor_error := fun _ => None |}.

(** The store left by [init_database] on empty tables, with these
    services. *)
Definition seeded_store : store :=
  Store [DoctorRow 1 "DOC001" "Dr. Priya Sharma" "dr.priya@example.com"
                   "$2b$12$password123" "Apollo Hospital" "Pediatrics"
                   "+91-9876543210" true None]
        1 init_database.

End Accounts.

(* ================================================================== *)
(** ** re.match on the pattern of validate_email *)
(* ================================================================== *)

Module Re.

Local Open Scope string_scope.

(** The pieces the pattern is made of: a literal character, and a
    character class repeated at least [least] times. *)
Inductive item : Type :=
| Lit (c : ascii)
| Rep (class : ascii -> bool) (least : nat).

(** What is left of [s] after a run of zero, one, two, ... characters of
    the class. *)
Fixpoint runs (class : ascii -> bool) (s : string) : list string :=
  s :: match s with
       | String c rest => if class c then runs class rest else []
       | EmptyString => []
       end.

(** What can be left of [s] once the item has matched at its start. *)
Definition after (it : item) (s : string) : list string :=
  match it with
  | Lit c =>
      match s with
      | String c' rest => if Ascii.eqb c c' then [rest] else []
      | EmptyString => []
      end
  | Rep class least => skipn least (runs class s)
  end.

Fixpoint residuals (pattern : list item) (s : string) : list string :=
  match pattern with
  | [] => [s]
  | it :: rest => flat_map (residuals rest) (after it s)
  end.

(** [$] without [re.MULTILINE]: at the end of the string, or just before
    a newline that ends it. *)
Definition at_end (s : string) : bool :=
  match s with
  | EmptyString => true
  | String c EmptyString => Ascii.eqb c "010"%char
  | _ => false
  end.

(** [re.match('^' + pattern + '$', s) is not None] *)
Definition matches (pattern : list item) (s : string) : bool :=
  existsb at_end (residuals pattern s).

Definition between (lo hi c : ascii) : bool :=
  (nat_of_ascii lo <=? nat_of_ascii c)%nat && (nat_of_ascii c <=? nat_of_ascii hi)%nat.

Fixpoint one_of (chars : string) (c : ascii) : bool :=
  match chars with
  | EmptyString => false
  | String x rest => Ascii.eqb x c || one_of rest c
  end.

(** Every character of [s] is in the class. *)
Fixpoint every (class : ascii -> bool) (s : string) : bool :=
  match s with
  | EmptyString => true
  | String c rest => class c && every class rest
  end.

Definition newline : string := String "010"%char EmptyString.

(** Any character but the newline. *)
Definition printable (c : ascii) : bool := negb (Ascii.eqb c "010"%char).

End Re.

(* ================================================================== *)
(** ** auth.py: registration, login and password change *)
(* ================================================================== *)

Module Auth.

Import Datetime Database Accounts Re.
Local Open Scope string_scope.

(** [st.session_state], with the five keys [init_session_state] sets. *)
Record session_state : Type := Session
  { logged_in : bool;
    session_doctor_id : option string;
    session_doctor_name : option string;
    session_verification_code : option string;
    session_verification_email : option string }.

Definition init_session_state : session_state :=
  Session false None None None None.

(** [[a-zA-Z0-9._%+-]], [[a-zA-Z0-9.-]] and [[a-zA-Z]] *)
Definition letter (c : ascii) : bool := between "a" "z" c || between "A" "Z" c.
Definition local_part (c : ascii) : bool :=
  letter c || between "0" "9" c || one_of "._%+-" c.
Definition domain_part (c : ascii) : bool :=
  letter c || between "0" "9" c || one_of ".-" c.

(** [^[a-zA-Z0-9._%+-]+@[a-zA-Z0-9.-]+\.[a-zA-Z]{2,}$] *)
Definition pattern : list item :=
  [Rep local_part 1; Lit "@"; Rep domain_part 1; Lit "."; Rep letter 2].

(** [AuthenticationSystem.validate_email].  The classes hold ASCII
    characters only, so matching the UTF-8 bytes of the address is
    matching its characters. *)
Definition validate_email (email : string) : bool := matches pattern email.

(** The characters of a [str], from its UTF-8 bytes: a byte [10xxxxxx]
    continues the character before it, any other byte starts one. *)
Fixpoint characters (s : string) (done : list Z) : list Z :=
  match s with
  | EmptyString => rev done
  | String b rest =>
      let n := Z.of_nat (nat_of_ascii b) in
      if (n <? 128)%Z then characters rest (n :: done)
      else if (n <? 192)%Z then
        match done with
        | c :: before => characters rest (c * 64 + Z.land n 63 :: before)
        | [] => characters rest [Z.land n 63]
        end
      else if (n <? 224)%Z then characters rest (Z.land n 31 :: done)
      else if (n <? 240)%Z then characters rest (Z.land n 15 :: done)
      else characters rest (Z.land n 7 :: done)
  end.

(** [str.isdigit] and [str.isalpha] on one character, which follow the
    Unicode database; on ASCII they are the digits and the letters. *)
Class Unicode : Type :=
  { isdigit : Z -> bool;
    isalpha : Z -> bool;
    isdigit_ascii : forall c, 0 <= c < 128 ->
      isdigit c = ((48 <=? c) && (c <=? 57))%Z;
    isalpha_ascii : forall c, 0 <= c < 128 ->
      isalpha c = (((65 <=? c) && (c <=? 90)) || ((97 <=? c) && (c <=? 122)))%Z }.

(** The truth value of a [str]. *)
Definition truthy (s : string) : bool :=
  match s with
  | EmptyString => false
  | String _ _ => true
  end.

(** [AuthenticationSystem.send_verification_email]: the code is kept in
    the session; nothing is sent. *)
Definition send_verification_email (to_email verification_code : string)
    (session : session_state) : session_state * bool :=
  (Session (logged_in session) (session_doctor_id session)
           (session_doctor_name session) (Some verification_code)
           (Some to_email),
   true).

Section WithServices.

Context {platform : Platform} {services : Services} {unicode : Unicode}.

(** [AuthenticationSystem.validate_password] *)
Definition validate_password (password : string) : bool * string :=
  let chars := characters password [] in
  if (Z.of_nat (List.length chars) <? 8)%Z then
    (false, "Password must be at least 8 characters long")
  else if negb (existsb isdigit chars) then
    (false, "Password must contain at least one number")
  else if negb (existsb isalpha chars) then
    (false, "Password must contain at least one letter")
  else (true, "Password is valid").

(** [AuthenticationSystem.register_doctor] *)
Definition register_doctor (s : salt) (code : Z)
    (doctor_id name email password hospital department phone : string)
    (db : store) (session : session_state)
    : store * session_state * outcome (bool * string) :=
  if negb (forallb truthy
             [doctor_id; name; email; password; hospital; department; phone]) then
    (db, session, Returned (false, "Please fill all required fields"))
  else if negb (validate_email email) then
    (db, session, Returned (false, "Invalid email format"))
  else
    let (is_valid, msg) := validate_password password in
    if negb is_valid then (db, session, Returned (false, msg))
    else
      match add_doctor s code doctor_id name email password hospital
                       department phone db with
      | (db', Raised) => (db', session, Raised)
      | (db', Returned (success, result)) =>
          if success then
            let (session', sent) := send_verification_email email result session in
            if sent then
              (db', session',
               Returned (true,
                         "Registration successful! Verification code sent to "
                         ++ email))
            else
              (db', session',
               Returned (false,
                         "Registration saved but failed to send verification email"))
          else (db', session, Returned (false, result))
      end.

(** [AuthenticationSystem.verify_email] *)
Definition verify_email (doctor_id verification_code : string) (db : store)
    : store * bool :=
  verify_doctor_email doctor_id verification_code db.

(** The truth value of an [Optional[Dict]]. *)
Definition present {V : Type} (d : option (list (string * V))) : bool :=
  match d with
  | Some (_ :: _) => true
  | _ => false
  end.

Definition items {V : Type} (d : option (list (string * V))) : list (string * V) :=
  match d with
  | Some l => l
  | None => []
  end.

(** [d[key]], which raises [KeyError] on a missing key. *)
Fixpoint subscript {V : Type} (d : list (string * V)) (key : string) : option V :=
  match d with
  | [] => None
  | (k, v) :: rest => if k =? key then Some v else subscript rest key
  end.

Definition with_records (db : store) (t : tables) : store :=
  Store (doctors db) (doctors_id_seq db) t.

(** [AuthenticationSystem.login]; [now] is the value of [datetime.now()]
    inside [add_audit_entry]. *)
Definition login (now : datetime) (doctor_id password : string)
    (db : store) (session : session_state)
    : store * session_state * outcome (bool * string) :=
  match authenticate_doctor doctor_id password db with
  | Raised => (db, session, Raised)
  | Returned (success, doctor_info) =>
      if success && present doctor_info then
        match subscript (items doctor_info) "doctor_id",
              subscript (items doctor_info) "name" with
        | Some id, Some name =>
            let session' :=
              Session true (Some id) (Some name)
                      (session_verification_code session)
                      (session_verification_email session) in
            match add_audit_entry now doctor_id "LOGIN"
                    "Doctor logged in successfully" (records db) with
            | (t, Returned _) =>
                (with_records db t, session', Returned (true, "Login successful!"))
            | (t, Raised) => (with_records db t, session', Raised)
            end
        | Some id, None =>
            (db,
             Session true (Some id) (session_doctor_name session)
                     (session_verification_code session)
                     (session_verification_email session),
             Raised)
        | None, _ =>
            (db,
             Session true (session_doctor_id session) (session_doctor_name session)
                     (session_verification_code session)
                     (session_verification_email session),
             Raised)
        end
      else if negb success && present doctor_info then
        (db, session,
         Returned (false, Actions.dict_get (items doctor_info) "error" "Login failed"))
      else (db, session, Returned (false, "Invalid Doctor ID or password"))
  end.

(** [AuthenticationSystem.logout], up to [st.rerun()].  A session that is
    logged in holds a doctor id; [None] is what the INSERT rejects. *)
Definition logout (now : datetime) (db : store) (session : session_state)
    : store * session_state * outcome unit :=
  let cleared :=
    Session false None None (session_verification_code session)
            (session_verification_email session) in
  if logged_in session then
    match session_doctor_id session with
    | Some doctor_id =>
        match add_audit_entry now doctor_id "LOGOUT" "Doctor logged out"
                (records db) with
        | (t, Returned _) => (with_records db t, cleared, Returned tt)
        | (t, Raised) => (with_records db t, session, Raised)
        end
    | None => (db, session, Raised)
    end
  else (db, cleared, Returned tt).


End WithServices.

(** The ASCII part of the Unicode database, for running examples. *)
Definition demo_unicode : Unicode :=
  {| isdigit := fun c => ((48 <=? c) && (c <=? 57))%Z;
     isalpha := fun c =>
       (((65 <=? c) && (c <=? 90)) || ((97 <=? c) && (c <=? 122)))%Z;
     isdigit_ascii := fun c _ => eq_refl;
     isalpha_ascii := fun c _ => eq_refl |}.

(** The registration of a second doctor on the seeded store, and what it
    leaves. *)
Definition registration : store * session_state * outcome (bool * string) :=
  register_doctor (services := demo_services)
    (unicode := demo_unicode) tt 482913 "DOC002" "Dr. Arjun Rao"
    "arjun.rao@example.com" "monsoon2024" "City Clinic" "Immunology"
    "+91-9000000000" seeded_store init_session_state.

Definition registered_store : store := fst (fst registration).
Definition registered_session : session_state := snd (fst registration).

End Auth.

(* ================================================================== *)
(** ** datetime.timedelta and the two get_time_ago *)
(* ================================================================== *)

Module Timedelta.

Import Datetime Accounts.
Local Open Scope string_scope.

(** A [datetime.timedelta], always normalized:
    [0 <= seconds < 86400] and [0 <= microseconds < 1000000], the sign
    being carried by [days] alone. *)
Record timedelta : Type := Delta
  { days : Z; seconds : Z; microseconds : Z }.

(** [timedelta(days, seconds, microseconds)]: the carries of the
    constructor, with Python's floor division. *)
Definition new (d s us : Z) : timedelta :=
  let s := s + us / 1000000 in
  let us := us mod 1000000 in
  let d := d + s / 86400 in
  let s := s mod 86400 in
  Delta d s us.

Definition is_leap (y : Z) : bool :=
  (y mod 4 =? 0)%Z && (negb (y mod 100 =? 0)%Z || (y mod 400 =? 0)%Z).

Definition days_before_year (y : Z) : Z :=
  let y := y - 1 in y * 365 + y / 4 - y / 100 + y / 400.

Definition days_in_month (y m : Z) : Z :=
  if (m =? 2)%Z then (if is_leap y then 29 else 28)
  else if (m =? 4)%Z || (m =? 6)%Z || (m =? 9)%Z || (m =? 11)%Z then 30
  else 31.

Definition days_before_month (y m : Z) : Z :=
  fold_right Z.add 0
    (map (days_in_month y) (map Z.of_nat (seq 1 (Z.to_nat (m - 1))))).

(** [datetime.toordinal()]: day 1 is 0001-01-01. *)
Definition toordinal (t : datetime) : Z :=
  days_before_year (year t) + days_before_month (year t) (month t) + day t.

(** [a - b] between two naive [datetime] values. *)
Definition sub (a b : datetime) : timedelta :=
  new (toordinal a - toordinal b)
      ((second a + minute a * 60 + hour a * 3600)
       - (second b + minute b * 60 + hour b * 3600))
      (microsecond a - microsecond b).

(** [AlertManager.get_time_ago] and [Utils.get_time_ago], which have the
    same body; [now] is the value of [datetime.now()]. *)
Definition get_time_ago (now timestamp : datetime) : string :=
  let diff := sub now timestamp in
  if (0 <? days diff)%Z then
    str_int (days diff) ++ " day" ++ (if (1 <? days diff)%Z then "s" else "") ++ " ago"
  else if (3600 <? seconds diff)%Z then
    let hours := seconds diff / 3600 in
    str_int hours ++ " hour" ++ (if (1 <? hours)%Z then "s" else "") ++ " ago"
  else if (60 <? seconds diff)%Z then
    let minutes := seconds diff / 60 in
    str_int minutes ++ " minute" ++ (if (1 <? minutes)%Z then "s" else "") ++ " ago"
  else "Just now".

(** The instant of a [datetime] in microseconds since the start of day 0
    of the proleptic calendar. *)
Definition instant (t : datetime) : Z :=
  (toordinal t * 86400 + second t + minute t * 60 + hour t * 3600) * 1000000
  + microsecond t.

(** The answer for a number of whole hours. *)
Definition hours_ago (h : Z) : string :=
  str_int h ++ " hour" ++ (if (1 <? h)%Z then "s" else "") ++ " ago".

End Timedelta.

(* ================================================================== *)
(** ** database.py and alerts.py: alerts *)
(* ================================================================== *)

Module Alerts.

Import Datetime Database Predictor.
Local Open Scope string_scope.

(** A row of [alerts], holding the values handed to INSERT. *)
Record alerts_row : Type := AlertRow
  { alert_id : Z;
    alert_doctor_id : string;
    alert_device_id : string;
    alert_timestamp : datetime;
    alert_alert_type : string;
    alert_temperature : float;
    alert_predicted_temp : float;
    alert_alert_message : string;
    alert_action_suggested : string;
    alert_status : string;
    alert_severity : string;
    alert_minutes_to_breach : Z }.

Record alerts_table : Type := AlertsTable
  { alerts : list alerts_row;
    alerts_id_seq : Z }.

Definition no_alerts : alerts_table := AlertsTable [] 0.

(** What the functions use and the repository does not define: whether
    PostgreSQL commits the INSERT, the format [.1f] of a [float], and
    Python's [round(x, ndigits)] on a [float]. *)
Class Formats : Type :=
  { insert_alert_ok : alerts_row -> bool;
    format_1f : float -> string;
    round : float -> Z -> float }.

Section WithFormats.

Context {formats : Formats}.

(** The dictionary [alert_messages] of [add_alert]. *)
Definition alert_messages (predicted_temp : float) : list (string * string) :=
  [ ("HIGH_TEMP",
     "Temperature predicted to breach upper limit (" ++ format_1f predicted_temp
     ++ "°C)");
    ("LOW_TEMP",
     "Temperature predicted to breach lower limit (" ++ format_1f predicted_temp
     ++ "°C)");
    ("SENSOR_ERROR", "Possible sensor malfunction detected") ].

(** The dictionary [action_suggestions] of [add_alert]. *)
Definition action_suggestions : list (string * string) :=
  [ ("HIGH_TEMP_CRITICAL", "Transfer vaccines immediately, add ice packs");
    ("HIGH_TEMP_WARNING", "Add extra ice packs, move to cooler location");
    ("LOW_TEMP_CRITICAL", "Remove ice packs immediately, move to warmer area");
    ("LOW_TEMP_WARNING", "Reduce ice packs, monitor closely") ].

(** [VaccineDatabase.add_alert]; [now] is the value of [datetime.now()]. *)
Definition add_alert (now : datetime) (doctor_id device_id alert_type : string)
    (temperature predicted_temp : float) (severity : string)
    (minutes_to_breach : Z) (db : alerts_table) : alerts_table * outcome Z :=
  let alert_key := alert_type ++ "_" ++ severity in
  let action := Actions.dict_get action_suggestions alert_key "Monitor the situation" in
  let row :=
    AlertRow (alerts_id_seq db + 1) doctor_id device_id now alert_type
             temperature predicted_temp
             (Actions.dict_get (alert_messages predicted_temp) alert_type "Alert")
             action "active" severity minutes_to_breach in
  if insert_alert_ok row then
    (AlertsTable (alerts db ++ [row]) (alerts_id_seq db + 1),
     Returned (alert_id row))
  else (db, Raised).

(** [AlertManager.generate_alert] *)
Definition generate_alert (now : datetime) (doctor_id device_id alert_type : string)
    (current_temp predicted_temp : float) (severity : string)
    (minutes_to_breach : Z) (db : alerts_table) : alerts_table * outcome Z :=
  add_alert now doctor_id device_id alert_type current_temp predicted_temp
            severity minutes_to_breach db.

End WithFormats.

(** A number of the statistics dictionary: an [int] or a [float]. *)
Inductive number : Type :=
| Int (n : Z)
| Float (x : float).

(** The dictionary returned by [get_alert_statistics]. *)
Record statistics : Type := Statistics
  { total_alerts : Z;
    critical_alerts : Z;
    warning_alerts : Z;
    resolved_alerts : Z;
    false_positives : Z;
    false_positive_rate : number;
    avg_response_time : Z }.

(** [len(alerts_df[mask])] *)
Definition count (mask : alerts_row -> bool) (alerts_df : list alerts_row) : Z :=
  Z.of_nat (List.length (filter mask alerts_df)).

(** [AlertManager.get_alert_statistics], from the frame that
    [get_recent_alerts(doctor_id, 1000)] returned. *)
Definition get_alert_statistics {formats : Formats}
    (alerts_df : list alerts_row) : statistics :=
  match alerts_df with
  | [] => Statistics 0 0 0 0 0 (Int 0) 0
  | _ :: _ =>
      let total_alerts := Z.of_nat (List.length alerts_df) in
      let critical_alerts := count (fun r => alert_severity r =? "CRITICAL") alerts_df in
      let warning_alerts := count (fun r => alert_severity r =? "WARNING") alerts_df in
      let resolved_alerts := count (fun r => alert_status r =? "resolved") alerts_df in
      let false_positives :=
        count (fun r => (alert_status r =? "resolved") && (alert_severity r =? "WARNING"))
              alerts_df in
      let avg_response_time := 18 in
      Statistics total_alerts critical_alerts warning_alerts resolved_alerts
        false_positives
        (if (0 <? total_alerts)%Z then
           Float (round
                    (PrimFloat.mul
                       (PrimFloat.div (float_of_int false_positives)
                                      (float_of_int total_alerts))
                       100) 1)
         else Int 0)
        avg_response_time
  end.

End Alerts.

(* ================================================================== *)
(** ** Test vectors *)
(* ================================================================== *)

(** The digests of the standard one-block, empty and two-block messages. *)
Example sha256_abc :
  Sha256.hexdigest "abc"
  = "ba7816bf8f01cfea414140de5dae2223b00361a396177a9cb410ff61f20015ad"%string.
Proof. vm_compute. reflexivity. Qed.

Example sha256_empty :
  Sha256.hexdigest ""
  = "e3b0c44298fc1c149afbf4c8996fb92427ae41e4649b934ca495991b7852b855"%string.
Proof. vm_compute. reflexivity. Qed.

Example sha256_two_blocks :
  Sha256.hexdigest "abcdbcdecdefdefgefghfghighijhijkijkljklmklmnlmnomnopnopq"
  = "248d6a61d20638b8e5c026930c3e6039a33ce45964ff2167f6ecedd419db06c1"%string.
Proof. vm_compute. reflexivity. Qed.

(** The two renderings of a timestamp. *)
Example isoformat_sample :
  Datetime.isoformat_T (Datetime.Build 2024 1 15 10 30 0 123456)
  = "2024-01-15T10:30:00.123456"%string.
Proof. reflexivity. Qed.

Example str_sample :
  Datetime.str (Datetime.Build 2024 1 15 10 30 0 0)
  = "2024-01-15 10:30:00"%string.
Proof. reflexivity. Qed.

(* ================================================================== *)
(** ** Facts about the breach classifier and the forecast *)
(* ================================================================== *)

Module PredictorFacts.

Import Predictor.

(** *** Comparison of binary64 values *)



(** *** np.where *)



(** The head of [np.where(mask)[0]] is the first index at which the mask
    holds. *)
Lemma np_where_from_head (mask : list bool) :
  forall start first rest,
    np_where_from start mask = first :: rest ->
    exists k : nat,
      first = start + Z.of_nat k /\ nth_error mask k = Some true /\
      forall j, (j < k)%nat -> nth_error mask j = Some false.
Proof.
  induction mask as [|b tail IH]; intros start first rest; simpl.
  - discriminate.
  - destruct b.
    + intros H; injection H as <- _. exists 0%nat.
      split; [lia|]. split; [reflexivity|]. intros j Hj; lia.
    + intros H. destruct (IH _ _ _ H) as (k & -> & Hk & Hbefore).
      exists (S k). split; [lia|]. split; [exact Hk|].
      intros [|j] Hj; simpl; [reflexivity|]. apply Hbefore; lia.
Qed.

Lemma np_where_from_nil (mask : list bool) :
  forall start,
    np_where_from start mask = [] <-> (forall b, In b mask -> b = false).
Proof.
  induction mask as [|b tail IH]; intros start; simpl.
  - split; [intros _ b []|reflexivity].
  - destruct b.
    + split; [discriminate|]. intros H. specialize (H true (or_introl eq_refl)).
      discriminate.
    + rewrite IH. split.
      * intros H b [<-|Hb]; [reflexivity|now apply H].
      * intros H b Hb. apply H. now right.
Qed.

Lemma np_where_map_head (P : float -> bool) (l : list float) (first : Z) (rest : list Z) :
  np_where (map P l) = first :: rest ->
  exists k : nat, first = Z.of_nat k /\ first_index P l k.
Proof.
  intros H. apply np_where_from_head in H as (k & -> & Hk & Hbefore).
  exists k. split; [lia|]. split.
  - rewrite nth_error_map in Hk.
    destruct (nth_error l k) as [v|]; [|discriminate].
    exists v. split; [reflexivity|]. now injection Hk.
  - intros j w Hj Hw. specialize (Hbefore j Hj).
    rewrite nth_error_map, Hw in Hbefore. now injection Hbefore.
Qed.

Lemma np_where_map_nil (P : float -> bool) (l : list float) :
  np_where (map P l) = [] <-> (forall w, In w l -> P w = false).
Proof.
  unfold np_where. rewrite np_where_from_nil. split.
  - intros H w Hw. apply H. now apply in_map.
  - intros H b Hb. apply in_map_iff in Hb as (w & <- & Hw). now apply H.
Qed.


Lemma first_index_le (P : float -> bool) (l : list float) (k i : nat) (v : float) :
  first_index P l k -> nth_error l i = Some v -> P v = true -> (k <= i)%nat.
Proof.
  intros [_ Hbefore] Hv HP.
  destruct (Nat.le_gt_cases k i) as [Hle|Hgt]; [exact Hle|].
  rewrite (Hbefore i v Hgt Hv) in HP. discriminate.
Qed.

(** *** The classifier *)

Lemma check_breach_risk_upper (self : TemperaturePredictor)
    (predictions : list float) (current_temp : float) (first : Z) (rest : list Z) :
  upper_breach_indices self predictions = first :: rest ->
  check_breach_risk self (Some predictions) current_temp =
    (Some HIGH_TEMP,
     Some (breach_severity ((first + 1) * sample_interval self)),
     Some ((first + 1) * sample_interval self)).
Proof. intros H. unfold check_breach_risk. now rewrite H. Qed.

Lemma check_breach_risk_lower (self : TemperaturePredictor)
    (predictions : list float) (current_temp : float) (first : Z) (rest : list Z) :
  upper_breach_indices self predictions = [] ->
  lower_breach_indices self predictions = first :: rest ->
  check_breach_risk self (Some predictions) current_temp =
    (Some LOW_TEMP,
     Some (breach_severity ((first + 1) * sample_interval self)),
     Some ((first + 1) * sample_interval self)).
Proof. intros Hu Hl. unfold check_breach_risk. now rewrite Hu, Hl. Qed.

Lemma exceeding_value_found (P : float -> bool) (l : list float) (i : nat) (v : float) :
  nth_error l i = Some v -> P v = true ->
  exists first rest, np_where (map P l) = first :: rest.
Proof.
  intros Hv HP. destruct (np_where (map P l)) as [|first rest] eqn:Hw.
  - rewrite np_where_map_nil in Hw.
    rewrite (Hw v (nth_error_In _ _ Hv)) in HP. discriminate.
  - now exists first, rest.
Qed.

(** C4.  Breach priority: as soon as some forecast value is strictly above
    [safe_max], [check_breach_risk] reports HIGH_TEMP for the first index
    holding such a value, with the minutes and severity of that index,
    whatever the other values are (an earlier value inside the lower
    warning margin, or even below [safe_min], does not change the
    answer). *)
Theorem breach_outranks_warning (self : TemperaturePredictor)
    (predictions : list float) (current_temp : float) (i : nat) (v : float) :
  nth_error predictions i = Some v ->
  PrimFloat.ltb (safe_max self) v = true ->
  exists first : nat,
    (first <= i)%nat /\
    first_index (fun p => PrimFloat.ltb (safe_max self) p) predictions first /\
    check_breach_risk self (Some predictions) current_temp =
      (Some HIGH_TEMP,
       Some (breach_severity ((Z.of_nat first + 1) * sample_interval self)),
       Some ((Z.of_nat first + 1) * sample_interval self)).
Proof.
  intros Hv Habove.
  destruct (exceeding_value_found _ _ _ _ Hv Habove) as (first & rest & Hw).
  destruct (np_where_map_head _ _ _ _ Hw) as (k & -> & Hk).
  exists k. split; [|split].
  - exact (first_index_le _ _ _ _ _ Hk Hv Habove).
  - exact Hk.
  - exact (check_breach_risk_upper self predictions current_temp _ _ Hw).
Qed.

(** The scenario of the specification: index 3 above [safe_max], index 1
    inside the warning margin of [safe_min]. *)
Lemma breach_outranks_warning_scenario :
  nth_error [5; 2.3; 5; 8.4; 5]%float 3 = Some 8.4%float /\
  PrimFloat.ltb (safe_max default_predictor) 8.4 = true /\
  PrimFloat.ltb 2.3 (PrimFloat.add (safe_min default_predictor) 0.5) = true /\
  exists first : nat,
    (first <= 3)%nat /\
    first_index (fun p => PrimFloat.ltb (safe_max default_predictor) p)
                [5; 2.3; 5; 8.4; 5]%float first /\
    check_breach_risk default_predictor (Some [5; 2.3; 5; 8.4; 5]%float) 5 =
      (Some HIGH_TEMP,
       Some (breach_severity
               ((Z.of_nat first + 1) * sample_interval default_predictor)),
       Some ((Z.of_nat first + 1) * sample_interval default_predictor)).
Proof.
  split; [reflexivity|]. split; [reflexivity|]. split; [reflexivity|].
  apply (breach_outranks_warning default_predictor
           [5; 2.3; 5; 8.4; 5]%float 5 3 8.4); reflexivity.
Defined.

Example breach_priority_evaluated :
  check_breach_risk default_predictor (Some [5; 2.3; 5; 8.4; 5]%float) 5
  = (Some HIGH_TEMP, Some CRITICAL, Some 20).
Proof. reflexivity. Qed.



(** With the default bounds: 8.0 alone yields a warning and not a breach
    (a breach five minutes ahead would be CRITICAL), 7.5 alone yields
    nothing; 2.0 and 2.5 likewise on the lower side. *)
Example boundary_values_evaluated :
  check_breach_risk default_predictor (Some [8]%float) 5
    = (Some HIGH_TEMP, Some WARNING, Some 5) /\
  check_breach_risk default_predictor (Some [7.5]%float) 5 = no_alert /\
  check_breach_risk default_predictor (Some [2]%float) 5
    = (Some LOW_TEMP, Some WARNING, Some 5) /\
  check_breach_risk default_predictor (Some [2.5]%float) 5 = no_alert.
Proof. repeat split. Qed.

(** End to end: a forecast none of whose values is strictly beyond any of
    the four thresholds, values equal to a threshold included, raises no
    alert. *)
Lemma no_alert_without_strict_excess (self : TemperaturePredictor)
    (predictions : list float) (current_temp : float) :
  (forall w, In w predictions ->
     PrimFloat.ltb (safe_max self) w = false /\
     PrimFloat.ltb w (safe_min self) = false /\
     PrimFloat.ltb (PrimFloat.sub (safe_max self) 0.5) w = false /\
     PrimFloat.ltb w (PrimFloat.add (safe_min self) 0.5) = false) ->
  check_breach_risk self (Some predictions) current_temp = no_alert.
Proof.
  intros H. unfold check_breach_risk.
  assert (Hub : upper_breach_indices self predictions = [])
    by (apply np_where_map_nil; intros w Hw; apply (H w Hw)).
  assert (Hlb : lower_breach_indices self predictions = [])
    by (apply np_where_map_nil; intros w Hw; apply (H w Hw)).
  assert (Huw : upper_warning_indices self predictions = [])
    by (apply np_where_map_nil; intros w Hw; apply (H w Hw)).
  assert (Hlw : lower_warning_indices self predictions = [])
    by (apply np_where_map_nil; intros w Hw; apply (H w Hw)).
  now rewrite Hub, Hlb, Huw, Hlw.
Qed.

(** C7.  Whenever some forecast value lies strictly outside the safe range,
    [check_breach_risk] reports an alert whose minutes are (first offending
    index + 1) times the sample interval of five minutes, HIGH_TEMP taking
    the first value above [safe_max] and LOW_TEMP, when no value is above
    [safe_max], the first value below [safe_min]; the severity is CRITICAL
    exactly when those minutes are at most 60 and WARNING otherwise. *)
Theorem breach_minutes_and_severity (smin smax : float)
    (predictions : list float) (current_temp : float) (i : nat) (v : float) :
  nth_error predictions i = Some v ->
  PrimFloat.ltb smax v = true \/ PrimFloat.ltb v smin = true ->
  exists (first : nat) (a : alert_type) (s : severity),
    check_breach_risk (init smin smax) (Some predictions) current_temp =
      (Some a, Some s, Some ((Z.of_nat first + 1) * 5)) /\
    match a with
    | HIGH_TEMP => first_index (fun p => PrimFloat.ltb smax p) predictions first
    | LOW_TEMP =>
        (forall w, In w predictions -> PrimFloat.ltb smax w = false) /\
        first_index (fun p => PrimFloat.ltb p smin) predictions first
    end /\
    (s = CRITICAL <-> (Z.of_nat first + 1) * 5 <= 60) /\
    (s = WARNING <-> 60 < (Z.of_nat first + 1) * 5).
Proof.
  intros Hv Hout.
  assert (Hsev : forall m, (breach_severity m = CRITICAL <-> m <= 60) /\
                           (breach_severity m = WARNING <-> 60 < m)).
  { intros m. unfold breach_severity.
    destruct (Z.leb_spec m 60); split; split; intros; try discriminate;
      try reflexivity; lia. }
  destruct (upper_breach_indices (init smin smax) predictions)
    as [|ufirst urest] eqn:Hupper.
  - assert (Hnone : forall w, In w predictions -> PrimFloat.ltb smax w = false)
      by (now apply np_where_map_nil).
    destruct Hout as [Habove|Hbelow].
    { rewrite (Hnone v (nth_error_In _ _ Hv)) in Habove. discriminate. }
    destruct (exceeding_value_found (fun p => PrimFloat.ltb p smin) _ _ _ Hv Hbelow)
      as (first & rest & Hw).
    destruct (np_where_map_head _ _ _ _ Hw) as (k & -> & Hk).
    exists k, LOW_TEMP, (breach_severity ((Z.of_nat k + 1) * 5)).
    split; [|split; [split; assumption|apply Hsev]].
    exact (check_breach_risk_lower (init smin smax) predictions current_temp
             _ _ Hupper Hw).
  - destruct (np_where_map_head _ _ _ _ Hupper) as (k & -> & Hk).
    exists k, HIGH_TEMP, (breach_severity ((Z.of_nat k + 1) * 5)).
    split; [|split; [exact Hk|apply Hsev]].
    exact (check_breach_risk_upper (init smin smax) predictions current_temp
             _ _ Hupper).
Qed.

(** A low breach at index 12: 65 minutes ahead, hence WARNING. *)
Lemma breach_minutes_and_severity_low :
  nth_error (repeat 5 12 ++ [1.5])%float 12 = Some 1.5%float /\
  exists (first : nat) (a : alert_type) (s : severity),
    check_breach_risk (init 2 8) (Some (repeat 5 12 ++ [1.5])%float) 5 =
      (Some a, Some s, Some ((Z.of_nat first + 1) * 5)) /\
    match a with
    | HIGH_TEMP =>
        first_index (fun p => PrimFloat.ltb 8 p) (repeat 5 12 ++ [1.5])%float first
    | LOW_TEMP =>
        (forall w, In w (repeat 5 12 ++ [1.5])%float -> PrimFloat.ltb 8 w = false) /\
        first_index (fun p => PrimFloat.ltb p 2) (repeat 5 12 ++ [1.5])%float first
    end /\
    (s = CRITICAL <-> (Z.of_nat first + 1) * 5 <= 60) /\
    (s = WARNING <-> 60 < (Z.of_nat first + 1) * 5).
Proof.
  split; [reflexivity|].
  apply (breach_minutes_and_severity 2 8 (repeat 5 12 ++ [1.5])%float 5 12 1.5).
  - reflexivity.
  - right. reflexivity.
Defined.

Example breach_minutes_evaluated :
  check_breach_risk (init 2 8) (Some (repeat 5 12 ++ [1.5])%float) 5
    = (Some LOW_TEMP, Some WARNING, Some 65) /\
  check_breach_risk (init 2 8) (Some (repeat 5 11 ++ [8.5])%float) 5
    = (Some HIGH_TEMP, Some CRITICAL, Some 60).
Proof. split; reflexivity. Qed.

(** *** The forecast *)

Lemma nth_error_seq (len : nat) :
  forall start n, (n < len)%nat -> nth_error (seq start len) n = Some (start + n)%nat.
Proof.
  induction len as [|len IH]; intros start n Hn; [lia|].
  destruct n as [|n]; simpl.
  - f_equal; lia.
  - rewrite IH by lia. f_equal; lia.
Qed.

Section WithNumerics.

Context {numerics : Numerics}.

Lemma steps_of_init (smin smax : float) :
  Z.to_nat (prediction_horizon (init smin smax) / sample_interval (init smin smax))
  = 24%nat.
Proof. reflexivity. Qed.

(** The insufficient-data branch, for a history of fewer than 20 rows. *)
Lemma predict_temperature_short (clk : clock) (smin smax : float)
    (temperature_data : list reading) (device_id : string) :
  (List.length temperature_data < 20)%nat ->
  predict_temperature clk (init smin smax) temperature_data device_id =
    (Some (map (ramp_value
                  (if (0 <? List.length temperature_data)%nat
                   then last (temperature_column temperature_data) nan
                   else 5%float))
               (seq 1 24)),
     PrimFloat.mul
       (PrimFloat.sub (time_time (clk 1%nat)) (time_time (clk 0%nat))) 1000,
     75%float).
Proof.
  intros Hlen. unfold predict_temperature.
  apply Nat.ltb_lt in Hlen. rewrite Hlen, steps_of_init. reflexivity.
Qed.

(** C8.  A history of one to nineteen readings yields the naive forecast:
    exactly 24 values, the k-th one (k = 1..24) being the temperature of
    the last reading plus k times 0.05 in binary64 arithmetic, and a
    reported accuracy of exactly 75.0. *)
Theorem naive_forecast (clk : clock) (smin smax : float)
    (earlier : list reading) (r : reading) (device_id : string) :
  (List.length earlier < 19)%nat ->
  exists ramp : list float,
    forecast_vector
      (predict_temperature clk (init smin smax) (earlier ++ [r]) device_id) = Some ramp /\
    reported_accuracy
      (predict_temperature clk (init smin smax) (earlier ++ [r]) device_id) = 75%float /\
    List.length ramp = 24%nat /\
    forall k, (1 <= k <= 24)%nat ->
      nth_error ramp (k - 1) =
        Some (PrimFloat.add (reading_temperature r)
                (PrimFloat.mul (float_of_int (Z.of_nat k)) 0.05)).
Proof.
  intros Hlen.
  assert (Hshort : (List.length (earlier ++ [r]) < 20)%nat)
    by (rewrite length_app; simpl; lia).
  rewrite (predict_temperature_short clk smin smax _ device_id Hshort).
  replace (0 <? List.length (earlier ++ [r]))%nat with true
    by (symmetry; apply Nat.ltb_lt; rewrite length_app; simpl; lia).
  assert (Hlast : last (temperature_column (earlier ++ [r])) nan
                  = reading_temperature r).
  { unfold temperature_column. rewrite map_app. apply last_last. }
  rewrite Hlast.
  eexists. split; [reflexivity|]. split; [reflexivity|].
  split; [now rewrite length_map, length_seq|].
  intros k Hk. rewrite nth_error_map.
  assert (Hk' : (k - 1 < 24)%nat) by lia.
  rewrite (nth_error_seq 24 1 (k - 1) Hk').
  replace (1 + (k - 1))%nat with k by lia. reflexivity.
Qed.

(** C5 as the code has it.  On an empty history [predict_temperature]
    returns, without raising, the naive ramp started from the default
    temperature 5.0: 24 values, the k-th being 5.0 + k * 0.05, with
    accuracy 75.0; the forecast is present, not absent. *)
Theorem empty_history_forecast (clk : clock) (smin smax : float)
    (device_id : string) :
  forecast_vector (predict_temperature clk (init smin smax) [] device_id)
    = Some (map (ramp_value 5) (seq 1 24)) /\
  reported_accuracy (predict_temperature clk (init smin smax) [] device_id) = 75%float /\
  List.length (map (ramp_value 5) (seq 1 24)) = 24%nat.
Proof.
  rewrite (predict_temperature_short clk smin smax [] device_id) by (simpl; lia).
  repeat split.
Qed.

(** The projection loop reads the clock only for its hour. *)
Lemma project_hours (clk1 clk2 : clock) (model : ridge_model) (lags : nat) :
  (forall k, now_hour (clk1 k) = now_hour (clk2 k)) ->
  forall steps tick current_window predictions,
    project clk1 model lags steps tick current_window predictions =
    project clk2 model lags steps tick current_window predictions.
Proof.
  intros Hhours steps.
  induction steps as [|steps IH]; intros tick current_window predictions; simpl.
  - reflexivity.
  - rewrite Hhours. apply IH.
Qed.


(** C9.  With the library routines taken as functions of their arguments
    (the ridge fit of its seed among them), two runs on the same history
    whose clocks show the same hour at every reading return the same
    forecast vector and the same accuracy; only the elapsed time depends
    on the rest of the clock. *)
Theorem forecast_deterministic (clk1 clk2 : clock) (self : TemperaturePredictor)
    (temperature_data : list reading) (device_id : string) (current_hour : Z) :
  (forall k, now_hour (clk1 k) = current_hour) ->
  (forall k, now_hour (clk2 k) = current_hour) ->
  forecast_vector (predict_temperature clk1 self temperature_data device_id)
    = forecast_vector (predict_temperature clk2 self temperature_data device_id) /\
  reported_accuracy (predict_temperature clk1 self temperature_data device_id)
    = reported_accuracy (predict_temperature clk2 self temperature_data device_id).
Proof.
  intros H1 H2.
  assert (Hhours : forall k, now_hour (clk1 k) = now_hour (clk2 k))
    by (intros k; now rewrite H1, H2).
  unfold predict_temperature.
  destruct (List.length temperature_data <? 20)%nat; [split; reflexivity|].
  match goal with
  | |- context [if ?c then _ else _] => destruct c; [split; reflexivity|]
  end.
  rewrite (project_hours clk1 clk2 _ _ Hhours).
  match goal with
  | |- context [project ?c ?m ?l ?s ?t ?w ?p] =>
      destruct (project c m l s t w p) as [predictions tick]
  end.
  split; reflexivity.
Qed.


End WithNumerics.

(** Three readings at 5.0: the 24 values returned, and the step between
    consecutive values, which is 0.05 up to the rounding of binary64. *)
Lemma naive_forecast_three_readings :
  (List.length [reading_at_5; reading_at_5] < 19)%nat /\
  exists ramp : list float,
    forecast_vector
      (predict_temperature (numerics := demo_numerics) (stopped_clock 12)
         (init 2 8) ([reading_at_5; reading_at_5] ++ [reading_at_5]) "fridge-01")
      = Some ramp /\
    reported_accuracy
      (predict_temperature (numerics := demo_numerics) (stopped_clock 12)
         (init 2 8) ([reading_at_5; reading_at_5] ++ [reading_at_5]) "fridge-01")
      = 75%float /\
    List.length ramp = 24%nat /\
    forall k, (1 <= k <= 24)%nat ->
      nth_error ramp (k - 1) =
        Some (PrimFloat.add (reading_temperature reading_at_5)
                (PrimFloat.mul (float_of_int (Z.of_nat k)) 0.05)).
Proof.
  split; [simpl; lia|].
  apply (naive_forecast (numerics := demo_numerics) (stopped_clock 12) 2 8
           [reading_at_5; reading_at_5] reading_at_5 "fridge-01").
  simpl; lia.
Defined.

Example naive_ramp_evaluated :
  forecast_vector
    (predict_temperature (numerics := demo_numerics) (stopped_clock 12)
       default_predictor [reading_at_5; reading_at_5; reading_at_5] "fridge-01")
  = Some [5.05; 5.1; 5.15; 5.2; 5.25; 5.3; 5.35; 5.4; 5.45; 5.5; 5.55; 5.6;
          5.65; 5.7; 5.75; 5.8; 5.85; 5.9; 5.95; 6; 6.05; 6.1; 6.15; 6.2]%float
  /\ steps_near 0.05 1e-15
       (5%float :: map (ramp_value 5) (seq 1 24)) = true.
Proof. split; vm_compute; reflexivity. Qed.

(** C5 as the specification states it fails: the forecast of an empty
    history is present. *)
Lemma empty_history_is_not_absent :
  forecast_vector
    (predict_temperature (numerics := demo_numerics) (stopped_clock 12)
       default_predictor [] "fridge-01")
  <> None.
Proof. vm_compute. discriminate. Qed.

Lemma forecast_deterministic_two_clocks :
  (forall k, now_hour (stopped_clock 12 k) = 12) /\
  (forall k, now_hour (ticking_clock 12 k) = 12) /\
  forecast_vector
    (predict_temperature (numerics := demo_numerics) (stopped_clock 12)
       default_predictor (repeat reading_at_5 25) "fridge-01")
  = forecast_vector
      (predict_temperature (numerics := demo_numerics) (ticking_clock 12)
         default_predictor (repeat reading_at_5 25) "fridge-01") /\
  reported_accuracy
    (predict_temperature (numerics := demo_numerics) (stopped_clock 12)
       default_predictor (repeat reading_at_5 25) "fridge-01")
  = reported_accuracy
      (predict_temperature (numerics := demo_numerics) (ticking_clock 12)
         default_predictor (repeat reading_at_5 25) "fridge-01").
Proof.
  split; [reflexivity|]. split; [reflexivity|].
  apply (forecast_deterministic (numerics := demo_numerics)
           (stopped_clock 12) (ticking_clock 12) default_predictor
           (repeat reading_at_5 25) "fridge-01" 12); reflexivity.
Defined.

(** The elapsed time, by contrast, follows the clock. *)
Example elapsed_follows_clock :
  elapsed_ms
    (predict_temperature (numerics := demo_numerics) (stopped_clock 12)
       default_predictor (repeat reading_at_5 25) "fridge-01") = 0%float /\
  elapsed_ms
    (predict_temperature (numerics := demo_numerics) (ticking_clock 12)
       default_predictor (repeat reading_at_5 25) "fridge-01") = 25000%float.
Proof. split; vm_compute; reflexivity. Qed.


End PredictorFacts.

(* ================================================================== *)
(** ** Facts about strings and timestamps *)
(* ================================================================== *)

Module DatetimeFacts.

Import Datetime.
Local Open Scope string_scope.

Lemma append_inv_head (s a b : string) : s ++ a = s ++ b -> a = b.
Proof.
  induction s as [|c s IH]; simpl; [trivial|].
  intros H. injection H as H. now apply IH.
Qed.

Lemma string_cons_inv (c c' : ascii) (a b : string) :
  String c a = String c' b -> a = b.
Proof. now intros [= _ ->]. Qed.

Lemma append_inj_length (a b x y : string) :
  String.length a = String.length b -> a ++ x = b ++ y -> a = b /\ x = y.
Proof.
  revert b. induction a as [|c a IH]; intros [|c' b]; simpl; try discriminate.
  - intros _ H. now split.
  - intros Hlen H. injection Hlen as Hlen. injection H as -> H.
    destruct (IH b Hlen H) as [-> ->]. now split.
Qed.

Lemma length_append (a b : string) :
  String.length (a ++ b) = (String.length a + String.length b)%nat.
Proof. induction a as [|c a IH]; simpl; [reflexivity|now rewrite IH]. Qed.

Lemma append_inv_tail (a b s : string) : a ++ s = b ++ s -> a = b.
Proof.
  intros H. apply (append_inj_length a b s s); [|exact H].
  apply (f_equal String.length) in H. rewrite !length_append in H. lia.
Qed.

(** Decimal digits and zero-padded numbers. *)
Lemma digit_inj (a b : Z) :
  0 <= a < 10 -> 0 <= b < 10 -> digit a = digit b -> a = b.
Proof.
  intros Ha Hb H. apply (f_equal nat_of_ascii) in H. unfold digit in H.
  rewrite !nat_ascii_embedding in H by lia. lia.
Qed.

Lemma zfill_length (width : nat) (n : Z) : String.length (zfill width n) = width.
Proof. induction width as [|k IH]; simpl; [reflexivity|now rewrite IH]. Qed.

Lemma zfill_mod (width : nat) (a b : Z) :
  zfill width a = zfill width b ->
  a mod 10 ^ Z.of_nat width = b mod 10 ^ Z.of_nat width.
Proof.
  induction width as [|k IH]; simpl zfill.
  - intros _. now rewrite !Z.mod_1_r.
  - intros H. injection H as Hd Hrest. specialize (IH Hrest).
    apply digit_inj in Hd; try (apply Z.mod_pos_bound; lia).
    rewrite Nat2Z.inj_succ, Z.pow_succ_r, (Z.mul_comm 10) by lia.
    assert (Hpos : 0 < 10 ^ Z.of_nat k) by (apply Z.pow_pos_nonneg; lia).
    rewrite !Z.rem_mul_r by lia. now rewrite IH, Hd.
Qed.

Lemma zfill_inj (width : nat) (a b : Z) :
  0 <= a < 10 ^ Z.of_nat width -> 0 <= b < 10 ^ Z.of_nat width ->
  zfill width a = zfill width b -> a = b.
Proof.
  intros Ha Hb H. apply zfill_mod in H.
  now rewrite !Z.mod_small in H by assumption.
Qed.

(** Two datetimes that print alike are the same. *)
Lemma isoformat_inj (sep : ascii) (t t' : datetime) :
  valid t -> valid t' -> isoformat sep t = isoformat sep t' -> t = t'.
Proof.
  destruct t as [y mo d h mi s us], t' as [y' mo' d' h' mi' s' us'].
  unfold valid, isoformat;
    cbn [year month day hour minute second microsecond].
  intros (Hy & Hmo & Hd & Hh & Hmi & Hs & Hus)
         (Hy' & Hmo' & Hd' & Hh' & Hmi' & Hs' & Hus') H.
  apply append_inj_length in H as [Ey H]; [|now rewrite !zfill_length].
  apply append_inv_head in H.
  apply append_inj_length in H as [Emo H]; [|now rewrite !zfill_length].
  apply append_inv_head in H.
  apply append_inj_length in H as [Ed H]; [|now rewrite !zfill_length].
  apply string_cons_inv in H.
  apply append_inj_length in H as [Eh H]; [|now rewrite !zfill_length].
  apply append_inv_head in H.
  apply append_inj_length in H as [Emi H]; [|now rewrite !zfill_length].
  apply append_inv_head in H.
  apply append_inj_length in H as [Es H]; [|now rewrite !zfill_length].
  apply zfill_inj in Ey, Emo, Ed, Eh, Emi, Es; try (simpl; lia).
  subst y' mo' d' h' mi' s'.
  assert (Eus : us = us').
  { destruct (Z.eqb_spec us 0) as [->|Hn], (Z.eqb_spec us' 0) as [->|Hn'];
      try reflexivity; try discriminate.
    apply append_inv_head in H. apply zfill_inj in H; simpl; lia. }
  now subst us'.
Qed.

Lemma str_inj (t t' : datetime) :
  valid t -> valid t' -> str t = str t' -> t = t'.
Proof. apply isoformat_inj. Qed.

(** The two renderings of a timestamp differ: ['T'] against a space. *)
Lemma isoformat_T_is_not_str (t : datetime) : isoformat_T t <> str t.
Proof.
  unfold isoformat_T, str, isoformat. intros H.
  apply append_inj_length in H as [_ H]; [|reflexivity].
  apply append_inv_head in H.
  apply append_inj_length in H as [_ H]; [|reflexivity].
  apply append_inv_head in H.
  apply append_inj_length in H as [_ H]; [|reflexivity].
  discriminate H.
Qed.

End DatetimeFacts.

(* ================================================================== *)
(** ** Facts about the hash chains *)
(* ================================================================== *)

Module DatabaseFacts.

Import Datetime Database.

(** *** Rows listed by increasing id *)

Section Rows.

Context {R : Type} (key : R -> Z).

Lemma order_by_increasing (rows : list R) :
  increasing (map key rows) -> order_by key rows = rows.
Proof.
  induction rows as [|r rest IH]; simpl; [reflexivity|].
  intros [Hlt Hrest]. unfold order_by in *. simpl. rewrite (IH Hrest).
  destruct rest as [|x rest']; simpl; [reflexivity|].
  apply Forall_inv in Hlt. apply Z.ltb_lt in Hlt. now rewrite Hlt.
Qed.

Lemma increasing_filter (p : R -> bool) (rows : list R) :
  increasing (map key rows) -> increasing (map key (filter p rows)).
Proof.
  induction rows as [|r rest IH]; simpl; [trivial|].
  intros [Hlt Hrest]. destruct (p r); simpl; [split|]; auto.
  apply Forall_forall. intros k Hk.
  apply in_map_iff in Hk as (x & <- & Hx). apply filter_In in Hx as [Hx _].
  rewrite Forall_forall in Hlt. apply Hlt. now apply in_map.
Qed.

Lemma increasing_snoc (rows : list R) (x : R) (seq : Z) :
  increasing (map key rows) ->
  Forall (fun r => (key r <= seq)%Z) rows ->
  key x = (seq + 1)%Z ->
  increasing (map key (rows ++ [x])).
Proof.
  intros Hinc Hbound Hx.
  induction rows as [|r rest IH]; simpl in *.
  - split; [constructor|trivial].
  - destruct Hinc as [Hlt Hrest]. split.
    + rewrite map_app. apply Forall_app. split; [exact Hlt|].
      constructor; [|constructor]. apply Forall_inv in Hbound. simpl. lia.
    + apply IH; [exact Hrest|]. now apply Forall_inv_tail in Hbound.
Qed.

Lemma bounded_snoc (rows : list R) (x : R) (seq : Z) :
  Forall (fun r => (key r <= seq)%Z) rows ->
  key x = (seq + 1)%Z ->
  Forall (fun r => (key r <= seq + 1)%Z) (rows ++ [x]).
Proof.
  intros Hbound Hx. apply Forall_app. split.
  - eapply Forall_impl; [|exact Hbound]. simpl. intros; lia.
  - constructor; [lia|constructor].
Qed.

(** The rows selected for one stream after a row was appended to the
    table. *)
Lemma select_snoc (p : R -> bool) (rows : list R) (x : R) (seq : Z) :
  increasing (map key rows) ->
  Forall (fun r => (key r <= seq)%Z) rows ->
  key x = (seq + 1)%Z ->
  order_by key (filter p (rows ++ [x])) =
    if p x then order_by key (filter p rows) ++ [x]
    else order_by key (filter p rows).
Proof.
  intros Hinc Hbound Hx.
  pose proof (increasing_snoc rows x seq Hinc Hbound Hx) as Hinc'.
  rewrite (order_by_increasing _ (increasing_filter p _ Hinc')).
  rewrite (order_by_increasing _ (increasing_filter p _ Hinc)).
  rewrite filter_app. simpl. destruct (p x); [reflexivity|apply app_nil_r].
Qed.

End Rows.

(** *** Linkage of a chain that grows at its end *)

Lemma fetch_last_snoc {R : Type} (rows : list R) (x : R) :
  fetch_last (rows ++ [x]) = Some x.
Proof.
  induction rows as [|r rest IH]; [reflexivity|].
  simpl. destruct (rest ++ [x]) eqn:E; [now destruct rest|exact IH].
Qed.

Lemma fetch_last_nth_error {R : Type} (rows : list R) (r : R) :
  nth_error rows (List.length rows - 1) = Some r -> fetch_last rows = Some r.
Proof.
  induction rows as [|x rows _] using rev_ind; [discriminate|].
  rewrite length_app, nth_error_app2 by (simpl; lia). simpl.
  replace (List.length rows + 1 - 1 - List.length rows)%nat with 0%nat by lia.
  simpl. intros [= ->]. apply fetch_last_snoc.
Qed.

Lemma linked_snoc {R : Type} (prev cur : R -> string) (chain : list R) (x : R) :
  linked prev cur chain ->
  prev x = match fetch_last chain with
           | Some r => cur r
           | None => sentinel
           end ->
  linked prev cur (chain ++ [x]).
Proof.
  intros [Hfirst Hnext] Hx. split.
  - intros r Hr. destruct chain as [|c rest].
    + simpl in Hr. injection Hr as <-. exact Hx.
    + apply Hfirst. exact Hr.
  - intros i r r' Hr Hr'.
    destruct (Nat.lt_ge_cases (S i) (List.length chain)) as [Hin|Hout].
    + rewrite nth_error_app1 in Hr, Hr' by lia. now apply (Hnext i).
    + assert (Hlen : S i = List.length chain).
      { assert (Hlt : (S i < List.length (chain ++ [x]))%nat)
          by (apply nth_error_Some; congruence).
        rewrite length_app in Hlt. simpl in Hlt. lia. }
      rewrite nth_error_app1 in Hr by lia.
      rewrite nth_error_app2 in Hr' by lia.
      replace (S i - List.length chain)%nat with 0%nat in Hr' by lia.
      injection Hr' as <-.
      replace i with (List.length chain - 1)%nat in Hr by lia.
      now rewrite (fetch_last_nth_error _ _ Hr) in Hx.
Qed.

(** *** The appends keep every chain linked *)

Example sentinel_evaluated :
  sentinel
  = "0000000000000000000000000000000000000000000000000000000000000000"%string
  /\ String.length sentinel = 64%nat.
Proof. split; reflexivity. Qed.

Example verify_fresh_tables (doctor_id : string) :
  verify_audit_trail init_database doctor_id = (true, None, []).
Proof. reflexivity. Qed.

Lemma init_database_ids_in_order : ids_in_order init_database.
Proof. repeat split; constructor. Qed.

Lemma linked_nil {R : Type} (prev cur : R -> string) : linked prev cur [].
Proof. split; [intros r H|intros [|i] r r' H]; discriminate. Qed.

Section WithPlatform.

Context {platform : Platform}.

Lemma init_database_chain_linkage : chain_linkage init_database.
Proof.
  split; [|split; [|split]].
  - intros d. apply linked_nil.
  - intros d. apply linked_nil.
  - intros r [].
  - intros r [].
Qed.

Lemma add_audit_entry_linkage (now : datetime) (doctor_id action details : string)
    (db : tables) :
  ids_in_order db -> chain_linkage db ->
  ids_in_order (fst (add_audit_entry now doctor_id action details db)) /\
  chain_linkage (fst (add_audit_entry now doctor_id action details db)).
Proof.
  intros Hids Hlink. unfold add_audit_entry.
  match goal with
  | |- context [insert_audit_ok ?r] => set (row := r); destruct (insert_audit_ok row)
  end; [|split; assumption].
  destruct Hids as (Hinc & Hbound & Hinc_logs & Hbound_logs).
  destruct Hlink as (Haudit & Hlogs & Hhash & Hhash_logs).
  simpl fst. split.
  - split; [|split; [|split]]; simpl; try assumption.
    + now apply (increasing_snoc audit_id _ row (audit_trail_id_seq db)).
    + now apply (bounded_snoc audit_id).
  - split; [|split; [|split]]; simpl; try assumption.
    + intros d. unfold select_audit; simpl.
      rewrite (select_snoc audit_id _ _ row (audit_trail_id_seq db) Hinc Hbound eq_refl).
      simpl. destruct (String.eqb_spec doctor_id d) as [<-|_].
      * apply linked_snoc; [apply Haudit|]. simpl.
        fold (select_audit db doctor_id).
        now destruct (fetch_last (select_audit db doctor_id)).
      * apply Haudit.
    + intros r Hr. apply in_app_or in Hr as [Hr|[<-|[]]]; [now apply Hhash|].
      reflexivity.
Qed.

Lemma add_temperature_log_linkage (now : datetime) (doctor_id device_id : string)
    (temperature : float) (vaccine_type location : string) (db : tables) :
  ids_in_order db -> chain_linkage db ->
  ids_in_order
    (fst (add_temperature_log now doctor_id device_id temperature
            vaccine_type location db)) /\
  chain_linkage
    (fst (add_temperature_log now doctor_id device_id temperature
            vaccine_type location db)).
Proof.
  intros Hids Hlink. unfold add_temperature_log.
  match goal with
  | |- context [insert_log_ok ?r] => set (row := r); destruct (insert_log_ok row)
  end; [|split; assumption].
  destruct Hids as (Hinc & Hbound & Hinc_logs & Hbound_logs).
  destruct Hlink as (Haudit & Hlogs & Hhash & Hhash_logs).
  simpl fst. split.
  - split; [|split; [|split]]; simpl; try assumption.
    + now apply (increasing_snoc log_id _ row (temperature_logs_id_seq db)).
    + now apply (bounded_snoc log_id).
  - split; [|split; [|split]]; simpl; try assumption.
    + intros d. unfold select_logs; simpl.
      rewrite (select_snoc log_id _ _ row (temperature_logs_id_seq db)
                 Hinc_logs Hbound_logs eq_refl).
      simpl. destruct (String.eqb_spec doctor_id d) as [<-|_].
      * apply linked_snoc; [apply Hlogs|]. simpl.
        fold (select_logs db doctor_id).
        now destruct (fetch_last (select_logs db doctor_id)).
      * apply Hlogs.
    + intros r Hr. apply in_app_or in Hr as [Hr|[<-|[]]]; [now apply Hhash_logs|].
      reflexivity.
Qed.


End WithPlatform.

(** *** Replaying a chain *)

Lemma verify_entries_extends (doctor_id : string) (entries : list audit_trail_row) :
  forall previous_hash acc ok bad results,
    verify_entries doctor_id entries previous_hash acc = (ok, bad, results) ->
    exists suffix, results = acc ++ suffix.
Proof.
  induction entries as [|e rest IH]; intros h acc ok bad results; cbn [verify_entries].
  - intros [= _ _ <-]. exists []. now rewrite app_nil_r.
  - destruct (negb (audit_previous_hash e =? h)%string).
    { intros [= _ _ <-]. exists []. now rewrite app_nil_r. }
    destruct (negb (Sha256.hexdigest (verify_data_string doctor_id e)
                    =? audit_current_hash e)%string).
    { intros [= _ _ <-]. exists []. now rewrite app_nil_r. }
    intros H. apply IH in H as [suffix ->].
    exists (valid_result e :: suffix). now rewrite <- app_assoc.
Qed.

(** A replay that succeeds has passed every record of a prefix; the replay
    of any list with that prefix continues after it in the same way. *)
Lemma verify_entries_prefix (doctor_id : string) (pre : list audit_trail_row) :
  forall rest previous_hash acc bad results,
    verify_entries doctor_id (pre ++ rest) previous_hash acc
      = (true, bad, results) ->
    exists h,
      verify_entries doctor_id rest h (acc ++ map valid_result pre)
        = (true, bad, results) /\
      forall rest',
        verify_entries doctor_id (pre ++ rest') previous_hash acc
        = verify_entries doctor_id rest' h (acc ++ map valid_result pre).
Proof.
  induction pre as [|e pre IH]; intros rest h acc bad results; cbn [verify_entries app map].
  - intros H. exists h. rewrite app_nil_r. split; [exact H|reflexivity].
  - destruct (negb (audit_previous_hash e =? h)%string); [discriminate|].
    destruct (negb (Sha256.hexdigest (verify_data_string doctor_id e)
                    =? audit_current_hash e)%string); [discriminate|].
    intros H. apply IH in H as (h' & Hrest & Hsame).
    exists h'. rewrite <- app_assoc in Hrest. cbn [app] in Hrest.
    split; [exact Hrest|]. intros rest'. rewrite Hsame, <- app_assoc.
    reflexivity.
Qed.

Lemma verify_entries_head (doctor_id : string) (e : audit_trail_row)
    (rest : list audit_trail_row) (h : string) (acc : list verification_result)
    (bad : option Z) (results : list verification_result) :
  verify_entries doctor_id (e :: rest) h acc = (true, bad, results) ->
  audit_previous_hash e = h /\
  Sha256.hexdigest (verify_data_string doctor_id e) = audit_current_hash e.
Proof.
  cbn [verify_entries].
  destruct (String.eqb_spec (audit_previous_hash e) h); [|discriminate].
  destruct (String.eqb_spec (Sha256.hexdigest (verify_data_string doctor_id e))
                            (audit_current_hash e)); [|discriminate].
  now split.
Qed.

Lemma verify_entries_mismatch (doctor_id : string) (e : audit_trail_row)
    (rest : list audit_trail_row) (h : string) (acc : list verification_result) :
  audit_previous_hash e = h ->
  Sha256.hexdigest (verify_data_string doctor_id e) <> audit_current_hash e ->
  verify_entries doctor_id (e :: rest) h acc = (false, Some (audit_id e), acc).
Proof.
  intros Hprev Hhash. cbn [verify_entries].
  apply String.eqb_eq in Hprev. apply String.eqb_neq in Hhash.
  now rewrite Hprev, Hhash.
Qed.

(** *** Editing a stored record *)

Lemma apply_edit_keeps (ed : edit) (r : audit_trail_row) :
  audit_id (apply_edit ed r) = audit_id r /\
  audit_doctor_id (apply_edit ed r) = audit_doctor_id r /\
  audit_previous_hash (apply_edit ed r) = audit_previous_hash r /\
  audit_current_hash (apply_edit ed r) = audit_current_hash r.
Proof. destruct ed; repeat split. Qed.

Lemma insert_by_map {R : Type} (key : R -> Z) (f : R -> R) (r : R) (rows : list R) :
  (forall x, key (f x) = key x) ->
  insert_by key (f r) (map f rows) = map f (insert_by key r rows).
Proof.
  intros Hkey. induction rows as [|x rest IH]; simpl; [reflexivity|].
  rewrite !Hkey. destruct (key r <? key x); simpl; [reflexivity|now rewrite IH].
Qed.

Lemma order_by_map {R : Type} (key : R -> Z) (f : R -> R) (rows : list R) :
  (forall x, key (f x) = key x) ->
  order_by key (map f rows) = map f (order_by key rows).
Proof.
  intros Hkey. unfold order_by.
  induction rows as [|x rest IH]; simpl; [reflexivity|].
  now rewrite IH, insert_by_map.
Qed.

Lemma filter_map_same {R : Type} (p : R -> bool) (f : R -> R) (rows : list R) :
  (forall x, p (f x) = p x) -> filter p (map f rows) = map f (filter p rows).
Proof.
  intros Hp. induction rows as [|x rest IH]; simpl; [reflexivity|].
  rewrite Hp. destruct (p x); simpl; now rewrite IH.
Qed.

(** The chain of a doctor after an edit of the row with the given id. *)
Lemma select_audit_update (id : Z) (ed : edit) (db : tables) (doctor_id : string) :
  select_audit (update_audit id (apply_edit ed) db) doctor_id =
  map (fun r => if audit_id r =? id then apply_edit ed r else r)
      (select_audit db doctor_id).
Proof.
  unfold select_audit, update_audit; simpl.
  rewrite filter_map_same, order_by_map; [reflexivity| |];
    intros x; destruct (audit_id x =? id); try reflexivity.
  - apply apply_edit_keeps.
  - now destruct (apply_edit_keeps ed x) as (_ & -> & _).
Qed.

Lemma increasing_app_distinct (keys_before keys_after : list Z) (k : Z) :
  increasing (keys_before ++ k :: keys_after) ->
  ~ In k keys_before /\ ~ In k keys_after.
Proof.
  induction keys_before as [|x rest IH]; simpl.
  - intros [Hlt _]. split; [tauto|]. intros Hin.
    rewrite Forall_forall in Hlt. specialize (Hlt k Hin). lia.
  - intros [Hlt Hrest]. destruct (IH Hrest) as [Hb Ha]. split; [|exact Ha].
    intros [->|Hin]; [|tauto].
    rewrite Forall_forall in Hlt.
    assert (Hk : In k (rest ++ k :: keys_after))
      by (apply in_or_app; right; now left).
    specialize (Hlt k Hk). lia.
Qed.

Lemma map_update_other (id : Z) (f : audit_trail_row -> audit_trail_row)
    (rows : list audit_trail_row) :
  ~ In id (map audit_id rows) ->
  map (fun r => if audit_id r =? id then f r else r) rows = rows.
Proof.
  induction rows as [|x rest IH]; simpl; [reflexivity|].
  intros Hnot. destruct (Z.eqb_spec (audit_id x) id) as [E|_]; [tauto|].
  rewrite IH; tauto.
Qed.

Lemma map_update_split (f : audit_trail_row -> audit_trail_row)
    (pre post : list audit_trail_row) (e : audit_trail_row) :
  increasing (map audit_id (pre ++ e :: post)) ->
  map (fun r => if audit_id r =? audit_id e then f r else r) (pre ++ e :: post)
  = pre ++ f e :: post.
Proof.
  rewrite map_app. simpl map at 1. intros Hinc.
  apply increasing_app_distinct in Hinc as [Hpre Hpost].
  rewrite map_app. simpl. rewrite Z.eqb_refl.
  now rewrite !map_update_other.
Qed.

(** An edit of one payload field changes the string that
    [verify_audit_trail] hashes. *)
Lemma edit_changes_data_string (doctor_id : string) (ed : edit) (e : audit_trail_row) :
  edit_changes ed e ->
  verify_data_string doctor_id (apply_edit ed e) <> verify_data_string doctor_id e.
Proof.
  unfold verify_data_string.
  destruct ed as [t|action|details];
    cbn [apply_edit set_timestamp set_action set_details edit_changes
         audit_timestamp audit_action audit_details audit_previous_hash];
    intros Hch H.
  - destruct Hch as (Ht & Ht' & Hne). apply DatetimeFacts.append_inv_tail in H.
    apply Hne. now apply DatetimeFacts.str_inj.
  - do 4 apply DatetimeFacts.append_inv_head in H.
    apply DatetimeFacts.append_inv_tail in H. now apply Hch.
  - do 6 apply DatetimeFacts.append_inv_head in H.
    apply DatetimeFacts.append_inv_tail in H. now apply Hch.
Qed.

(** C2 as the code has it.  Take a stored chain that verifies and a record
    at position [i] of it.  Replacing the timestamp, the action or the
    details of that record by a different value, hashes untouched, makes
    [verify_audit_trail] return [False] together with the database id of
    that record (the SERIAL id of its row, not its position in the chain)
    and exactly the [i] VALID results of the records before it, provided
    SHA-256 does not send the old and the new serialization of the record
    to the same digest. *)
Theorem tampering_is_located (db : tables) (doctor_id : string)
    (results : list verification_result) (i : nat) (e : audit_trail_row)
    (ed : edit) :
  increasing (map audit_id (audit_trail db)) ->
  verify_audit_trail db doctor_id = (true, None, results) ->
  nth_error (select_audit db doctor_id) i = Some e ->
  edit_changes ed e ->
  (Sha256.hexdigest (verify_data_string doctor_id (apply_edit ed e))
     = Sha256.hexdigest (verify_data_string doctor_id e) ->
   verify_data_string doctor_id (apply_edit ed e)
     = verify_data_string doctor_id e) ->
  verify_audit_trail (update_audit (audit_id e) (apply_edit ed) db) doctor_id
    = (false, Some (audit_id e), firstn i results) /\
  List.length (firstn i results) = i /\
  firstn i results = map valid_result (firstn i (select_audit db doctor_id)).
Proof.
  intros Hinc Hok Hnth Hedit Hcollision.
  unfold verify_audit_trail in *. rewrite select_audit_update.
  assert (Hchain : increasing (map audit_id (select_audit db doctor_id))).
  { unfold select_audit.
    rewrite (order_by_increasing _ _ (increasing_filter _ _ _ Hinc)).
    now apply increasing_filter. }
  destruct (nth_error_split _ _ Hnth) as (pre & post & Hsplit & Hlen).
  rewrite Hsplit in *. clear Hsplit.
  rewrite (map_update_split _ _ _ _ Hchain).
  destruct (verify_entries_prefix _ _ _ _ _ _ _ Hok) as (h & Hrest & Hsame).
  rewrite Hsame. simpl app in *.
  destruct (verify_entries_head _ _ _ _ _ _ _ Hrest) as [Hprev Hhash].
  destruct (verify_entries_extends _ _ _ _ _ _ _ Hrest) as [suffix ->].
  assert (Hfirst : firstn i (map valid_result pre ++ suffix) = map valid_result pre).
  { rewrite <- Hlen, <- (length_map valid_result pre).
    rewrite firstn_app, firstn_all, Nat.sub_diag. simpl. apply app_nil_r. }
  rewrite Hfirst.
  destruct (apply_edit_keeps ed e) as (Hid & _ & Hp & Hc).
  split; [|split].
  - rewrite <- Hid. apply verify_entries_mismatch.
    + now rewrite Hp.
    + rewrite Hc, <- Hhash. intros Heq.
      now apply (edit_changes_data_string doctor_id ed e Hedit), Hcollision.
  - now rewrite length_map.
  - rewrite <- Hlen, firstn_app, firstn_all, Nat.sub_diag. simpl.
    now rewrite app_nil_r.
Qed.

Lemma tampering_is_located_logout :
  increasing (map audit_id (audit_trail stored_tables)) /\
  verify_audit_trail stored_tables "DOC001"
    = (true, None, [valid_result stored_login; valid_result stored_logout]) /\
  nth_error (select_audit stored_tables "DOC001") 1 = Some stored_logout /\
  edit_changes (EditAction "DELETE_RECORDS") stored_logout /\
  verify_audit_trail
    (update_audit (audit_id stored_logout)
       (apply_edit (EditAction "DELETE_RECORDS")) stored_tables) "DOC001"
    = (false, Some (audit_id stored_logout),
       firstn 1 [valid_result stored_login; valid_result stored_logout]) /\
  List.length (firstn 1 [valid_result stored_login; valid_result stored_logout])
    = 1%nat /\
  firstn 1 [valid_result stored_login; valid_result stored_logout]
    = map valid_result (firstn 1 (select_audit stored_tables "DOC001")).
Proof.
  assert (Hinc : increasing (map audit_id (audit_trail stored_tables))).
  { simpl. repeat split; repeat constructor. }
  assert (Hok : verify_audit_trail stored_tables "DOC001"
                = (true, None, [valid_result stored_login; valid_result stored_logout])).
  { vm_compute. reflexivity. }
  assert (Hnth : nth_error (select_audit stored_tables "DOC001") 1 = Some stored_logout).
  { vm_compute. reflexivity. }
  assert (Hedit : edit_changes (EditAction "DELETE_RECORDS") stored_logout).
  { simpl. discriminate. }
  split; [exact Hinc|]. split; [exact Hok|]. split; [exact Hnth|].
  split; [exact Hedit|].
  apply (tampering_is_located stored_tables "DOC001" _ 1 stored_logout
           (EditAction "DELETE_RECORDS") Hinc Hok Hnth Hedit).
  intros H. vm_compute in H. discriminate H.
Defined.

(** C2 as the specification states it fails.  The record edited sits at
    position 1 of the chain of DOC001 (the second of two records), and the
    value reported is 7, the id of its row.  Moreover, when the field
    edited is [doctor_id], the record leaves the chain: the chain of
    DOC001 then verifies, one record short. *)
Lemma tampered_record_reported_by_row_id :
  List.length (select_audit stored_tables "DOC001") = 2%nat /\
  nth_error (select_audit stored_tables "DOC001") 1 = Some stored_logout /\
  verify_audit_trail
    (update_audit (audit_id stored_logout)
       (apply_edit (EditAction "DELETE_RECORDS")) stored_tables) "DOC001"
    = (false, Some 7, [valid_result stored_login]) /\
  Some 7 <> Some 1 /\ Some 7 <> Some 2 /\
  verify_audit_trail
    (update_audit (audit_id stored_logout) (set_doctor_id "DOC002") stored_tables)
    "DOC001"
    = (true, None, [valid_result stored_login]).
Proof.
  split; [reflexivity|]. split; [vm_compute; reflexivity|].
  split; [vm_compute; reflexivity|]. split; [discriminate|].
  split; [discriminate|]. vm_compute; reflexivity.
Qed.

(** *** Appending and then verifying *)

(** C1.  The round trip fails on the code.  One call of [add_audit_entry]
    on the fresh tables commits a record whose hash was taken over the
    timestamp printed with ['T'], and [verify_audit_trail], which prints
    the stored timestamp with a space, recomputes another digest and
    reports that record as bad: [(False, 1, [])] instead of
    [(True, None, [one VALID result])]. *)
Theorem append_then_verify_rejects :
  snd (add_audit_entry (platform := demo_platform) morning "DOC001" "LOGIN"
         "Doctor logged in successfully" init_database)
    = Returned "3bbf68b885fc772e6262301fd792aaeb44d457a7d72c4d07d52a13c021b4e357"%string /\
  map (fun r => (audit_data_string r, verify_data_string "DOC001" r))
    (select_audit
       (fst (add_audit_entry (platform := demo_platform) morning "DOC001" "LOGIN"
               "Doctor logged in successfully" init_database)) "DOC001")
    = [(("2024-01-15T10:30:00.123456|DOC001|LOGIN|Doctor logged in successfully|"
         ++ sentinel)%string,
        ("2024-01-15 10:30:00.123456|DOC001|LOGIN|Doctor logged in successfully|"
         ++ sentinel)%string)] /\
  Sha256.hexdigest
    ("2024-01-15 10:30:00.123456|DOC001|LOGIN|Doctor logged in successfully|"
     ++ sentinel)
    = "72c6c83ea23a94e16014d62a24b3ba14e48dd95cdb89ad88c2a26cc3bab21528"%string /\
  verify_audit_trail
    (fst (add_audit_entry (platform := demo_platform) morning "DOC001" "LOGIN"
            "Doctor logged in successfully" init_database)) "DOC001"
    = (false, Some 1, []).
Proof. repeat split; vm_compute; reflexivity. Qed.

Section WithPlatformAgain.

Context {platform : Platform}.

(** The same happens for the first record of any doctor, whatever the
    arguments, unless SHA-256 sends the two renderings of the record to
    one digest. *)
Lemma first_append_never_verifies (now : datetime)
    (doctor_id action details : string) (db : tables) :
  ids_in_order db ->
  select_audit db doctor_id = [] ->
  snd (add_audit_entry now doctor_id action details db) <> Raised ->
  (Sha256.hexdigest (str now ++ "|" ++ doctor_id ++ "|" ++ action ++ "|" ++
                     details ++ "|" ++ sentinel)
   = Sha256.hexdigest (isoformat_T now ++ "|" ++ doctor_id ++ "|" ++ action ++
                       "|" ++ details ++ "|" ++ sentinel) ->
   str now ++ "|" ++ doctor_id ++ "|" ++ action ++ "|" ++ details ++ "|" ++
     sentinel
   = isoformat_T now ++ "|" ++ doctor_id ++ "|" ++ action ++ "|" ++ details ++
     "|" ++ sentinel)%string ->
  verify_audit_trail (fst (add_audit_entry now doctor_id action details db))
                     doctor_id
  = (false, Some (audit_trail_id_seq db + 1), []).
Proof.
  intros (Hinc & Hbound & _) Hempty Hcommit Hcollision.
  unfold add_audit_entry in *. rewrite Hempty in *. cbn [fetch_last] in *.
  match goal with
  | |- context [insert_audit_ok ?r] =>
      destruct (insert_audit_ok r); [|now elim Hcommit]
  end.
  cbn [fst]. unfold verify_audit_trail, select_audit. cbn [audit_trail].
  match goal with
  | |- context [audit_trail db ++ [?r]] =>
      rewrite (select_snoc audit_id _ _ r (audit_trail_id_seq db) Hinc Hbound eq_refl)
  end.
  cbn [audit_doctor_id]. rewrite String.eqb_refl.
  fold (select_audit db doctor_id). rewrite Hempty. cbn [app].
  apply verify_entries_mismatch; [reflexivity|].
  unfold verify_data_string.
  cbn [audit_timestamp audit_action audit_details audit_previous_hash
       audit_current_hash].
  intros Heq. apply Hcollision in Heq.
  apply DatetimeFacts.append_inv_tail in Heq.
  exact (DatetimeFacts.isoformat_T_is_not_str now (eq_sym Heq)).
Qed.

(** Every table reached from the fresh ones by appends is linked. *)
Lemma run_linkage (calls : list append_call) :
  ids_in_order (run calls) /\ chain_linkage (run calls).
Proof.
  unfold run.
  induction calls as [|c calls IH] using rev_ind.
  - split; [exact init_database_ids_in_order|exact init_database_chain_linkage].
  - rewrite fold_left_app. cbn [fold_left]. destruct IH as [Hids Hlink].
    destruct c; cbn [call].
    + now apply add_audit_entry_linkage.
    + now apply add_temperature_log_linkage.
Qed.

End WithPlatformAgain.


(** The two records of DOC001 after a login and a logout, as stored. *)
Example linked_chain_evaluated :
  map (fun r => (audit_id r, audit_previous_hash r, audit_current_hash r))
      (select_audit
         (run (platform := demo_platform)
            [AuditEntry morning "DOC001" "LOGIN" "Doctor logged in successfully";
             AuditEntry evening "DOC001" "LOGOUT" "Doctor logged out"])
         "DOC001")
  = [(1, sentinel,
      "3bbf68b885fc772e6262301fd792aaeb44d457a7d72c4d07d52a13c021b4e357"%string);
     (2, "3bbf68b885fc772e6262301fd792aaeb44d457a7d72c4d07d52a13c021b4e357"%string,
      Sha256.hexdigest
        ("2024-01-15T18:05:12|DOC001|LOGOUT|Doctor logged out|" ++
         "3bbf68b885fc772e6262301fd792aaeb44d457a7d72c4d07d52a13c021b4e357"))].
Proof. vm_compute. reflexivity. Qed.

End DatabaseFacts.

(* ================================================================== *)
(** ** More facts about the classifier and the forecast *)
(* ================================================================== *)

Module PredictorMore.

Import Predictor PredictorFacts Thresholds.

(** *** What an alert says *)

Lemma first_index_unique (P : float -> bool) (l : list float) (j k : nat) :
  first_index P l j -> first_index P l k -> j = k.
Proof.
  intros [(v & Hv & HPv) Hj] [(w & Hw & HPw) Hk].
  destruct (Nat.lt_trichotomy j k) as [Hlt|[Heq|Hgt]]; [|exact Heq|].
  - rewrite (Hk j v Hlt Hv) in HPv. discriminate.
  - rewrite (Hj k w Hgt Hw) in HPw. discriminate.
Qed.

Lemma np_where_map_first (P : float -> bool) (l : list float) (k : nat) :
  first_index P l k -> exists rest, np_where (map P l) = Z.of_nat k :: rest.
Proof.
  intros Hk. pose proof Hk as [(v & Hv & HPv) _].
  destruct (exceeding_value_found P l k v Hv HPv) as (first & rest & Hw).
  destruct (np_where_map_head P l first rest Hw) as (j & -> & Hj).
  exists rest. now rewrite (first_index_unique P l j k Hj Hk) in Hw.
Qed.

Lemma first_index_value (P : float -> bool) (l : list float) (k : nat) :
  first_index P l k -> exists v, nth_error l k = Some v /\ P v = true.
Proof. now intros [H _]. Qed.

(** Every alert names a forecast value: the minutes returned are those of
    an index of the forecast, and the value there lies strictly beyond the
    breach threshold or the warning threshold of the side reported. *)
Theorem alert_points_at_a_value (self : TemperaturePredictor)
    (predictions : option (list float)) (current_temp : float) :
  check_breach_risk self predictions current_temp = no_alert \/
  exists (a : alert_type) (s : severity) (k : nat) (v : float) (l : list float),
    predictions = Some l /\ nth_error l k = Some v /\
    check_breach_risk self predictions current_temp
      = (Some a, Some s, Some ((Z.of_nat k + 1) * sample_interval self)) /\
    match a with
    | HIGH_TEMP =>
        PrimFloat.ltb (safe_max self) v = true \/
        PrimFloat.ltb (PrimFloat.sub (safe_max self) 0.5) v = true
    | LOW_TEMP =>
        PrimFloat.ltb v (safe_min self) = true \/
        PrimFloat.ltb v (PrimFloat.add (safe_min self) 0.5) = true
    end.
Proof.
  destruct predictions as [l|]; [|now left].
  unfold check_breach_risk.
  destruct (upper_breach_indices self l) as [|i1 r1] eqn:H1.
  2:{ right. destruct (np_where_map_head _ _ _ _ H1) as (k & -> & Hk).
      destruct (first_index_value _ _ _ Hk) as (v & Hv & HP).
      exists HIGH_TEMP, (breach_severity ((Z.of_nat k + 1) * sample_interval self)),
        k, v, l. repeat split; auto. }
  destruct (lower_breach_indices self l) as [|i2 r2] eqn:H2.
  2:{ right. destruct (np_where_map_head _ _ _ _ H2) as (k & -> & Hk).
      destruct (first_index_value _ _ _ Hk) as (v & Hv & HP).
      exists LOW_TEMP, (breach_severity ((Z.of_nat k + 1) * sample_interval self)),
        k, v, l. repeat split; auto. }
  assert (Hlow :
    match lower_warning_indices self l with
    | [] => no_alert
    | first_warning_idx :: _ =>
        if (first_warning_idx + 1) * sample_interval self <=? 120
        then (Some LOW_TEMP, Some WARNING,
              Some ((first_warning_idx + 1) * sample_interval self))
        else no_alert
    end = no_alert \/
    exists (k : nat) (v : float),
      nth_error l k = Some v /\
      match lower_warning_indices self l with
      | [] => no_alert
      | first_warning_idx :: _ =>
          if (first_warning_idx + 1) * sample_interval self <=? 120
          then (Some LOW_TEMP, Some WARNING,
                Some ((first_warning_idx + 1) * sample_interval self))
          else no_alert
      end = (Some LOW_TEMP, Some WARNING,
             Some ((Z.of_nat k + 1) * sample_interval self)) /\
      PrimFloat.ltb v (PrimFloat.add (safe_min self) 0.5) = true).
  { destruct (lower_warning_indices self l) as [|i4 r4] eqn:H4; [now left|].
    destruct (np_where_map_head _ _ _ _ H4) as (k & -> & Hk).
    destruct (first_index_value _ _ _ Hk) as (v & Hv & HP).
    destruct ((Z.of_nat k + 1) * sample_interval self <=? 120); [|now left].
    right. exists k, v. auto. }
  assert (Hfinish :
    forall r : option alert_type * option severity * option Z,
      (r = no_alert \/
       exists (k : nat) (v : float),
         nth_error l k = Some v /\
         r = (Some LOW_TEMP, Some WARNING,
              Some ((Z.of_nat k + 1) * sample_interval self)) /\
         PrimFloat.ltb v (PrimFloat.add (safe_min self) 0.5) = true) ->
      r = no_alert \/
      exists (a : alert_type) (s : severity) (k : nat) (v : float) (l' : list float),
        Some l = Some l' /\ nth_error l' k = Some v /\
        r = (Some a, Some s, Some ((Z.of_nat k + 1) * sample_interval self)) /\
        match a with
        | HIGH_TEMP =>
            PrimFloat.ltb (safe_max self) v = true \/
            PrimFloat.ltb (PrimFloat.sub (safe_max self) 0.5) v = true
        | LOW_TEMP =>
            PrimFloat.ltb v (safe_min self) = true \/
            PrimFloat.ltb v (PrimFloat.add (safe_min self) 0.5) = true
        end).
  { intros r [Hr|(k & v & Hv & Hr & HP)]; [now left|right].
    exists LOW_TEMP, WARNING, k, v, l. repeat split; auto. }
  destruct (upper_warning_indices self l) as [|i3 r3] eqn:H3;
    [now apply Hfinish|].
  destruct (np_where_map_head _ _ _ _ H3) as (k & -> & Hk).
  destruct (first_index_value _ _ _ Hk) as (v & Hv & HP).
  destruct ((Z.of_nat k + 1) * sample_interval self <=? 120);
    [|now apply Hfinish].
  right. exists HIGH_TEMP, WARNING, k, v, l. repeat split; auto.
Qed.

(** *** The decision taken by the classifier *)

Lemma np_where_head_or_nowhere (P : float -> bool) (l : list float) :
  (np_where (map P l) = [] /\ nowhere P l) \/
  (exists k rest, np_where (map P l) = Z.of_nat k :: rest /\ first_index P l k).
Proof.
  destruct (np_where (map P l)) as [|i r] eqn:H.
  - left. split; [reflexivity|]. exact (proj1 (np_where_map_nil P l) H).
  - right. destruct (np_where_map_head _ _ _ _ H) as (k & -> & Hk).
    now exists k, r.
Qed.

Lemma nowhere_no_first (P : float -> bool) (l : list float) (k : nat) :
  nowhere P l -> ~ first_index P l k.
Proof.
  intros Hno [(v & Hv & HP) _].
  rewrite (Hno v (nth_error_In _ _ Hv)) in HP. discriminate.
Qed.

(** The five ways [check_breach_risk] can answer, each with the condition
    under which it does. *)
Lemma check_breach_risk_cases (self : TemperaturePredictor)
    (l : list float) (current_temp : float) :
  let i := sample_interval self in
  let result := check_breach_risk self (Some l) current_temp in
  (exists k, first_index (above_max self) l k /\
     result = (Some HIGH_TEMP, Some (breach_severity ((Z.of_nat k + 1) * i)),
               Some ((Z.of_nat k + 1) * i))) \/
  (nowhere (above_max self) l /\
   exists k, first_index (below_min self) l k /\
     result = (Some LOW_TEMP, Some (breach_severity ((Z.of_nat k + 1) * i)),
               Some ((Z.of_nat k + 1) * i))) \/
  (nowhere (above_max self) l /\ nowhere (below_min self) l /\
   exists k, first_index (above_upper_margin self) l k /\
     (Z.of_nat k + 1) * i <= 120 /\
     result = (Some HIGH_TEMP, Some WARNING, Some ((Z.of_nat k + 1) * i))) \/
  (nowhere (above_max self) l /\ nowhere (below_min self) l /\
   not_within_two_hours self (above_upper_margin self) l /\
   exists k, first_index (below_lower_margin self) l k /\
     (Z.of_nat k + 1) * i <= 120 /\
     result = (Some LOW_TEMP, Some WARNING, Some ((Z.of_nat k + 1) * i))) \/
  (nowhere (above_max self) l /\ nowhere (below_min self) l /\
   not_within_two_hours self (above_upper_margin self) l /\
   not_within_two_hours self (below_lower_margin self) l /\
   result = no_alert).
Proof.
  intros i result. subst i result. unfold check_breach_risk.
  unfold upper_breach_indices, lower_breach_indices, upper_warning_indices,
    lower_warning_indices.
  fold (above_max self) (below_min self) (above_upper_margin self)
    (below_lower_margin self).
  change (fun p : float => PrimFloat.ltb (safe_max self) p) with (above_max self).
  change (fun p : float => PrimFloat.ltb p (safe_min self)) with (below_min self).
  change (fun p : float => PrimFloat.ltb (PrimFloat.sub (safe_max self) 0.5) p)
    with (above_upper_margin self).
  change (fun p : float => PrimFloat.ltb p (PrimFloat.add (safe_min self) 0.5))
    with (below_lower_margin self).
  destruct (np_where_head_or_nowhere (above_max self) l)
    as [[-> Hub]|(k & r & -> & Hk)]; [|left; now exists k].
  right.
  destruct (np_where_head_or_nowhere (below_min self) l)
    as [[-> Hlb]|(k & r & -> & Hk)]; [|left; split; [exact Hub|now exists k]].
  right.
  assert (Hlate : forall P k rest,
            np_where (map P l) = Z.of_nat k :: rest ->
            120 < (Z.of_nat k + 1) * sample_interval self ->
            not_within_two_hours self P l).
  { intros P k rest Hw Hgt j Hj.
    destruct (np_where_map_first P l j Hj) as [rest' Hw'].
    rewrite Hw in Hw'. injection Hw' as Hjk _.
    apply Nat2Z.inj in Hjk. now subst j. }
  assert (Hnone : forall P, nowhere P l -> not_within_two_hours self P l).
  { intros P Hno j Hj. now apply nowhere_no_first in Hj. }
  destruct (np_where_head_or_nowhere (above_upper_margin self) l)
    as [[-> Huw]|(k & r & Hw & Hk)].
  - right.
    destruct (np_where_head_or_nowhere (below_lower_margin self) l)
      as [[-> Hlw]|(j & r' & Hw' & Hj)].
    + right. repeat split; auto.
    + rewrite Hw'.
      destruct (Z.leb_spec ((Z.of_nat j + 1) * sample_interval self) 120).
      * left. repeat split; auto. now exists j.
      * right. repeat split; auto. now apply (Hlate _ j r').
  - rewrite Hw.
    destruct (Z.leb_spec ((Z.of_nat k + 1) * sample_interval self) 120).
    + left. repeat split; auto. now exists k.
    + right. pose proof (Hlate _ k r Hw H) as Hup.
      destruct (np_where_head_or_nowhere (below_lower_margin self) l)
        as [[-> Hlw]|(j & r' & Hw' & Hj)].
      * right. repeat split; auto.
      * rewrite Hw'.
        destruct (Z.leb_spec ((Z.of_nat j + 1) * sample_interval self) 120).
        -- left. repeat split; auto. now exists j.
        -- right. repeat split; auto. now apply (Hlate _ j r').
Qed.

Lemma breach_severity_critical (m : Z) : breach_severity m = CRITICAL <-> m <= 60.
Proof.
  unfold breach_severity. destruct (Z.leb_spec m 60); split; intros;
    try reflexivity; try discriminate; lia.
Qed.

(** A CRITICAL alert always stands for a forecast value strictly outside
    the safe range at most 60 minutes ahead, on the side the alert names;
    and a WARNING at most 60 minutes ahead is never an actual breach: no
    value of the forecast is outside the safe range then. *)
Theorem critical_is_a_breach_within_the_hour (smin smax : float)
    (l : list float) (current_temp : float) (a : alert_type) (s : severity) (m : Z) :
  check_breach_risk (init smin smax) (Some l) current_temp = (Some a, Some s, Some m) ->
  (s = CRITICAL ->
   exists (k : nat) (v : float),
     nth_error l k = Some v /\ m = (Z.of_nat k + 1) * 5 /\ m <= 60 /\
     match a with
     | HIGH_TEMP => PrimFloat.ltb smax v = true
     | LOW_TEMP => PrimFloat.ltb v smin = true
     end) /\
  (s = WARNING -> m <= 60 ->
   forall w, In w l -> PrimFloat.ltb smax w = false /\ PrimFloat.ltb w smin = false).
Proof.
  intros Hres.
  destruct (check_breach_risk_cases (init smin smax) l current_temp)
    as [(k & Hk & H)|[(Hub & k & Hk & H)|[(Hub & Hlb & k & Hk & Hle & H)|
        [(Hub & Hlb & Hup & k & Hk & Hle & H)|(Hub & Hlb & Hup & Hlo & H)]]]];
    cbn [sample_interval init] in H; rewrite Hres in H;
    try discriminate; injection H as -> Hs ->.
  - split.
    + intros ->. destruct (first_index_value _ _ _ Hk) as (v & Hv & HP).
      exists k, v. repeat split; auto.
      now apply breach_severity_critical.
    + intros -> Hm. symmetry in Hs.
      assert (breach_severity ((Z.of_nat k + 1) * 5) = CRITICAL)
        by now apply breach_severity_critical.
      congruence.
  - split.
    + intros ->. destruct (first_index_value _ _ _ Hk) as (v & Hv & HP).
      exists k, v. repeat split; auto.
      now apply breach_severity_critical.
    + intros -> Hm. symmetry in Hs.
      assert (breach_severity ((Z.of_nat k + 1) * 5) = CRITICAL)
        by now apply breach_severity_critical.
      congruence.
  - subst s. split; [discriminate|]. intros _ _ w Hw.
    split; [exact (Hub w Hw)|exact (Hlb w Hw)].
  - subst s. split; [discriminate|]. intros _ _ w Hw.
    split; [exact (Hub w Hw)|exact (Hlb w Hw)].
Qed.

Lemma critical_is_a_breach_within_the_hour_at_index_11 :
  check_breach_risk (init 2 8) (Some (repeat 5 11 ++ [8.5])%float) 5
    = (Some HIGH_TEMP, Some CRITICAL, Some 60) /\
  exists (k : nat) (v : float),
    nth_error (repeat 5 11 ++ [8.5])%float k = Some v /\
    60 = (Z.of_nat k + 1) * 5 /\ 60 <= 60 /\ PrimFloat.ltb 8 v = true.
Proof.
  split; [reflexivity|].
  destruct (critical_is_a_breach_within_the_hour 2 8
              (repeat 5 11 ++ [8.5])%float 5 HIGH_TEMP CRITICAL 60 eq_refl)
    as [Hcritical _].
  exact (Hcritical eq_refl).
Defined.

(** The warning tier.  When no value is outside the safe range, a value
    strictly above [safe_max - 0.5] whose first occurrence is at most 120
    minutes ahead gives HIGH_TEMP/WARNING with the minutes of that
    occurrence, whatever the lower side shows; LOW_TEMP/WARNING is given
    only when the upper side shows nothing within 120 minutes. *)
Theorem warning_tier (self : TemperaturePredictor) (l : list float)
    (current_temp : float) (k : nat) :
  nowhere (above_max self) l -> nowhere (below_min self) l ->
  (Z.of_nat k + 1) * sample_interval self <= 120 ->
  (first_index (above_upper_margin self) l k ->
   check_breach_risk self (Some l) current_temp
     = (Some HIGH_TEMP, Some WARNING,
        Some ((Z.of_nat k + 1) * sample_interval self))) /\
  (not_within_two_hours self (above_upper_margin self) l ->
   first_index (below_lower_margin self) l k ->
   check_breach_risk self (Some l) current_temp
     = (Some LOW_TEMP, Some WARNING,
        Some ((Z.of_nat k + 1) * sample_interval self))).
Proof.
  intros Hub Hlb Hle.
  destruct (check_breach_risk_cases self l current_temp)
    as [(j & Hj & H)|[(_ & j & Hj & H)|[(_ & _ & j & Hj & Hjle & H)|
        [(_ & _ & Hup & j & Hj & Hjle & H)|(_ & _ & Hup & Hlo & H)]]]];
    cbn zeta in *.
  - now apply nowhere_no_first in Hj.
  - now apply nowhere_no_first in Hj.
  - split.
    + intros Hk. now rewrite (first_index_unique _ _ _ _ Hk Hj).
    + intros Hlate _. specialize (Hlate j Hj). lia.
  - split.
    + intros Hk. specialize (Hup k Hk). lia.
    + intros _ Hk. now rewrite (first_index_unique _ _ _ _ Hk Hj).
  - split.
    + intros Hk. specialize (Hup k Hk). lia.
    + intros _ Hk. specialize (Hlo k Hk). lia.
Qed.

Lemma warning_tier_upper_first :
  nowhere (above_max default_predictor) [5; 2.3; 7.8; 5]%float /\
  nowhere (below_min default_predictor) [5; 2.3; 7.8; 5]%float /\
  (Z.of_nat 2 + 1) * sample_interval default_predictor <= 120 /\
  first_index (above_upper_margin default_predictor) [5; 2.3; 7.8; 5]%float 2 /\
  check_breach_risk default_predictor (Some [5; 2.3; 7.8; 5]%float) 5
    = (Some HIGH_TEMP, Some WARNING,
       Some ((Z.of_nat 2 + 1) * sample_interval default_predictor)).
Proof.
  assert (Hub : nowhere (above_max default_predictor) [5; 2.3; 7.8; 5]%float).
  { intros w [<-|[<-|[<-|[<-|[]]]]]; reflexivity. }
  assert (Hlb : nowhere (below_min default_predictor) [5; 2.3; 7.8; 5]%float).
  { intros w [<-|[<-|[<-|[<-|[]]]]]; reflexivity. }
  assert (Hle : (Z.of_nat 2 + 1) * sample_interval default_predictor <= 120)
    by (simpl; lia).
  assert (Hk : first_index (above_upper_margin default_predictor)
                 [5; 2.3; 7.8; 5]%float 2).
  { split; [exists 7.8%float; split; reflexivity|].
    intros [|[|j]] w Hj Hw; try lia; injection Hw as <-; reflexivity. }
  split; [exact Hub|]. split; [exact Hlb|]. split; [exact Hle|].
  split; [exact Hk|].
  destruct (warning_tier default_predictor [5; 2.3; 7.8; 5]%float 5 2 Hub Hlb Hle)
    as [Hupper _].
  exact (Hupper Hk).
Defined.

Lemma not_within_two_hours_init (smin smax : float) (P : float -> bool)
    (l : list float) :
  not_within_two_hours (init smin smax) P l <->
  (forall k v, (k < 24)%nat -> nth_error l k = Some v -> P v = false).
Proof.
  unfold not_within_two_hours. cbn [sample_interval init]. split.
  - intros Hlate k v Hk Hv.
    destruct (P v) eqn:HP; [|reflexivity].
    destruct (exceeding_value_found P l k v Hv HP) as (first & rest & Hw).
    destruct (np_where_map_head P l first rest Hw) as (j & -> & Hj).
    pose proof (first_index_le P l j k v Hj Hv HP).
    specialize (Hlate j Hj). lia.
  - intros Hearly k Hk. destruct (first_index_value _ _ _ Hk) as (v & Hv & HP).
    destruct (Nat.lt_ge_cases k 24) as [Hlt|Hge]; [|lia].
    rewrite (Hearly k v Hlt Hv) in HP. discriminate.
Qed.

Lemma no_alert_characterised (smin smax : float) (l : list float)
    (current_temp : float) :
  check_breach_risk (init smin smax) (Some l) current_temp = no_alert <->
  (forall v, In v l ->
     PrimFloat.ltb smax v = false /\ PrimFloat.ltb v smin = false) /\
  (forall k v, (k < 24)%nat -> nth_error l k = Some v ->
     PrimFloat.ltb (PrimFloat.sub smax 0.5) v = false /\
     PrimFloat.ltb v (PrimFloat.add smin 0.5) = false).
Proof.
  pose proof (not_within_two_hours_init smin smax
                (above_upper_margin (init smin smax)) l) as Hupper.
  pose proof (not_within_two_hours_init smin smax
                (below_lower_margin (init smin smax)) l) as Hlower.
  destruct (check_breach_risk_cases (init smin smax) l current_temp)
    as [(j & Hj & H)|[(Hub & j & Hj & H)|[(Hub & Hlb & j & Hj & Hjle & H)|
        [(Hub & Hlb & Hup & j & Hj & Hjle & H)|(Hub & Hlb & Hup & Hlo & H)]]]];
    cbn zeta in H; rewrite H; split; try discriminate.
  - intros [Hsafe _]. destruct (first_index_value _ _ _ Hj) as (v & Hv & HP).
    destruct (Hsafe v (nth_error_In _ _ Hv)) as [Hn _].
    unfold above_max in HP. cbn [safe_max init] in HP. congruence.
  - intros [Hsafe _]. destruct (first_index_value _ _ _ Hj) as (v & Hv & HP).
    destruct (Hsafe v (nth_error_In _ _ Hv)) as [_ Hn].
    unfold below_min in HP. cbn [safe_min init] in HP. congruence.
  - intros [_ Hmargin].
    assert (Hlate : not_within_two_hours (init smin smax)
                      (above_upper_margin (init smin smax)) l).
    { apply Hupper. intros k v Hk Hv. now apply (Hmargin k v). }
    specialize (Hlate j Hj). lia.
  - intros [_ Hmargin].
    assert (Hlate : not_within_two_hours (init smin smax)
                      (below_lower_margin (init smin smax)) l).
    { apply Hlower. intros k v Hk Hv. now apply (Hmargin k v). }
    specialize (Hlate j Hj). lia.
  - intros _. split.
    + intros v Hv. split; [exact (Hub v Hv)|exact (Hlb v Hv)].
    + intros k v Hk Hv. split.
      * exact (proj1 Hupper Hup k v Hk Hv).
      * exact (proj1 Hlower Hlo k v Hk Hv).
  - reflexivity.
Qed.

(** When there is no alert.  For a predictor built by [__init__], the
    classifier answers [(None, None, None)] exactly when no value of the
    forecast is strictly outside the safe range and none of its first 24
    values (the next 120 minutes) is strictly inside a warning margin.
    Values after the 24th are looked at for breaches only. *)
Theorem no_alert_exactly_when (smin smax : float) (l : list float)
    (current_temp : float) :
  check_breach_risk (init smin smax) (Some l) current_temp = no_alert <->
  (forall v, In v l ->
     PrimFloat.ltb smax v = false /\ PrimFloat.ltb v smin = false) /\
  (forall k v, (k < 24)%nat -> nth_error l k = Some v ->
     PrimFloat.ltb (PrimFloat.sub smax 0.5) v = false /\
     PrimFloat.ltb v (PrimFloat.add smin 0.5) = false).
Proof. exact (no_alert_characterised smin smax l current_temp). Qed.

(** *** Feature rows and targets *)

Section WithNumerics.

Context {numerics : Numerics}.

(** The training set built by [create_features] and [series.iloc[lags:]]:
    one feature row per target, six features per row; row [j] is built
    from the [lags] values [series[j .. j+lags-1]] and its target is the
    next value [series[j+lags]], so no row sees its own target. *)
Theorem training_rows_precede_their_targets (series : list float) (lags : nat) :
  List.length (create_features series lags)
    = (List.length series - lags)%nat /\
  List.length (skipn lags series) = (List.length series - lags)%nat /\
  (forall row, In row (create_features series lags) -> List.length row = 6%nat) /\
  (forall j, (j < List.length series - lags)%nat ->
     nth_error (create_features series lags) j
       = Some (feature_row (firstn lags (skipn j series)) lags) /\
     nth_error (skipn lags series) j = nth_error series (lags + j)).
Proof.
  unfold create_features, range. split; [|split; [|split]].
  - now rewrite length_map, length_seq.
  - apply length_skipn.
  - intros row Hrow. apply in_map_iff in Hrow as (i & <- & _). reflexivity.
  - intros j Hj. split.
    + rewrite nth_error_map, nth_error_seq by exact Hj. cbn [option_map].
      unfold slice.
      replace (lags + j - (lags + j - lags))%nat with lags by lia.
      replace (lags + j - lags)%nat with j by lia.
      reflexivity.
    + apply nth_error_skipn.
Qed.

(** *** The projection loop *)

Lemma project_accumulates (clk : clock) (model : ridge_model) (lags : nat) :
  forall steps tick current_window predictions,
    project clk model lags steps tick current_window predictions
    = (predictions ++ fst (project clk model lags steps tick current_window []),
       (tick + steps)%nat).
Proof.
  intros steps.
  induction steps as [|steps IH]; intros tick w predictions; cbn [project].
  - rewrite app_nil_r. f_equal. lia.
  - rewrite IH. rewrite (IH (S tick) _ ([] ++ _)). cbn [fst app].
    rewrite <- app_assoc. cbn [app]. f_equal. lia.
Qed.

Lemma take_last_all {A : Type} (l : list A) : take_last (List.length l) l = l.
Proof.
  unfold take_last. destruct (List.length l) eqn:E.
  - reflexivity.
  - now rewrite Nat.sub_diag.
Qed.

Lemma take_last_cons {A : Type} (k : nat) (a : A) (l : list A) :
  (0 < k <= List.length l)%nat -> take_last k (a :: l) = take_last k l.
Proof.
  intros Hk. unfold take_last. destruct k as [|k]; [lia|].
  cbn [List.length].
  replace (S (List.length l) - S k)%nat with (S (List.length l - S k)) by lia.
  reflexivity.
Qed.

Lemma take_last_app {A : Type} (k : nat) (l l' : list A) :
  (0 < k <= List.length l')%nat -> take_last k (l ++ l') = take_last k l'.
Proof.
  intros Hk. induction l as [|a l IH]; [reflexivity|].
  cbn [app]. rewrite take_last_cons; [exact IH|].
  rewrite length_app. lia.
Qed.

Lemma take_last_length {A : Type} (k : nat) (l : list A) :
  (0 < k <= List.length l)%nat -> List.length (take_last k l) = k.
Proof.
  intros Hk. unfold take_last. destruct k as [|k]; [lia|].
  rewrite length_skipn. lia.
Qed.

Lemma take_last_skipn {A : Type} (k : nat) (l : list A) :
  (0 < k)%nat -> take_last k l = skipn (List.length l - k) l.
Proof. intros Hk. unfold take_last. destruct k; [lia|reflexivity]. Qed.

Lemma take_last_app_left {A : Type} (k : nat) (l l' : list A) :
  (0 < k <= List.length l)%nat ->
  take_last k (l ++ l') = take_last k (take_last k l ++ l').
Proof.
  intros Hk. rewrite (take_last_skipn k l) by lia.
  rewrite <- (firstn_skipn (List.length l - k) l) at 1.
  rewrite <- app_assoc. apply take_last_app.
  rewrite length_app, length_skipn. lia.
Qed.

Lemma project_feeds_back (clk : clock) (model : ridge_model) (lags : nat) :
  forall steps tick w k,
    w <> [] -> (k < steps)%nat ->
    nth_error (fst (project clk model lags steps tick w [])) k
    = Some (step_value clk model lags (tick + k)
              (take_last (List.length w)
                 (w ++ firstn k (fst (project clk model lags steps tick w []))))).
Proof.
  intros steps.
  induction steps as [|steps IH]; intros tick w k Hw Hk; [lia|].
  cbn [project]. rewrite project_accumulates. cbn [fst app].
  destruct k as [|k].
  - cbn [nth_error firstn]. rewrite app_nil_r, take_last_all, Nat.add_0_r.
    reflexivity.
  - cbn [nth_error firstn].
    set (x := adjust_for_hour (now_hour (clk tick))
                (ridge_predict model (window_features w lags))).
    assert (Hw' : tl w ++ [x] <> []) by (now destruct (tl w)).
    assert (Hlen : List.length (tl w ++ [x]) = List.length w).
    { destruct w as [|a w]; [easy|]. rewrite length_app. cbn. lia. }
    rewrite (IH (S tick) (tl w ++ [x]) k Hw') by lia.
    rewrite Hlen. do 2 f_equal; [lia|].
    destruct w as [|a w]; [easy|]. cbn [tl app].
    rewrite take_last_cons.
    + now rewrite <- app_assoc.
    + rewrite length_app. cbn [List.length]. lia.
Qed.

(** With at least 20 readings, value [k] of the forecast (k = 0..23) is
    the ridge prediction, adjusted for the hour read at that step, from the
    window made of the last [lags] values of the smoothed series followed
    by the [k] forecast values already produced: every adjusted value is
    fed back, and the window keeps its [lags] values. *)
Theorem forecast_values_feed_back (clk : clock) (smin smax : float)
    (temperature_data : list reading) (device_id : string) (k : nat) :
  (20 <= List.length temperature_data)%nat -> (k < 24)%nat ->
  let series := smooth_temperature (temperature_column temperature_data) 0.3 in
  let lags := Nat.min 12 (List.length temperature_data / 3) in
  let model := ridge_fit 1 42 (create_features series lags) (skipn lags series) in
  exists out : list float,
    forecast_vector
      (predict_temperature clk (init smin smax) temperature_data device_id)
      = Some out /\
    List.length (take_last lags (series ++ firstn k out)) = lags /\
    nth_error out k
      = Some (step_value clk model lags (1 + k)
                (take_last lags (series ++ firstn k out))).
Proof.
  intros Hlen Hk series lags model.
  assert (Hseries : List.length series = List.length temperature_data).
  { unfold series, smooth_temperature, temperature_column.
    now rewrite ewm_mean_length, length_map. }
  assert (Hlags : (6 <= lags <= 12)%nat).
  { unfold lags. split; [|apply Nat.le_min_l].
    apply Nat.min_glb; [lia|]. apply Nat.div_le_lower_bound; lia. }
  assert (Hwin : (lags + 5 <= List.length temperature_data)%nat) by lia.
  unfold predict_temperature.
  replace (List.length temperature_data <? 20)%nat with false
    by (symmetry; apply Nat.ltb_ge; exact Hlen).
  fold series. rewrite Hseries. fold lags.
  replace (List.length temperature_data <? lags + 5)%nat with false
    by (symmetry; apply Nat.ltb_ge; exact Hwin).
  rewrite steps_of_init. fold model.
  rewrite project_accumulates. cbn [app fst forecast_vector].
  set (w := take_last lags series).
  assert (Hwlen : List.length w = lags)
    by (apply take_last_length; lia).
  assert (Hw : w <> []) by (intros E; rewrite E in Hwlen; simpl in Hwlen; lia).
  eexists. split; [reflexivity|].
  set (out := fst (project clk model lags 24 1 w [])).
  assert (Hsame : take_last lags (series ++ firstn k out)
                  = take_last (List.length w) (w ++ firstn k out)).
  { rewrite Hwlen. unfold w. apply take_last_app_left. lia. }
  split.
  - rewrite Hsame, Hwlen. apply take_last_length.
    rewrite length_app, Hwlen. lia.
  - rewrite Hsame. exact (project_feeds_back clk model lags 24 1 w k Hw Hk).
Qed.

(** *** The forecast handed to the classifier *)



(** *** The reported accuracy *)

Lemma ltb_implies_leb (x y : float) :
  PrimFloat.ltb x y = true -> PrimFloat.leb x y = true.
Proof.
  rewrite FloatAxioms.ltb_spec, FloatAxioms.leb_spec.
  unfold SpecFloat.SFltb, SpecFloat.SFleb.
  now destruct (SpecFloat.SFcompare (Prim2SF x) (Prim2SF y)) as [[| |]|].
Qed.

Lemma py_max_floor (b : float) : PrimFloat.leb 75 (py_max 75 b) = true.
Proof.
  unfold py_max. destruct (PrimFloat.ltb 75 b) eqn:H.
  - now apply ltb_implies_leb.
  - reflexivity.
Qed.

(** The accuracy reported is never below 75.0, whatever the fit error is
    (a NaN error included), as long as rounding to one decimal does not
    take a value that is at least 75 below 75: it is 75.0 on the two short
    paths and the rounded [max(75.0, 100 - 10 * mae)] otherwise. *)
Theorem reported_accuracy_at_least_75 (clk : clock) (self : TemperaturePredictor)
    (temperature_data : list reading) (device_id : string) :
  (forall x, PrimFloat.leb 75 x = true ->
             PrimFloat.leb 75 (round_ndigits x 1) = true) ->
  PrimFloat.leb 75
    (reported_accuracy
       (predict_temperature clk self temperature_data device_id)) = true.
Proof.
  intros Hround. unfold predict_temperature.
  destruct (List.length temperature_data <? 20)%nat; [reflexivity|].
  match goal with
  | |- context [if ?c then _ else _] => destruct c; [reflexivity|]
  end.
  match goal with
  | |- context [project ?c ?m ?l ?s ?t ?w ?p] =>
      destruct (project c m l s t w p) as [predictions tick]
  end.
  cbn [reported_accuracy snd]. apply Hround, py_max_floor.
Qed.

End WithNumerics.

Lemma forecast_values_feed_back_first_value :
  (20 <= List.length (repeat reading_at_5 20))%nat /\ (0 < 24)%nat /\
  exists out : list float,
    forecast_vector
      (predict_temperature (numerics := demo_numerics) (stopped_clock 12)
         (init 2 8) (repeat reading_at_5 20) "fridge-01")
      = Some out /\
    nth_error out 0
      = Some (step_value (numerics := demo_numerics) (stopped_clock 12) tt
                (Nat.min 12 (List.length (repeat reading_at_5 20) / 3)) (1 + 0)
                (take_last (Nat.min 12 (List.length (repeat reading_at_5 20) / 3))
                   (smooth_temperature (numerics := demo_numerics)
                      (temperature_column (repeat reading_at_5 20)) 0.3
                    ++ firstn 0 out))).
Proof.
  split; [simpl; lia|]. split; [lia|].
  destruct (forecast_values_feed_back (numerics := demo_numerics)
              (stopped_clock 12) 2 8 (repeat reading_at_5 20) "fridge-01" 0)
    as (out & Hout & _ & Hnth); [simpl; lia|lia|].
  exists out. split; [exact Hout|exact Hnth].
Defined.

Lemma reported_accuracy_at_least_75_demo :
  (forall x, PrimFloat.leb 75 x = true ->
             PrimFloat.leb 75 (round_ndigits (Numerics := demo_numerics) x 1) = true) /\
  PrimFloat.leb 75
    (reported_accuracy
       (predict_temperature (numerics := demo_numerics) (stopped_clock 12)
          default_predictor (repeat reading_at_5 25) "fridge-01")) = true.
Proof.
  split; [intros x Hx; exact Hx|].
  apply (reported_accuracy_at_least_75 (numerics := demo_numerics)).
  intros x Hx; exact Hx.
Defined.

(** *** Action suggestions *)

(** Every alert type and severity the classifier can return has its own
    list of seven suggestions, different from the fallback; any other
    alert type or severity gets the four fallback lines. *)
Theorem suggestions_cover_every_alert :
  (forall (a : alert_type) (s : severity),
     List.length
       (Actions.get_action_suggestions (Actions.alert_type_name a)
          (Actions.severity_name s)) = 7%nat /\
     Actions.get_action_suggestions (Actions.alert_type_name a)
       (Actions.severity_name s) <> Actions.default_actions) /\
  (forall alert_type severity : string,
     (alert_type <> "HIGH_TEMP"%string /\ alert_type <> "LOW_TEMP"%string) \/
     (severity <> "CRITICAL"%string /\ severity <> "WARNING"%string) ->
     Actions.get_action_suggestions alert_type severity = Actions.default_actions) /\
  List.length Actions.default_actions = 4%nat.
Proof.
  split; [|split; [|reflexivity]].
  - intros [|] [|]; split; try reflexivity; discriminate.
  - intros alert_type severity H.
    unfold Actions.get_action_suggestions, Actions.actions.
    cbn [Actions.dict_get].
    destruct (String.eqb_spec "HIGH_TEMP" alert_type) as [E1|N1];
      [|destruct (String.eqb_spec "LOW_TEMP" alert_type) as [E2|N2]];
      cbn [Actions.dict_get];
      try (destruct (String.eqb_spec "CRITICAL" severity) as [E3|N3];
           [|destruct (String.eqb_spec "WARNING" severity) as [E4|N4]]);
      try reflexivity;
      destruct H as [[H1 H2]|[H3 H4]]; congruence.
Qed.

End PredictorMore.

(* ================================================================== *)
(** ** More facts about the hash chains *)
(* ================================================================== *)

Module DatabaseMore.

Import Datetime Database DatabaseFacts ChainSpec.

(** *** What [verify_audit_trail] accepts *)

Lemma passes_verifies (doctor_id : string) (entries : list audit_trail_row) :
  forall h acc,
    passes doctor_id h entries ->
    verify_entries doctor_id entries h acc
      = (true, None, acc ++ map valid_result entries).
Proof.
  induction entries as [|e rest IH]; intros h acc; cbn [passes verify_entries map].
  - intros _. now rewrite app_nil_r.
  - intros (Hprev & Hhash & Hrest).
    apply String.eqb_eq in Hprev. apply String.eqb_eq in Hhash.
    rewrite Hprev, Hhash. cbn [negb].
    rewrite (IH _ _ Hrest), <- app_assoc. reflexivity.
Qed.

Lemma verifies_passes (doctor_id : string) (entries : list audit_trail_row) :
  forall h acc,
    fst (fst (verify_entries doctor_id entries h acc)) = true ->
    passes doctor_id h entries.
Proof.
  induction entries as [|e rest IH]; intros h acc; cbn [passes verify_entries].
  - trivial.
  - destruct (String.eqb_spec (audit_previous_hash e) h) as [Hprev|_];
      [|discriminate].
    destruct (String.eqb_spec (Sha256.hexdigest (verify_data_string doctor_id e))
                              (audit_current_hash e)) as [Hhash|_];
      [|discriminate].
    cbn [negb]. intros H. repeat split; auto. now apply (IH _ _ H).
Qed.

Lemma passes_linked (doctor_id : string) (entries : list audit_trail_row) :
  forall h,
    passes doctor_id h entries <->
    (forall r, nth_error entries 0 = Some r -> audit_previous_hash r = h) /\
    (forall i r r', nth_error entries i = Some r ->
                    nth_error entries (S i) = Some r' ->
                    audit_previous_hash r' = audit_current_hash r) /\
    (forall e, In e entries ->
       Sha256.hexdigest (verify_data_string doctor_id e) = audit_current_hash e).
Proof.
  induction entries as [|e rest IH]; intros h; cbn [passes].
  - split; [|trivial]. intros _.
    split; [intros r H|split; [intros [|i] r r' H|intros x []]]; discriminate.
  - rewrite IH. split.
    + intros (Hprev & Hhash & Hfirst & Hnext & Hall). split; [|split].
      * intros r [= <-]. exact Hprev.
      * intros [|i] r r' Hr Hr'.
        -- injection Hr as <-. now apply Hfirst.
        -- now apply (Hnext i).
      * intros x [<-|Hx]; [exact Hhash|now apply Hall].
    + intros (Hfirst & Hnext & Hall).
      split; [now apply Hfirst|]. split; [apply Hall; now left|].
      split; [|split].
      * intros r Hr. now apply (Hnext 0%nat e r).
      * intros i r r' Hr Hr'. now apply (Hnext (S i)).
      * intros x Hx. apply Hall. now right.
Qed.

(** [verify_audit_trail] answers [True] exactly for the chains that are
    linked from the sentinel and whose every stored hash is the SHA-256 of
    the string it rebuilds for the record; it then returns [None] and one
    VALID result per record, in the order of the chain. *)
Theorem verify_accepts_exactly_the_linked_chains (db : tables) (doctor_id : string) :
  (fst (fst (verify_audit_trail db doctor_id)) = true <->
   linked audit_previous_hash audit_current_hash (select_audit db doctor_id) /\
   (forall e, In e (select_audit db doctor_id) ->
      Sha256.hexdigest (verify_data_string doctor_id e) = audit_current_hash e)) /\
  (fst (fst (verify_audit_trail db doctor_id)) = true ->
   verify_audit_trail db doctor_id
     = (true, None, map valid_result (select_audit db doctor_id))).
Proof.
  unfold verify_audit_trail, linked. split.
  - split.
    + intros H. apply verifies_passes in H. apply passes_linked in H. tauto.
    + intros [[Hfirst Hnext] Hall].
      rewrite (passes_verifies doctor_id _ sentinel []); [reflexivity|].
      apply passes_linked. tauto.
  - intros H. apply verifies_passes in H.
    now rewrite (passes_verifies doctor_id _ sentinel [] H).
Qed.

(** *** What a failed verification reports *)

Lemma fetch_last_cons {R : Type} (p : R) (l : list R) :
  exists r, fetch_last (p :: l) = Some r.
Proof.
  revert p. induction l as [|q l IH]; intros p; [now exists p|].
  destruct (IH q) as [r Hr]. exists r. exact Hr.
Qed.

Lemma verify_entries_failure (doctor_id : string) (entries : list audit_trail_row) :
  forall h acc bad results,
    verify_entries doctor_id entries h acc = (false, bad, results) ->
    exists pre e post,
      entries = pre ++ e :: post /\ bad = Some (audit_id e) /\
      results = acc ++ map valid_result pre /\
      passes doctor_id h pre /\
      (audit_previous_hash e
         <> match fetch_last pre with
            | Some r => audit_current_hash r
            | None => h
            end \/
       Sha256.hexdigest (verify_data_string doctor_id e) <> audit_current_hash e).
Proof.
  induction entries as [|e rest IH]; intros h acc bad results;
    cbn [verify_entries]; [discriminate|].
  destruct (String.eqb_spec (audit_previous_hash e) h) as [Hprev|Hprev]; cbn [negb].
  2:{ intros [= <- <-]. exists [], e, rest. cbn. rewrite app_nil_r.
      repeat split; auto. }
  destruct (String.eqb_spec (Sha256.hexdigest (verify_data_string doctor_id e))
                            (audit_current_hash e)) as [Hhash|Hhash]; cbn [negb].
  2:{ intros [= <- <-]. exists [], e, rest. cbn. rewrite app_nil_r.
      repeat split; auto. }
  intros H. apply IH in H as (pre & x & post & -> & -> & -> & Hpass & Hbreak).
  exists (e :: pre), x, post. cbn [app map passes].
  rewrite <- app_assoc. repeat split; auto.
  destruct pre as [|p pre']; [exact Hbreak|].
  destruct (fetch_last_cons p pre') as [r Hr].
  change (fetch_last (e :: p :: pre')) with (fetch_last (p :: pre')).
  rewrite Hr in *. exact Hbreak.
Qed.

(** When [verify_audit_trail] answers [False], the id it returns is that of
    the first record of the chain that breaks it: the records before it
    verify on their own and are exactly the ones listed as VALID, and that
    record either does not point to the hash of the record before it (the
    sentinel for the first record) or does not carry the hash recomputed
    for it. *)
Theorem verify_reports_the_first_broken_record (db : tables) (doctor_id : string)
    (bad : option Z) (results : list verification_result) :
  verify_audit_trail db doctor_id = (false, bad, results) ->
  exists pre e post,
    select_audit db doctor_id = pre ++ e :: post /\
    bad = Some (audit_id e) /\
    results = map valid_result pre /\
    verify_entries doctor_id pre sentinel [] = (true, None, map valid_result pre) /\
    (audit_previous_hash e <> tail_hash pre \/
     Sha256.hexdigest (verify_data_string doctor_id e) <> audit_current_hash e).
Proof.
  unfold verify_audit_trail. intros H.
  apply verify_entries_failure in H as (pre & e & post & Hsplit & -> & -> & Hpass & Hbreak).
  exists pre, e, post. repeat split; auto.
  now rewrite (passes_verifies doctor_id pre sentinel [] Hpass).
Qed.

Lemma verify_reports_the_first_broken_record_after_login :
  verify_audit_trail
    (run (platform := demo_platform)
       [AuditEntry morning "DOC001" "LOGIN" "Doctor logged in successfully";
        AuditEntry evening "DOC001" "LOGOUT" "Doctor logged out"]) "DOC001"
    = (false, Some 1, []) /\
  exists pre e post,
    select_audit
      (run (platform := demo_platform)
         [AuditEntry morning "DOC001" "LOGIN" "Doctor logged in successfully";
          AuditEntry evening "DOC001" "LOGOUT" "Doctor logged out"]) "DOC001"
      = pre ++ e :: post /\
    Some 1 = Some (audit_id e) /\
    [] = map valid_result pre /\
    verify_entries "DOC001" pre sentinel [] = (true, None, map valid_result pre) /\
    (audit_previous_hash e <> tail_hash pre \/
     Sha256.hexdigest (verify_data_string "DOC001" e) <> audit_current_hash e).
Proof.
  assert (H : verify_audit_trail
                (run (platform := demo_platform)
                   [AuditEntry morning "DOC001" "LOGIN" "Doctor logged in successfully";
                    AuditEntry evening "DOC001" "LOGOUT" "Doctor logged out"])
                "DOC001" = (false, Some 1, []))
    by (vm_compute; reflexivity).
  split; [exact H|].
  exact (verify_reports_the_first_broken_record _ _ _ _ H).
Defined.

(** *** What an append changes *)

Section WithPlatform.

Context {platform : Platform}.

Lemma add_audit_entry_effect (db : tables) (now : datetime)
    (doctor_id action details : string) :
  ids_in_order db ->
  match add_audit_entry now doctor_id action details db with
  | (db', Returned h) =>
      select_audit db' doctor_id
        = select_audit db doctor_id
          ++ [AuditRow (audit_trail_id_seq db + 1) doctor_id now action
                (tail_hash (select_audit db doctor_id)) h details] /\
      (forall d, d <> doctor_id -> select_audit db' d = select_audit db d) /\
      temperature_logs db' = temperature_logs db
  | (db', Raised) => db' = db
  end.
Proof.
  intros (Hinc & Hbound & Hinc_logs & Hbound_logs).
  unfold add_audit_entry.
  match goal with
  | |- context [insert_audit_ok ?r] => set (row := r); destruct (insert_audit_ok row)
  end; [|reflexivity].
  unfold select_audit at 1 3. cbn [audit_trail temperature_logs].
  split; [|split; [|reflexivity]].
  - rewrite (select_snoc audit_id _ _ row (audit_trail_id_seq db) Hinc Hbound eq_refl).
    cbn [audit_doctor_id row]. now rewrite String.eqb_refl.
  - intros d Hd. unfold select_audit. cbn [audit_trail].
    rewrite (select_snoc audit_id _ _ row (audit_trail_id_seq db) Hinc Hbound eq_refl).
    cbn [audit_doctor_id row].
    destruct (String.eqb_spec doctor_id d) as [E|_]; [congruence|reflexivity].
Qed.

Lemma add_temperature_log_effect (db : tables) (now : datetime)
    (doctor_id device_id : string) (temperature : float)
    (vaccine_type location : string) :
  ids_in_order db ->
  match add_temperature_log now doctor_id device_id temperature
          vaccine_type location db with
  | (db', Returned h) =>
      select_logs db' doctor_id
        = select_logs db doctor_id
          ++ [LogRow (temperature_logs_id_seq db + 1) doctor_id device_id now
                temperature vaccine_type location
                match fetch_last (select_logs db doctor_id) with
                | Some r => log_current_hash r
                | None => sentinel
                end h] /\
      (forall d, d <> doctor_id -> select_logs db' d = select_logs db d) /\
      audit_trail db' = audit_trail db
  | (db', Raised) => db' = db
  end.
Proof.
  intros (Hinc & Hbound & Hinc_logs & Hbound_logs).
  unfold add_temperature_log.
  match goal with
  | |- context [insert_log_ok ?r] => set (row := r); destruct (insert_log_ok row)
  end; [|reflexivity].
  unfold select_logs at 1 3. cbn [audit_trail temperature_logs].
  split; [|split; [|reflexivity]].
  - rewrite (select_snoc log_id _ _ row (temperature_logs_id_seq db)
               Hinc_logs Hbound_logs eq_refl).
    cbn [log_doctor_id row]. now rewrite String.eqb_refl.
  - intros d Hd. unfold select_logs. cbn [temperature_logs].
    rewrite (select_snoc log_id _ _ row (temperature_logs_id_seq db)
               Hinc_logs Hbound_logs eq_refl).
    cbn [log_doctor_id row].
    destruct (String.eqb_spec doctor_id d) as [E|_]; [congruence|reflexivity].
Qed.


(** *** Sequences of appends *)

Lemma call_keeps_ids_in_order (db : tables) (c : append_call) :
  ids_in_order db -> ids_in_order (call db c).
Proof.
  intros (Hinc & Hbound & Hinc_logs & Hbound_logs).
  destruct c as [now d a det|now d dev t v loc]; cbn [call].
  - unfold add_audit_entry.
    match goal with
    | |- context [insert_audit_ok ?r] => set (row := r); destruct (insert_audit_ok row)
    end; [|repeat split; assumption].
    cbn [fst]. split; [|split; [|split]]; cbn; try assumption.
    + now apply (increasing_snoc audit_id _ row (audit_trail_id_seq db)).
    + now apply (bounded_snoc audit_id).
  - unfold add_temperature_log.
    match goal with
    | |- context [insert_log_ok ?r] => set (row := r); destruct (insert_log_ok row)
    end; [|repeat split; assumption].
    cbn [fst]. split; [|split; [|split]]; cbn; try assumption.
    + now apply (increasing_snoc log_id _ row (temperature_logs_id_seq db)).
    + now apply (bounded_snoc log_id).
Qed.

Lemma calls_keep_ids_in_order (calls : list append_call) :
  forall db, ids_in_order db -> ids_in_order (fold_left call calls db).
Proof.
  induction calls as [|c calls IH]; intros db Hids; cbn [fold_left];
    [exact Hids|].
  apply IH. now apply call_keeps_ids_in_order.
Qed.

Lemma call_extends_chain (db : tables) (c : append_call) (doctor_id : string) :
  ids_in_order db ->
  exists more, select_audit (call db c) doctor_id = select_audit db doctor_id ++ more /\
               (by_others doctor_id c -> more = []).
Proof.
  intros Hids. destruct c as [now d a det|now d dev t v loc]; cbn [call by_others].
  - pose proof (add_audit_entry_effect db now d a det Hids) as H.
    destruct (add_audit_entry now d a det db) as [db' [h|]]; cbn [fst].
    + destruct H as (Hown & Hother & _).
      destruct (String.eqb_spec d doctor_id) as [<-|Hne].
      * eexists. split; [exact Hown|]. intros Hd. now elim Hd.
      * exists []. rewrite app_nil_r. split; [now apply Hother; congruence|trivial].
    + subst db'. exists []. now rewrite app_nil_r.
  - pose proof (add_temperature_log_effect db now d dev t v loc Hids) as H.
    destruct (add_temperature_log now d dev t v loc db) as [db' [h|]]; cbn [fst].
    + destruct H as (_ & _ & Haudit). exists []. rewrite app_nil_r.
      unfold select_audit. now rewrite Haudit.
    + subst db'. exists []. now rewrite app_nil_r.
Qed.

Lemma calls_by_others_keep_chain (calls : list append_call) (doctor_id : string) :
  forall db,
    ids_in_order db -> Forall (by_others doctor_id) calls ->
    select_audit (fold_left call calls db) doctor_id = select_audit db doctor_id.
Proof.
  induction calls as [|c calls IH]; intros db Hids Hothers; cbn [fold_left];
    [reflexivity|].
  rewrite IH.
  - destruct (call_extends_chain db c doctor_id Hids) as (more & -> & Hmore).
    rewrite (Hmore (Forall_inv Hothers)). apply app_nil_r.
  - now apply call_keeps_ids_in_order.
  - exact (Forall_inv_tail Hothers).
Qed.

(** The hash an append returns is the previous hash of the next record the
    same doctor appends, whatever the other doctors append to the audit
    trail, and whatever anyone appends to the temperature logs, in
    between. *)
Theorem returned_hash_is_the_next_previous_hash (db : tables)
    (now now' : datetime) (doctor_id action details action' details' h h' : string)
    (others : list append_call) :
  ids_in_order db ->
  snd (add_audit_entry now doctor_id action details db) = Returned h ->
  Forall (by_others doctor_id) others ->
  snd (add_audit_entry now' doctor_id action' details'
         (fold_left call others
            (fst (add_audit_entry now doctor_id action details db))))
    = Returned h' ->
  exists r,
    fetch_last
      (select_audit
         (fst (add_audit_entry now' doctor_id action' details'
                 (fold_left call others
                    (fst (add_audit_entry now doctor_id action details db)))))
         doctor_id) = Some r /\
    audit_previous_hash r = h /\ audit_current_hash r = h'.
Proof.
  intros Hids Hfirst Hothers Hsecond.
  pose proof (add_audit_entry_effect db now doctor_id action details Hids) as H1.
  pose proof (call_keeps_ids_in_order db (AuditEntry now doctor_id action details) Hids)
    as Hids1. cbn [call] in Hids1.
  destruct (add_audit_entry now doctor_id action details db) as [db1 [h1|]];
    cbn [fst snd] in *; [|discriminate].
  injection Hfirst as ->. destruct H1 as (Hown1 & _ & _).
  set (db2 := fold_left call others db1) in *.
  assert (Hids2 : ids_in_order db2) by now apply calls_keep_ids_in_order.
  assert (Hchain2 : select_audit db2 doctor_id = select_audit db1 doctor_id)
    by now apply calls_by_others_keep_chain.
  pose proof (add_audit_entry_effect db2 now' doctor_id action' details' Hids2) as H2.
  destruct (add_audit_entry now' doctor_id action' details' db2) as [db3 [h3|]];
    cbn [fst snd] in *; [|discriminate].
  injection Hsecond as ->. destruct H2 as (Hown2 & _ & _).
  rewrite Hown2, fetch_last_snoc. eexists. split; [reflexivity|].
  cbn [audit_previous_hash audit_current_hash]. split; [|reflexivity].
  rewrite Hchain2, Hown1. unfold tail_hash. now rewrite fetch_last_snoc.
Qed.

(** *** Verification of what the appends wrote *)

Lemma select_audit_In (db : tables) (doctor_id : string) (r : audit_trail_row) :
  ids_in_order db ->
  In r (select_audit db doctor_id) ->
  In r (audit_trail db) /\ audit_doctor_id r = doctor_id.
Proof.
  intros (Hinc & _) Hr. unfold select_audit in Hr.
  rewrite (order_by_increasing _ _ (increasing_filter _ _ _ Hinc)) in Hr.
  apply filter_In in Hr as [Hin Hd]. split; [exact Hin|].
  now apply String.eqb_eq.
Qed.

(** No chain written by the append functions verifies.  Whatever the calls
    were, as soon as a doctor has a record, [verify_audit_trail] answers
    [False] with the id of the first record of that doctor and no VALID
    result, unless SHA-256 gives that record the same digest under the
    rendering of [add_audit_entry] and under that of [verify_audit_trail]. *)
Theorem appended_chains_never_verify (calls : list append_call)
    (doctor_id : string) (r : audit_trail_row) (rest : list audit_trail_row) :
  select_audit (run calls) doctor_id = r :: rest ->
  (Sha256.hexdigest (verify_data_string doctor_id r)
     = Sha256.hexdigest (audit_data_string r) ->
   verify_data_string doctor_id r = audit_data_string r) ->
  verify_audit_trail (run calls) doctor_id = (false, Some (audit_id r), []).
Proof.
  intros Hchain Hcollision.
  destruct (run_linkage calls) as [Hids (Hlinked & _ & Hhash & _)].
  assert (Hin : In r (select_audit (run calls) doctor_id))
    by (rewrite Hchain; now left).
  destruct (select_audit_In _ _ _ Hids Hin) as [Htable Hdoctor].
  unfold verify_audit_trail. rewrite Hchain.
  apply verify_entries_mismatch.
  - destruct (Hlinked doctor_id) as [Hfirst _]. apply Hfirst.
    now rewrite Hchain.
  - rewrite (Hhash r Htable). intros Heq. apply Hcollision in Heq.
    unfold verify_data_string, audit_data_string in Heq.
    rewrite Hdoctor in Heq.
    apply DatetimeFacts.append_inv_tail in Heq.
    exact (DatetimeFacts.isoformat_T_is_not_str _ (eq_sym Heq)).
Qed.

Lemma verify_entries_failure_app (doctor_id : string)
    (entries more : list audit_trail_row) :
  forall h acc bad results,
    verify_entries doctor_id entries h acc = (false, bad, results) ->
    verify_entries doctor_id (entries ++ more) h acc = (false, bad, results).
Proof.
  induction entries as [|e rest IH]; intros h acc bad results;
    cbn [verify_entries app]; [discriminate|].
  destruct (negb (audit_previous_hash e =? h)%string); [trivial|].
  destruct (negb (Sha256.hexdigest (verify_data_string doctor_id e)
                  =? audit_current_hash e)%string); [trivial|].
  apply IH.
Qed.

(** Appending never repairs a chain: once [verify_audit_trail] answers
    [False] for a doctor, it gives the same answer, with the same id and
    the same VALID results, after any further appends. *)
Theorem appends_never_repair_a_chain (db : tables) (doctor_id : string)
    (bad : option Z) (results : list verification_result)
    (calls : list append_call) :
  ids_in_order db ->
  verify_audit_trail db doctor_id = (false, bad, results) ->
  verify_audit_trail (fold_left call calls db) doctor_id = (false, bad, results).
Proof.
  revert db. induction calls as [|c calls IH]; intros db Hids Hbad;
    cbn [fold_left]; [exact Hbad|].
  apply IH; [now apply call_keeps_ids_in_order|].
  unfold verify_audit_trail in *.
  destruct (call_extends_chain db c doctor_id Hids) as (more & -> & _).
  now apply verify_entries_failure_app.
Qed.

End WithPlatform.

(** *** The theorems on a session of DOC001 *)


Lemma returned_hash_is_the_next_previous_hash_across_a_reading :
  ids_in_order init_database /\
  snd (add_audit_entry (platform := demo_platform) morning "DOC001" "LOGIN"
         "Doctor logged in successfully" init_database)
    = Returned "3bbf68b885fc772e6262301fd792aaeb44d457a7d72c4d07d52a13c021b4e357"%string /\
  Forall (by_others "DOC001")
    [TemperatureLog morning "DOC001" "fridge-01" 5.5 "General" "Unknown"] /\
  snd (add_audit_entry (platform := demo_platform) evening "DOC001" "LOGOUT"
         "Doctor logged out"
         (fold_left (call (platform := demo_platform))
            [TemperatureLog morning "DOC001" "fridge-01" 5.5 "General" "Unknown"]
            (fst (add_audit_entry (platform := demo_platform) morning "DOC001"
                    "LOGIN" "Doctor logged in successfully" init_database))))
    = Returned "25bac988d169f5f46195f007bc1c513cc8220b4e6f12512a9a41127129ac6552"%string /\
  exists r,
    fetch_last
      (select_audit
         (fst (add_audit_entry (platform := demo_platform) evening "DOC001" "LOGOUT"
                 "Doctor logged out"
                 (fold_left (call (platform := demo_platform))
                    [TemperatureLog morning "DOC001" "fridge-01" 5.5 "General"
                       "Unknown"]
                    (fst (add_audit_entry (platform := demo_platform) morning
                            "DOC001" "LOGIN" "Doctor logged in successfully"
                            init_database)))))
         "DOC001") = Some r /\
    audit_previous_hash r
      = "3bbf68b885fc772e6262301fd792aaeb44d457a7d72c4d07d52a13c021b4e357"%string /\
    audit_current_hash r
      = "25bac988d169f5f46195f007bc1c513cc8220b4e6f12512a9a41127129ac6552"%string.
Proof.
  assert (Hfirst :
    snd (add_audit_entry (platform := demo_platform) morning "DOC001" "LOGIN"
           "Doctor logged in successfully" init_database)
      = Returned "3bbf68b885fc772e6262301fd792aaeb44d457a7d72c4d07d52a13c021b4e357"%string)
    by (vm_compute; reflexivity).
  assert (Hothers :
    Forall (by_others "DOC001")
      [TemperatureLog morning "DOC001" "fridge-01" 5.5 "General" "Unknown"])
    by (repeat constructor).
  assert (Hsecond :
    snd (add_audit_entry (platform := demo_platform) evening "DOC001" "LOGOUT"
           "Doctor logged out"
           (fold_left (call (platform := demo_platform))
              [TemperatureLog morning "DOC001" "fridge-01" 5.5 "General" "Unknown"]
              (fst (add_audit_entry (platform := demo_platform) morning "DOC001"
                      "LOGIN" "Doctor logged in successfully" init_database))))
      = Returned "25bac988d169f5f46195f007bc1c513cc8220b4e6f12512a9a41127129ac6552"%string)
    by (vm_compute; reflexivity).
  split; [exact init_database_ids_in_order|].
  split; [exact Hfirst|]. split; [exact Hothers|]. split; [exact Hsecond|].
  exact (returned_hash_is_the_next_previous_hash (platform := demo_platform)
           init_database morning evening "DOC001" "LOGIN"
           "Doctor logged in successfully" "LOGOUT" "Doctor logged out" _ _ _
           init_database_ids_in_order Hfirst Hothers Hsecond).
Defined.

Lemma appended_chains_never_verify_after_login :
  select_audit
    (run (platform := demo_platform)
       [AuditEntry morning "DOC001" "LOGIN" "Doctor logged in successfully"])
    "DOC001" = [appended_login] /\
  (Sha256.hexdigest (verify_data_string "DOC001" appended_login)
     = Sha256.hexdigest (audit_data_string appended_login) ->
   verify_data_string "DOC001" appended_login = audit_data_string appended_login) /\
  verify_audit_trail
    (run (platform := demo_platform)
       [AuditEntry morning "DOC001" "LOGIN" "Doctor logged in successfully"])
    "DOC001" = (false, Some (audit_id appended_login), []).
Proof.
  assert (Hchain :
    select_audit
      (run (platform := demo_platform)
         [AuditEntry morning "DOC001" "LOGIN" "Doctor logged in successfully"])
      "DOC001" = [appended_login])
    by (vm_compute; reflexivity).
  assert (Hcollision :
    Sha256.hexdigest (verify_data_string "DOC001" appended_login)
      = Sha256.hexdigest (audit_data_string appended_login) ->
    verify_data_string "DOC001" appended_login = audit_data_string appended_login)
    by (intros H; vm_compute in H; discriminate H).
  split; [exact Hchain|]. split; [exact Hcollision|].
  exact (appended_chains_never_verify (platform := demo_platform) _ _ _ _
           Hchain Hcollision).
Defined.

Lemma appends_never_repair_a_chain_after_tampering :
  ids_in_order
    (update_audit (audit_id stored_logout)
       (apply_edit (EditAction "DELETE_RECORDS")) stored_tables) /\
  verify_audit_trail
    (update_audit (audit_id stored_logout)
       (apply_edit (EditAction "DELETE_RECORDS")) stored_tables) "DOC001"
    = (false, Some 7, [valid_result stored_login]) /\
  verify_audit_trail
    (fold_left (call (platform := demo_platform))
       [AuditEntry evening "DOC001" "LOGIN" "Doctor logged in successfully";
        TemperatureLog evening "DOC001" "fridge-01" 5.5 "General" "Unknown"]
       (update_audit (audit_id stored_logout)
          (apply_edit (EditAction "DELETE_RECORDS")) stored_tables)) "DOC001"
    = (false, Some 7, [valid_result stored_login]).
Proof.
  assert (Hids :
    ids_in_order
      (update_audit (audit_id stored_logout)
         (apply_edit (EditAction "DELETE_RECORDS")) stored_tables)).
  { unfold ids_in_order. cbn.
    repeat first [apply Forall_nil | apply Forall_cons | split | lia | exact I];
      cbv; discriminate. }
  assert (Hbad :
    verify_audit_trail
      (update_audit (audit_id stored_logout)
         (apply_edit (EditAction "DELETE_RECORDS")) stored_tables) "DOC001"
      = (false, Some 7, [valid_result stored_login]))
    by (vm_compute; reflexivity).
  split; [exact Hids|]. split; [exact Hbad|].
  exact (appends_never_repair_a_chain (platform := demo_platform) _ _ _ _
           [AuditEntry evening "DOC001" "LOGIN" "Doctor logged in successfully";
            TemperatureLog evening "DOC001" "fridge-01" 5.5 "General" "Unknown"]
           Hids Hbad).
Defined.

(** *** What verification does not see *)

Lemma passes_firstn (doctor_id : string) (entries : list audit_trail_row) :
  forall h n, passes doctor_id h entries -> passes doctor_id h (firstn n entries).
Proof.
  induction entries as [|e rest IH]; intros h [|n]; cbn [passes firstn]; trivial.
  intros (Hprev & Hhash & Hrest). repeat split; auto.
Qed.

(** Dropping the latest records of a chain goes unnoticed: when
    [verify_audit_trail] accepts a chain, it accepts every chain made of
    its first [n] records, and returns their VALID entries. *)
Theorem truncation_goes_unnoticed (db db' : tables) (doctor_id : string) (n : nat)
    (bad : option Z) (results : list verification_result) :
  verify_audit_trail db doctor_id = (true, bad, results) ->
  select_audit db' doctor_id = firstn n (select_audit db doctor_id) ->
  verify_audit_trail db' doctor_id = (true, None, firstn n results).
Proof.
  unfold verify_audit_trail. intros Hok Hprefix.
  assert (Hpass : passes doctor_id sentinel (select_audit db doctor_id))
    by (apply (verifies_passes _ _ _ []); now rewrite Hok).
  rewrite (passes_verifies _ _ _ [] Hpass) in Hok. injection Hok as _ <-.
  rewrite Hprefix, (passes_verifies _ _ _ [] (passes_firstn _ _ _ n Hpass)).
  cbn [app]. now rewrite firstn_map.
Qed.

Lemma truncation_goes_unnoticed_without_the_logout :
  verify_audit_trail stored_tables "DOC001"
    = (true, None, [valid_result stored_login; valid_result stored_logout]) /\
  select_audit (Tables [] 0 [stored_login; stored_other] 7) "DOC001"
    = firstn 1 (select_audit stored_tables "DOC001") /\
  verify_audit_trail (Tables [] 0 [stored_login; stored_other] 7) "DOC001"
    = (true, None, firstn 1 [valid_result stored_login; valid_result stored_logout]).
Proof.
  assert (Hok : verify_audit_trail stored_tables "DOC001"
                = (true, None, [valid_result stored_login; valid_result stored_logout]))
    by (vm_compute; reflexivity).
  assert (Hprefix : select_audit (Tables [] 0 [stored_login; stored_other] 7) "DOC001"
                    = firstn 1 (select_audit stored_tables "DOC001"))
    by (vm_compute; reflexivity).
  split; [exact Hok|]. split; [exact Hprefix|].
  exact (truncation_goes_unnoticed stored_tables _ "DOC001" 1 _ _ Hok Hprefix).
Defined.

(** *** One chain per doctor *)

Section Isolation.

Context {platform : Platform}.

(** The chains of different doctors do not touch.  What
    [verify_audit_trail] answers for a doctor is changed neither by the
    records other doctors append (nor by temperature logs), nor by an
    edit of a record that belongs to another doctor. *)
Theorem chains_are_isolated (db : tables) (doctor_id : string)
    (others : list append_call) (id : Z) (ed : edit) :
  ids_in_order db ->
  Forall (by_others doctor_id) others ->
  (forall r, In r (audit_trail db) -> audit_id r = id ->
             audit_doctor_id r <> doctor_id) ->
  verify_audit_trail (fold_left call others db) doctor_id
    = verify_audit_trail db doctor_id /\
  verify_audit_trail (update_audit id (apply_edit ed) db) doctor_id
    = verify_audit_trail db doctor_id.
Proof.
  intros Hids Hothers Hforeign. unfold verify_audit_trail. split.
  - now rewrite calls_by_others_keep_chain.
  - rewrite select_audit_update. f_equal.
    rewrite <- (map_id (select_audit db doctor_id)) at 2.
    apply map_ext_in. intros r Hr.
    destruct (select_audit_In db doctor_id r Hids Hr) as [Hin Hdoctor].
    destruct (Z.eqb_spec (audit_id r) id) as [Hid|_]; [|reflexivity].
    now elim (Hforeign r Hin Hid).
Qed.

End Isolation.

Lemma chains_are_isolated_from_the_other_doctor :
  ids_in_order stored_tables /\
  Forall (by_others "DOC001")
    [TemperatureLog evening "DOC001" "fridge-01" 5.5 "General" "Unknown"] /\
  (forall r, In r (audit_trail stored_tables) -> audit_id r = 5 ->
             audit_doctor_id r <> "DOC001"%string) /\
  verify_audit_trail
    (fold_left (call (platform := demo_platform))
       [TemperatureLog evening "DOC001" "fridge-01" 5.5 "General" "Unknown"]
       stored_tables) "DOC001"
    = verify_audit_trail stored_tables "DOC001" /\
  verify_audit_trail
    (update_audit 5 (apply_edit (EditAction "DELETE_RECORDS")) stored_tables)
    "DOC001"
    = verify_audit_trail stored_tables "DOC001".
Proof.
  assert (Hids : ids_in_order stored_tables).
  { unfold ids_in_order. cbn.
    repeat first [apply Forall_nil | apply Forall_cons | split | lia | exact I];
      cbv; discriminate. }
  assert (Hothers :
    Forall (by_others "DOC001")
      [TemperatureLog evening "DOC001" "fridge-01" 5.5 "General" "Unknown"])
    by (repeat constructor).
  assert (Hforeign :
    forall r, In r (audit_trail stored_tables) -> audit_id r = 5 ->
              audit_doctor_id r <> "DOC001"%string).
  { intros r [<-|[<-|[<-|[]]]] Hid; cbn in Hid |- *; try discriminate. }
  split; [exact Hids|]. split; [exact Hothers|]. split; [exact Hforeign|].
  exact (chains_are_isolated (platform := demo_platform) stored_tables "DOC001" _ 5
           (EditAction "DELETE_RECORDS") Hids Hothers Hforeign).
Defined.

End DatabaseMore.

(* ================================================================== *)
(** ** Facts about accounts and sessions *)
(* ================================================================== *)

Module AccountsFacts.

Import Datetime Database DatabaseFacts ChainSpec Accounts Auth.

(** *** Lookups in the doctors table *)

Lemma find_app_none {A : Type} (p : A -> bool) (l1 l2 : list A) :
  find p l1 = None -> find p (l1 ++ l2) = find p l2.
Proof.
  induction l1 as [|a l1 IH]; cbn [find app]; [reflexivity|].
  destruct (p a); [discriminate|exact IH].
Qed.

Lemma find_app_some {A : Type} (p : A -> bool) (l1 l2 : list A) (a : A) :
  find p l1 = Some a -> find p (l1 ++ l2) = Some a.
Proof.
  induction l1 as [|x l1 IH]; cbn [find app]; [discriminate|].
  destruct (p x); [trivial|exact IH].
Qed.

Lemma count_where_none (p : doctors_row -> bool) (rows : list doctors_row) :
  Z.ltb 0 (count_where p rows) = false ->
  forall r, In r rows -> p r = false.
Proof.
  unfold count_where. intros Hcount r Hin.
  destruct (p r) eqn:Hp; [|reflexivity].
  assert (Hf : In r (filter p rows)) by (apply filter_In; split; assumption).
  destruct (filter p rows); [elim Hf|].
  cbn [List.length] in Hcount. apply Z.ltb_ge in Hcount. lia.
Qed.

Lemma count_where_some (p : doctors_row -> bool) (rows : list doctors_row) :
  Z.ltb 0 (count_where p rows) = true -> exists r, find p rows = Some r.
Proof.
  unfold count_where. induction rows as [|x rows IH]; cbn [filter find].
  - discriminate.
  - destruct (p x); [eexists; reflexivity|exact IH].
Qed.

Lemma find_none_of_all_false {A : Type} (p : A -> bool) (l : list A) :
  (forall a, In a l -> p a = false) -> find p l = None.
Proof.
  induction l as [|a l IH]; intros H; cbn [find]; [reflexivity|].
  rewrite (H a (or_introl eq_refl)). apply IH. intros b Hb. apply H. now right.
Qed.

Lemma find_some_matches {A : Type} (p : A -> bool) (l : list A) (a : A) :
  find p l = Some a -> In a l /\ p a = true.
Proof. apply find_some. Qed.

Lemma fetch_doctor_id (db : store) (doctor_id : string) (r : doctors_row) :
  fetch_doctor db doctor_id = Some r -> doctors_doctor_id r = doctor_id.
Proof.
  intros H. apply find_some in H as [_ H]. now apply String.eqb_eq.
Qed.

Lemma find_map_update (doctor_id : string) (f : doctors_row -> doctors_row)
    (rows : list doctors_row) :
  (forall r, doctors_doctor_id (f r) = doctors_doctor_id r) ->
  find (fun r => String.eqb (doctors_doctor_id r) doctor_id)
       (map (fun r => if String.eqb (doctors_doctor_id r) doctor_id then f r else r)
            rows)
  = option_map f (find (fun r => String.eqb (doctors_doctor_id r) doctor_id) rows).
Proof.
  intros Hf. induction rows as [|x rows IH]; cbn [map find]; [reflexivity|].
  destruct (String.eqb (doctors_doctor_id x) doctor_id) eqn:Hx.
  - now rewrite Hf, Hx.
  - rewrite Hx. exact IH.
Qed.

Lemma fetch_after_update (db : store) (doctor_id : string)
    (f : doctors_row -> doctors_row) :
  (forall r, doctors_doctor_id (f r) = doctors_doctor_id r) ->
  fetch_doctor (update_doctors doctor_id f db) doctor_id
  = option_map f (fetch_doctor db doctor_id).
Proof. intros Hf. unfold fetch_doctor, update_doctors. cbn [doctors]. now apply find_map_update. Qed.

Lemma map_update_keeps (doctor_id : string) (f : doctors_row -> doctors_row)
    {B : Type} (column : doctors_row -> B) (rows : list doctors_row) :
  (forall r, column (f r) = column r) ->
  map column
      (map (fun r => if String.eqb (doctors_doctor_id r) doctor_id then f r else r)
           rows)
  = map column rows.
Proof.
  intros Hf. rewrite map_map. apply map_ext. intros r.
  destruct (String.eqb (doctors_doctor_id r) doctor_id); [apply Hf|reflexivity].
Qed.

Lemma update_keeps_unique (db : store) (doctor_id : string)
    (f : doctors_row -> doctors_row) :
  (forall r, doctors_doctor_id (f r) = doctors_doctor_id r) ->
  (forall r, doctors_email (f r) = doctors_email r) ->
  unique_accounts db -> unique_accounts (update_doctors doctor_id f db).
Proof.
  intros Hid Hemail [Hids Hemails]. unfold unique_accounts, update_doctors.
  cbn [doctors]. now rewrite !map_update_keeps.
Qed.

Lemma NoDup_snoc {A : Type} (l : list A) (a : A) :
  NoDup l -> ~ In a l -> NoDup (l ++ [a]).
Proof.
  intros Hl Ha. apply NoDup_app; [exact Hl|repeat constructor; intros []|].
  intros x Hx [<-|[]]. now apply Ha.
Qed.


Section WithServices.

Context {platform : Platform} {services : Services} {unicode : Unicode}.


(** *** The UNIQUE constraints *)

(** What [add_doctor] leaves when it answers [True]. *)
Lemma add_doctor_success (s : salt) (code : Z)
    (doctor_id name email password hospital department phone : string)
    (db db' : store) (result : string) :
  add_doctor s code doctor_id name email password hospital department phone db
    = (db', Returned (true, result)) ->
  exists hashed,
    hashpw password s = Returned hashed /\
    result = str_int code /\
    (forall r, In r (doctors db) ->
       doctors_doctor_id r <> doctor_id /\ doctors_email r <> email) /\
    db' = Store (doctors db
                 ++ [DoctorRow (doctors_id_seq db + 1) doctor_id name email hashed
                       hospital department phone false (Some (str_int code))])
                (doctors_id_seq db + 1) (records db).
Proof.
  unfold add_doctor.
  destruct (Z.ltb 0 (count_where _ (doctors db))) eqn:Hid; [discriminate|].
  destruct (Z.ltb 0 (count_where (fun r => String.eqb (doctors_email r) email)
                       (doctors db))) eqn:Hemail; [discriminate|].
  destruct (hashpw password s) as [hashed|]; [|discriminate].
  destruct (insert_doctor_error _); [discriminate|].
  intros H. injection H as <- <-. exists hashed.
  split; [reflexivity|]. split; [reflexivity|]. split; [|reflexivity].
  intros r Hr. split.
  - apply String.eqb_neq. exact (count_where_none _ _ Hid r Hr).
  - apply String.eqb_neq. exact (count_where_none _ _ Hemail r Hr).
Qed.

Lemma add_doctor_failure (s : salt) (code : Z)
    (doctor_id name email password hospital department phone : string)
    (db db' : store) (out : outcome (bool * string)) :
  add_doctor s code doctor_id name email password hospital department phone db
    = (db', out) ->
  (forall result, out <> Returned (true, result)) -> db' = db.
Proof.
  unfold add_doctor.
  destruct (Z.ltb 0 (count_where _ (doctors db))); [congruence|].
  destruct (Z.ltb 0 (count_where (fun r => String.eqb (doctors_email r) email)
                       (doctors db))); [congruence|].
  destruct (hashpw password s) as [hashed|]; [|congruence].
  destruct (insert_doctor_error _); [congruence|].
  intros H Hout. injection H as <- <-. now elim (Hout (str_int code)).
Qed.

(** The three functions that write to [doctors] never leave two rows with
    the same doctor id or the same email: the two SELECT COUNT checks of
    [add_doctor] are enough for the two UNIQUE constraints, and the
    updates touch neither column. *)
Theorem writers_keep_accounts_unique (db : store) (s : salt) (code : Z)
    (doctor_id name email password hospital department phone : string)
    (verification_code current_password new_password : string) :
  unique_accounts db ->
  unique_accounts
    (fst (add_doctor s code doctor_id name email password hospital department
            phone db)) /\
  unique_accounts (fst (verify_doctor_email doctor_id verification_code db)) /\
  unique_accounts
    (fst (update_doctor_password s doctor_id current_password new_password db)).
Proof.
  intros Hunique. split; [|split].
  - destruct (add_doctor s code doctor_id name email password hospital
                department phone db) as [db' out] eqn:Hadd.
    cbn [fst]. destruct out as [[[|] result]|].
    + destruct (add_doctor_success _ _ _ _ _ _ _ _ _ _ _ _ Hadd)
        as (hashed & _ & _ & Hfresh & ->).
      destruct Hunique as [Hids Hemails]. unfold unique_accounts. cbn [doctors].
      rewrite !map_app. cbn [map doctors_doctor_id doctors_email].
      split; apply NoDup_snoc; try assumption.
      * intros Hin. apply in_map_iff in Hin as (r & Hr & Hin).
        now apply (proj1 (Hfresh r Hin)).
      * intros Hin. apply in_map_iff in Hin as (r & Hr & Hin).
        now apply (proj2 (Hfresh r Hin)).
    + rewrite (add_doctor_failure _ _ _ _ _ _ _ _ _ _ _ _ Hadd); [assumption|].
      intros result'. discriminate.
    + rewrite (add_doctor_failure _ _ _ _ _ _ _ _ _ _ _ _ Hadd); [assumption|].
      intros result'. discriminate.
  - unfold verify_doctor_email. destruct (fetch_doctor db doctor_id) as [r|];
      [|assumption].
    destruct (column_eqb _ _); [|assumption].
    cbn [fst]. now apply update_keeps_unique.
  - unfold update_doctor_password.
    destruct (fetch_doctor db doctor_id) as [r|]; [|assumption].
    destruct (checkpw _ _) as [[|]|]; try assumption.
    destruct (hashpw _ _); [|assumption].
    cbn [fst]. now apply update_keeps_unique.
Qed.

(** *** Registration, verification, login *)

Lemma fetch_new_doctor (db : store) (row : doctors_row) :
  (forall r, In r (doctors db) -> doctors_doctor_id r <> doctors_doctor_id row) ->
  fetch_doctor (Store (doctors db ++ [row]) (doctors_id_seq db + 1) (records db))
               (doctors_doctor_id row) = Some row.
Proof.
  intros Hfresh. unfold fetch_doctor. cbn [doctors].
  rewrite find_app_none.
  - cbn [find]. now rewrite String.eqb_refl.
  - apply find_none_of_all_false. intros r Hr. apply String.eqb_neq.
    now apply Hfresh.
Qed.

(** A successful registration, followed by the verification of the email
    with the code kept in the session, lets the doctor in with the
    password registered.  Before the verification the same login is
    refused with "Email not verified" and changes nothing; a code other
    than the one issued is refused and changes nothing. *)
Theorem register_verify_login (s : salt) (code : Z) (now : datetime)
    (doctor_id name email password hospital department phone message : string)
    (db db1 : store) (session session1 : session_state) :
  register_doctor s code doctor_id name email password hospital department phone
                  db session
    = (db1, session1, Returned (true, message)) ->
  session_verification_code session1 = Some (str_int code) /\
  session_verification_email session1 = Some email /\
  login now doctor_id password db1 session1
    = (db1, session1, Returned (false, "Email not verified"%string)) /\
  (forall wrong, wrong <> str_int code ->
     verify_email doctor_id wrong db1 = (db1, false)) /\
  verify_email doctor_id (str_int code) db1
    = (update_doctors doctor_id set_verified db1, true) /\
  authenticate_doctor doctor_id password
    (update_doctors doctor_id set_verified db1)
    = Returned (true, Some [("doctor_id"%string, doctor_id);
                            ("name"%string, name)]).
Proof.
  unfold register_doctor.
  destruct (negb (forallb truthy _)); [discriminate|].
  destruct (negb (validate_email email)); [discriminate|].
  destruct (validate_password password) as [is_valid msg].
  destruct (negb is_valid); [discriminate|].
  destruct (add_doctor s code doctor_id name email password hospital department
              phone db) as [db' [[[|] result]|]] eqn:Hadd; try discriminate.
  cbn [send_verification_email]. intros H. injection H as <- <- _.
  destruct (add_doctor_success _ _ _ _ _ _ _ _ _ _ _ _ Hadd)
    as (hashed & Hhash & -> & Hfresh & ->).
  set (row := DoctorRow (doctors_id_seq db + 1) doctor_id name email hashed
                hospital department phone false (Some (str_int code))).
  assert (Hfetch :
    fetch_doctor (Store (doctors db ++ [row]) (doctors_id_seq db + 1) (records db))
                 doctor_id = Some row).
  { apply (fetch_new_doctor db row). intros r Hr. exact (proj1 (Hfresh r Hr)). }
  split; [reflexivity|]. split; [reflexivity|]. split; [|split; [|split]].
  - unfold login, authenticate_doctor. rewrite Hfetch. reflexivity.
  - intros wrong Hwrong. unfold verify_email, verify_doctor_email.
    rewrite Hfetch. cbn [doctors_verification_code row column_eqb].
    destruct (String.eqb_spec (str_int code) wrong) as [E|_]; [|reflexivity].
    now elim Hwrong.
  - unfold verify_email, verify_doctor_email. rewrite Hfetch.
    cbn [doctors_verification_code row column_eqb].
    now rewrite String.eqb_refl.
  - unfold authenticate_doctor. rewrite fetch_after_update by reflexivity.
    rewrite Hfetch. cbn [option_map set_verified doctors_verified negb row
                         doctors_password doctors_doctor_id doctors_name].
    now rewrite (checkpw_hashpw _ _ _ Hhash).
Qed.

(** *** What a login does *)


(** What a login that answers [True] has done. *)
Lemma login_steps (now : datetime) (doctor_id password : string)
    (db : store) (session : session_state) :
  match login now doctor_id password db session with
  | (db', session', Returned (true, message)) =>
      exists r,
        session' = Session true (Some doctor_id) (Some (doctors_name r))
                           (session_verification_code session)
                           (session_verification_email session) /\
        doctors db' = doctors db /\
        exists h,
          add_audit_entry now doctor_id "LOGIN" "Doctor logged in successfully"
                          (records db) = (records db', Returned h)
  | _ => True
  end.
Proof.
  unfold login, authenticate_doctor.
  destruct (fetch_doctor db doctor_id) as [r|] eqn:Hfetch; [|exact I].
  pose proof (fetch_doctor_id _ _ _ Hfetch) as Hid.
  destruct (doctors_verified r); cbn [negb]; [|exact I].
  destruct (checkpw password (doctors_password r)) as [[|]|]; [|exact I|exact I].
  cbn.
  destruct (add_audit_entry now doctor_id "LOGIN" "Doctor logged in successfully"
              (records db)) as [t [h|]]; [|exact I].
  exists r. rewrite Hid. split; [reflexivity|]. split; [reflexivity|].
  exists h. reflexivity.
Qed.

(** *** Changing a password *)


(** *** A session from login to logout *)

(** A login that answers [True] followed by a logout that returns: the
    session ends logged out with no doctor, the doctors table is as it
    was, and the audit chain of the doctor has grown by a LOGIN record
    followed by a LOGOUT record that points to it. *)
Theorem login_then_logout (now later : datetime) (doctor_id password message : string)
    (db db1 db2 : store) (session session1 session2 : session_state) :
  ids_in_order (records db) ->
  login now doctor_id password db session
    = (db1, session1, Returned (true, message)) ->
  logout later db1 session1 = (db2, session2, Returned tt) ->
  logged_in session2 = false /\
  session_doctor_id session2 = None /\ session_doctor_name session2 = None /\
  doctors db2 = doctors db /\
  exists entered left,
    select_audit (records db2) doctor_id
      = select_audit (records db) doctor_id ++ [entered; left] /\
    audit_action entered = "LOGIN"%string /\ audit_timestamp entered = now /\
    audit_action left = "LOGOUT"%string /\ audit_timestamp left = later /\
    audit_previous_hash entered = tail_hash (select_audit (records db) doctor_id) /\
    audit_previous_hash left = audit_current_hash entered.
Proof.
  intros Hids Hlogin Hlogout.
  pose proof (login_steps now doctor_id password db session) as Hsteps.
  rewrite Hlogin in Hsteps.
  destruct Hsteps as (r & -> & Hdoctors & h & Haudit).
  unfold logout in Hlogout. cbn [logged_in session_doctor_id] in Hlogout.
  pose proof (DatabaseMore.add_audit_entry_effect (records db) now doctor_id
                "LOGIN" "Doctor logged in successfully" Hids) as Hfirst.
  rewrite Haudit in Hfirst. destruct Hfirst as (Hchain1 & _ & _).
  assert (Hids1 : ids_in_order (records db1)).
  { pose proof (DatabaseMore.call_keeps_ids_in_order (records db)
                  (AuditEntry now doctor_id "LOGIN" "Doctor logged in successfully")
                  Hids) as H.
    cbn [call] in H. now rewrite Haudit in H. }
  pose proof (DatabaseMore.add_audit_entry_effect (records db1) later doctor_id
                "LOGOUT" "Doctor logged out" Hids1) as Hsecond.
  destruct (add_audit_entry later doctor_id "LOGOUT" "Doctor logged out"
              (records db1)) as [t [h'|]]; [|discriminate].
  destruct Hsecond as (Hchain2 & _ & _).
  injection Hlogout as <- <-. cbn [logged_in session_doctor_id session_doctor_name
                                    with_records doctors records].
  split; [reflexivity|]. split; [reflexivity|]. split; [reflexivity|].
  split; [assumption|].
  eexists. eexists. split.
  - rewrite Hchain2, Hchain1, <- app_assoc. reflexivity.
  - cbn [audit_action audit_timestamp audit_previous_hash audit_current_hash].
    split; [reflexivity|]. split; [reflexivity|]. split; [reflexivity|].
    split; [reflexivity|]. split; [reflexivity|].
    unfold tail_hash. now rewrite fetch_last_snoc.
Qed.

(** *** The sample doctor *)

(** Once [init_database] has run, it never inserts the sample doctor
    again; and where the table had no DOC001 before, the sample doctor is
    let in with the password shown on the login page, while no
    verification code is accepted for it (the row has none). *)
Theorem sample_doctor (s : salt) (db db' : store) :
  seed_doctor s db = Returned db' ->
  (forall s', seed_doctor s' db' = Returned db') /\
  (fetch_doctor db "DOC001" = None ->
   authenticate_doctor "DOC001" "password123" db'
     = Returned (true, Some [("doctor_id"%string, "DOC001"%string);
                             ("name"%string, "Dr. Priya Sharma"%string)]) /\
   forall code, verify_doctor_email "DOC001" code db' = (db', false)).
Proof.
  unfold seed_doctor.
  destruct (Z.eqb (count_where _ (doctors db)) 0) eqn:Hcount.
  - destruct (hashpw "password123" s) as [hashed|] eqn:Hhash; [|discriminate].
    destruct (insert_doctor_error _); [discriminate|].
    intros H. injection H as <-.
    set (row := DoctorRow (doctors_id_seq db + 1) "DOC001" "Dr. Priya Sharma"
                  "dr.priya@example.com" hashed "Apollo Hospital" "Pediatrics"
                  "+91-9876543210" true None).
    assert (Hfresh : forall r, In r (doctors db) ->
                               doctors_doctor_id r <> doctors_doctor_id row).
    { intros r Hr. apply String.eqb_neq.
      apply (count_where_none
               (fun r => String.eqb (doctors_doctor_id r) "DOC001") (doctors db));
        [|exact Hr].
      apply Z.eqb_eq in Hcount. unfold row. cbn [doctors_doctor_id].
      rewrite Hcount. reflexivity. }
    pose proof (fetch_new_doctor db row Hfresh) as Hfetch.
    cbn [doctors_doctor_id row] in Hfetch. fold row.
    split.
    + intros s'. cbn [doctors].
      unfold fetch_doctor in Hfetch. cbn [doctors] in Hfetch.
      unfold count_where.
      destruct (filter _ (doctors db ++ [row])) as [|x rest] eqn:Hfilter.
      * exfalso. apply find_some in Hfetch as [Hin Hp].
        assert (Hx : In row (filter (fun r => String.eqb (doctors_doctor_id r) "DOC001")
                               (doctors db ++ [row])))
          by (apply filter_In; split; assumption).
        rewrite Hfilter in Hx. elim Hx.
      * cbn [List.length].
        destruct (Z.eqb_spec (Z.of_nat (S (List.length rest))) 0) as [E|_]; [lia|].
        reflexivity.
    + intros _. split.
      * unfold authenticate_doctor. rewrite Hfetch.
        cbn [doctors_verified row negb doctors_password doctors_doctor_id
             doctors_name].
        now rewrite (checkpw_hashpw _ _ _ Hhash).
      * intros code. unfold verify_doctor_email. rewrite Hfetch. reflexivity.
  - intros H. injection H as <-. split.
    + intros s'. now rewrite Hcount.
    + intros Hnone. exfalso.
      assert (Hall : forall r, In r (doctors db) ->
                (fun r => String.eqb (doctors_doctor_id r) "DOC001") r = false).
      { intros r Hr. destruct (String.eqb (doctors_doctor_id r) "DOC001") eqn:E;
          [|reflexivity].
        exfalso. unfold fetch_doctor in Hnone.
        pose proof (find_none _ _ Hnone r Hr) as H. cbn beta in H. congruence. }
      unfold count_where in Hcount.
      assert (Hf : filter (fun r => String.eqb (doctors_doctor_id r) "DOC001")
                     (doctors db) = []).
      { revert Hall. generalize (doctors db) as l.
        induction l as [|x l IH]; intros Hall; cbn [filter]; [reflexivity|].
        pose proof (Hall x (or_introl eq_refl)) as Hx. cbn beta in Hx.
        rewrite Hx. apply IH. intros r Hr. apply Hall. now right. }
      rewrite Hf in Hcount. discriminate.
Qed.

End WithServices.

(** *** The theorems on a registration *)

Lemma writers_keep_accounts_unique_on_the_seeded_table :
  unique_accounts seeded_store /\
  unique_accounts
    (fst (add_doctor (services := demo_services) tt 482913 "DOC002" "Dr. Arjun Rao"
            "arjun.rao@example.com" "monsoon2024" "City Clinic" "Immunology"
            "+91-9000000000" seeded_store)) /\
  unique_accounts
    (fst (verify_doctor_email "DOC002" "482913" seeded_store)) /\
  unique_accounts
    (fst (update_doctor_password (services := demo_services) tt "DOC002"
            "monsoon2024" "harvest2025" seeded_store)).
Proof.
  assert (H : unique_accounts seeded_store).
  { split; cbn; repeat constructor; intros []. }
  split; [exact H|].
  exact (writers_keep_accounts_unique (services := demo_services) seeded_store tt
           482913 "DOC002" "Dr. Arjun Rao" "arjun.rao@example.com" "monsoon2024"
           "City Clinic" "Immunology" "+91-9000000000" "482913" "monsoon2024"
           "harvest2025" H).
Defined.

Lemma register_verify_login_second_doctor :
  register_doctor (services := demo_services)
    (unicode := demo_unicode) tt 482913 "DOC002" "Dr. Arjun Rao"
    "arjun.rao@example.com" "monsoon2024" "City Clinic" "Immunology"
    "+91-9000000000" seeded_store init_session_state
    = (registered_store, registered_session,
       Returned (true,
                 "Registration successful! Verification code sent to arjun.rao@example.com"%string)) /\
  session_verification_code registered_session = Some (str_int 482913) /\
  session_verification_email registered_session
    = Some "arjun.rao@example.com"%string /\
  login (platform := demo_platform) (services := demo_services) morning "DOC002"
        "monsoon2024" registered_store registered_session
    = (registered_store, registered_session,
       Returned (false, "Email not verified"%string)) /\
  (forall wrong, wrong <> str_int 482913 ->
     verify_email "DOC002" wrong registered_store
       = (registered_store, false)) /\
  verify_email "DOC002" (str_int 482913)
               registered_store
    = (update_doctors "DOC002" set_verified registered_store, true) /\
  authenticate_doctor (services := demo_services) "DOC002" "monsoon2024"
    (update_doctors "DOC002" set_verified registered_store)
    = Returned (true, Some [("doctor_id"%string, "DOC002"%string);
                            ("name"%string, "Dr. Arjun Rao"%string)]).
Proof.
  assert (H :
    register_doctor (services := demo_services)
      (unicode := demo_unicode) tt 482913 "DOC002" "Dr. Arjun Rao"
      "arjun.rao@example.com" "monsoon2024" "City Clinic" "Immunology"
      "+91-9000000000" seeded_store init_session_state
      = (registered_store, registered_session,
         Returned (true,
                   "Registration successful! Verification code sent to arjun.rao@example.com"%string)))
    by (vm_compute; reflexivity).
  split; [exact H|].
  exact (register_verify_login (platform := demo_platform)
           (services := demo_services) (unicode := demo_unicode) tt 482913 morning
           "DOC002" "Dr. Arjun Rao" "arjun.rao@example.com" "monsoon2024"
           "City Clinic" "Immunology" "+91-9000000000" _ seeded_store
           registered_store init_session_state registered_session H).
Defined.

Lemma login_then_logout_sample_doctor :
  ids_in_order (records seeded_store) /\
  login (platform := demo_platform) (services := demo_services) morning "DOC001"
        "password123" seeded_store init_session_state
    = (with_records seeded_store
         (run (platform := demo_platform)
            [AuditEntry morning "DOC001" "LOGIN" "Doctor logged in successfully"]),
       Session true (Some "DOC001"%string) (Some "Dr. Priya Sharma"%string) None None,
       Returned (true, "Login successful!"%string)) /\
  logout (platform := demo_platform) evening
         (with_records seeded_store
            (run (platform := demo_platform)
               [AuditEntry morning "DOC001" "LOGIN" "Doctor logged in successfully"]))
         (Session true (Some "DOC001"%string) (Some "Dr. Priya Sharma"%string)
                  None None)
    = (with_records seeded_store
         (run (platform := demo_platform)
            [AuditEntry morning "DOC001" "LOGIN" "Doctor logged in successfully";
             AuditEntry evening "DOC001" "LOGOUT" "Doctor logged out"]),
       init_session_state, Returned tt) /\
  logged_in init_session_state = false /\
  session_doctor_id init_session_state = None /\
  session_doctor_name init_session_state = None /\
  doctors
    (with_records seeded_store
       (run (platform := demo_platform)
          [AuditEntry morning "DOC001" "LOGIN" "Doctor logged in successfully";
           AuditEntry evening "DOC001" "LOGOUT" "Doctor logged out"]))
    = doctors seeded_store /\
  exists entered left,
    select_audit
      (records
         (with_records seeded_store
            (run (platform := demo_platform)
               [AuditEntry morning "DOC001" "LOGIN" "Doctor logged in successfully";
                AuditEntry evening "DOC001" "LOGOUT" "Doctor logged out"])))
      "DOC001"
      = select_audit (records seeded_store) "DOC001" ++ [entered; left] /\
    audit_action entered = "LOGIN"%string /\ audit_timestamp entered = morning /\
    audit_action left = "LOGOUT"%string /\ audit_timestamp left = evening /\
    audit_previous_hash entered
      = tail_hash (select_audit (records seeded_store) "DOC001") /\
    audit_previous_hash left = audit_current_hash entered.
Proof.
  assert (Hids : ids_in_order (records seeded_store))
    by exact init_database_ids_in_order.
  assert (Hlogin :
    login (platform := demo_platform) (services := demo_services) morning "DOC001"
          "password123" seeded_store init_session_state
      = (with_records seeded_store
           (run (platform := demo_platform)
              [AuditEntry morning "DOC001" "LOGIN" "Doctor logged in successfully"]),
         Session true (Some "DOC001"%string) (Some "Dr. Priya Sharma"%string)
                 None None,
         Returned (true, "Login successful!"%string)))
    by (vm_compute; reflexivity).
  assert (Hlogout :
    logout (platform := demo_platform) evening
           (with_records seeded_store
              (run (platform := demo_platform)
                 [AuditEntry morning "DOC001" "LOGIN" "Doctor logged in successfully"]))
           (Session true (Some "DOC001"%string) (Some "Dr. Priya Sharma"%string)
                    None None)
      = (with_records seeded_store
           (run (platform := demo_platform)
              [AuditEntry morning "DOC001" "LOGIN" "Doctor logged in successfully";
               AuditEntry evening "DOC001" "LOGOUT" "Doctor logged out"]),
         init_session_state, Returned tt))
    by (vm_compute; reflexivity).
  split; [exact Hids|]. split; [exact Hlogin|]. split; [exact Hlogout|].
  exact (login_then_logout (platform := demo_platform) (services := demo_services)
           morning evening "DOC001" "password123" _ seeded_store _ _
           init_session_state _ _ Hids Hlogin Hlogout).
Defined.

Lemma sample_doctor_on_empty_tables :
  seed_doctor (services := demo_services) tt empty_store = Returned seeded_store /\
  (forall s', seed_doctor (services := demo_services) s' seeded_store
              = Returned seeded_store) /\
  (fetch_doctor empty_store "DOC001" = None ->
   authenticate_doctor (services := demo_services) "DOC001" "password123"
                       seeded_store
     = Returned (true, Some [("doctor_id"%string, "DOC001"%string);
                             ("name"%string, "Dr. Priya Sharma"%string)]) /\
   forall code, verify_doctor_email "DOC001" code seeded_store
                = (seeded_store, false)).
Proof.
  assert (H : seed_doctor (services := demo_services) tt empty_store
              = Returned seeded_store) by reflexivity.
  split; [exact H|].
  exact (sample_doctor (services := demo_services) tt empty_store seeded_store H).
Defined.

End AccountsFacts.

(* ================================================================== *)
(** ** Facts about validate_email *)
(* ================================================================== *)

Module EmailFacts.

Import DatetimeFacts Re Auth.
Local Open Scope string_scope.

Lemma every_app (class : ascii -> bool) (a b : string) :
  every class (a ++ b) = every class a && every class b.
Proof.
  induction a as [|c a IH]; cbn [every append]; [reflexivity|].
  now rewrite IH, andb_assoc.
Qed.

Lemma every_weaken (class class' : ascii -> bool) (s : string) :
  (forall c, class c = true -> class' c = true) ->
  every class s = true -> every class' s = true.
Proof.
  intros Hsub. induction s as [|c s IH]; cbn [every]; [trivial|].
  intros H. apply andb_prop in H as [Hc Hs]. now rewrite (Hsub c Hc), IH.
Qed.

(** What is left after at least [least] characters of a class. *)
Lemma runs_spec (class : ascii -> bool) (s r : string) :
  forall least,
    In r (skipn least (runs class s)) <->
    exists p, s = p ++ r /\ every class p = true /\ (least <= String.length p)%nat.
Proof.
  induction s as [|c s IH]; intros least.
  - cbn [runs]. destruct least as [|least]; cbn [skipn].
    + split.
      * intros [<-|[]]. exists "". repeat split. cbn. lia.
      * intros (p & Hp & _). destruct p; [|discriminate]. now left.
    + rewrite skipn_nil. split; [intros []|].
      intros (p & Hp & _ & Hlen). destruct p; [cbn in Hlen; lia|discriminate].
  - cbn [runs]. destruct least as [|least]; cbn [skipn].
    + split.
      * intros [<-|Hin].
        -- exists "". repeat split. cbn. lia.
        -- destruct (class c) eqn:Hc; [|elim Hin].
           apply (IH 0%nat) in Hin as (p & -> & Hp & _).
           exists (String c p). cbn [append every String.length].
           rewrite Hc, Hp. repeat split. lia.
      * intros (p & Hp & Hclass & _). destruct p as [|c' p].
        -- left. exact Hp.
        -- right. cbn [append] in Hp. injection Hp as <- ->.
           cbn [every] in Hclass. apply andb_prop in Hclass as [Hc Hclass].
           rewrite Hc. apply (IH 0%nat). exists p. repeat split; [assumption|lia].
    + split.
      * intros Hin. destruct (class c) eqn:Hc; [|rewrite skipn_nil in Hin; elim Hin].
        apply IH in Hin as (p & -> & Hp & Hlen).
        exists (String c p). cbn [append every String.length].
        rewrite Hc, Hp. repeat split. lia.
      * intros (p & Hp & Hclass & Hlen). destruct p as [|c' p];
          [cbn in Hlen; lia|].
        cbn [append] in Hp. injection Hp as <- ->.
        cbn [every] in Hclass. apply andb_prop in Hclass as [Hc Hclass].
        rewrite Hc. apply IH. exists p. cbn [String.length] in Hlen.
        repeat split; [assumption|lia].
Qed.

Lemma lit_spec (c : ascii) (s r : string) :
  In r (after (Lit c) s) <-> s = String c r.
Proof.
  cbn [after]. destruct s as [|c' s]; [split; [intros []|discriminate]|].
  destruct (Ascii.eqb_spec c c') as [<-|Hne].
  - split; [intros [<-|[]]; reflexivity|]. intros H. injection H as <-. now left.
  - split; [intros []|]. intros H. injection H as <- _. now elim Hne.
Qed.

Lemma at_end_spec (s : string) : at_end s = true <-> s = "" \/ s = newline.
Proof.
  unfold newline. destruct s as [|c [|c' s]]; cbn [at_end].
  - split; auto.
  - destruct (Ascii.eqb_spec c "010"%char) as [->|Hne].
    + split; auto.
    + split; [discriminate|]. intros [H|H]; [discriminate|].
      injection H as ->. now elim Hne.
  - split; [discriminate|]. intros [H|H]; discriminate.
Qed.

Lemma nonempty_length (s : string) : s <> "" <-> (1 <= String.length s)%nat.
Proof.
  destruct s; cbn [String.length]; split; intros H; try lia; try discriminate.
  now elim H.
Qed.

Lemma accepted_characterised (email : string) :
  validate_email email = true <->
  exists local domain top ending : string,
    email = local ++ "@" ++ domain ++ "." ++ top ++ ending /\
    local <> "" /\ every local_part local = true /\
    domain <> "" /\ every domain_part domain = true /\
    (2 <= String.length top)%nat /\ every letter top = true /\
    (ending = "" \/ ending = newline).
Proof.
  unfold validate_email, matches, pattern. rewrite existsb_exists.
  cbn [residuals]. split.
  - intros (r & Hin & Hend).
    apply in_flat_map in Hin as (m1 & H1 & Hin).
    apply in_flat_map in Hin as (m2 & H2 & Hin).
    apply in_flat_map in Hin as (m3 & H3 & Hin).
    apply in_flat_map in Hin as (m4 & H4 & Hin).
    apply in_flat_map in Hin as (m5 & H5 & [<-|[]]).
    apply runs_spec in H1 as (local & -> & Hlocal & Hlen1).
    apply lit_spec in H2 as ->.
    apply runs_spec in H3 as (domain & -> & Hdomain & Hlen3).
    apply lit_spec in H4 as ->.
    apply runs_spec in H5 as (top & -> & Htop & Hlen5).
    exists local, domain, top, m5. cbn [append].
    split; [reflexivity|]. split; [now apply nonempty_length|].
    split; [assumption|]. split; [now apply nonempty_length|].
    split; [assumption|]. split; [assumption|]. split; [assumption|].
    now apply at_end_spec.
  - intros (local & domain & top & ending & -> & Hl & Hlocal & Hd & Hdomain
            & Hlen & Htop & Hend).
    exists ending. split; [|now apply at_end_spec].
    apply in_flat_map. exists ("@" ++ domain ++ "." ++ top ++ ending). split.
    { apply runs_spec. exists local. split; [reflexivity|].
      split; [assumption|now apply nonempty_length]. }
    apply in_flat_map. exists (domain ++ "." ++ top ++ ending). split.
    { apply lit_spec. reflexivity. }
    apply in_flat_map. exists ("." ++ top ++ ending). split.
    { apply runs_spec. exists domain. split; [reflexivity|].
      split; [assumption|now apply nonempty_length]. }
    apply in_flat_map. exists (top ++ ending). split.
    { apply lit_spec. reflexivity. }
    apply in_flat_map. exists ending. split.
    { apply runs_spec. exists top. split; [reflexivity|]. split; assumption. }
    now left.
Qed.

(** The addresses [validate_email] accepts are exactly those made of a
    non-empty local part over [a-zA-Z0-9._%+-], an "@", a non-empty domain
    over [a-zA-Z0-9.-], a dot, at least two letters, and then nothing or
    one newline. *)
Theorem accepted_addresses (email : string) :
  validate_email email = true <->
  exists local domain top ending : string,
    email = local ++ "@" ++ domain ++ "." ++ top ++ ending /\
    local <> "" /\ every local_part local = true /\
    domain <> "" /\ every domain_part domain = true /\
    (2 <= String.length top)%nat /\ every letter top = true /\
    (ending = "" \/ ending = newline).
Proof. exact (accepted_characterised email). Qed.

(** *** The newline that [$] lets through *)

Lemma append_nil_r_string (s : string) : s ++ "" = s.
Proof. induction s as [|c s IH]; cbn [append]; [reflexivity|now rewrite IH]. Qed.

Lemma append_assoc_string (a b c : string) : (a ++ b) ++ c = a ++ b ++ c.
Proof. induction a as [|x a IH]; cbn [append]; [reflexivity|now rewrite IH]. Qed.

Lemma address_split (local domain top ending : string) :
  local ++ "@" ++ domain ++ "." ++ top ++ ending
  = (local ++ "@" ++ domain ++ "." ++ top) ++ ending.
Proof.
  rewrite (append_assoc_string local). cbn [append]. do 2 f_equal.
  rewrite (append_assoc_string domain). cbn [append]. reflexivity.
Qed.

Lemma classes_are_printable (c : ascii) :
  (local_part c = true -> printable c = true) /\
  (domain_part c = true -> printable c = true) /\
  (letter c = true -> printable c = true).
Proof.
  unfold printable. destruct (Ascii.eqb_spec c "010"%char) as [->|_];
    [|repeat split; reflexivity].
  repeat split; intros H; vm_compute in H; discriminate H.
Qed.

Lemma body_is_printable (local domain top : string) :
  every local_part local = true -> every domain_part domain = true ->
  every letter top = true ->
  every printable (local ++ "@" ++ domain ++ "." ++ top) = true.
Proof.
  intros Hlocal Hdomain Htop.
  rewrite every_app. cbn [append every]. rewrite every_app. cbn [every].
  rewrite (every_weaken _ printable _ (fun c => proj1 (classes_are_printable c)) Hlocal).
  rewrite (every_weaken _ printable _
             (fun c => proj1 (proj2 (classes_are_printable c))) Hdomain).
  rewrite (every_weaken _ printable _
             (fun c => proj2 (proj2 (classes_are_printable c))) Htop).
  reflexivity.
Qed.

Lemma every_printable_newline (s : string) :
  every printable (s ++ newline) = false.
Proof.
  rewrite every_app. cbn. apply andb_false_r.
Qed.

(** A newline at the end of an address is not seen: for an address
    without a newline in it, [validate_email] gives the same answer with
    and without a newline appended.  So an accepted address followed by a
    newline is accepted, and registered with the newline. *)
Theorem trailing_newline_is_accepted (email : string) :
  every printable email = true ->
  validate_email (email ++ newline) = validate_email email.
Proof.
  intros Hprintable. apply eq_true_iff_eq. rewrite !accepted_characterised.
  split.
  - intros (local & domain & top & ending & Heq & Hl & Hlocal & Hd & Hdomain
            & Hlen & Htop & Hend).
    pose proof (body_is_printable local domain top Hlocal Hdomain Htop) as Hbody.
    rewrite address_split in Heq. destruct Hend as [->| ->].
    + exfalso. rewrite append_nil_r_string in Heq.
      rewrite <- Heq, every_printable_newline in Hbody. discriminate.
    + apply append_inv_tail in Heq. subst email.
      exists local, domain, top, "". rewrite address_split, append_nil_r_string.
      repeat split; try assumption. now left.
  - intros (local & domain & top & ending & Heq & Hl & Hlocal & Hd & Hdomain
            & Hlen & Htop & Hend).
    rewrite address_split in Heq. destruct Hend as [->| ->].
    + rewrite append_nil_r_string in Heq. subst email.
      exists local, domain, top, newline. rewrite address_split.
      repeat split; try assumption. now right.
    + exfalso. subst email.
      rewrite every_printable_newline in Hprintable. discriminate.
Qed.

Lemma trailing_newline_is_accepted_sample_doctor :
  every printable "dr.priya@example.com" = true /\
  validate_email ("dr.priya@example.com" ++ newline)
    = validate_email "dr.priya@example.com".
Proof.
  split; [reflexivity|].
  exact (trailing_newline_is_accepted "dr.priya@example.com" eq_refl).
Defined.

End EmailFacts.

(* ================================================================== *)
(** ** Facts about get_time_ago *)
(* ================================================================== *)

Module TimeAgoFacts.

Import Datetime Accounts Timedelta.

(** The fields of a normalized [timedelta] from its length in
    microseconds. *)
Lemma new_fields (d s us : Z) :
  let total := (d * 86400 + s) * 1000000 + us in
  days (new d s us) = total / 86400000000 /\
  seconds (new d s us) = (total mod 86400000000) / 1000000.
Proof.
  cbn zeta. unfold new. cbn [days seconds].
  pose proof (Z.div_mod us 1000000 ltac:(lia)) as Hus.
  pose proof (Z.mod_pos_bound us 1000000 ltac:(lia)) as Hus_bound.
  pose proof (Z.div_mod (s + us / 1000000) 86400 ltac:(lia)) as Hs.
  pose proof (Z.mod_pos_bound (s + us / 1000000) 86400 ltac:(lia)) as Hs_bound.
  set (q1 := us / 1000000) in *. set (r1 := us mod 1000000) in *.
  set (q2 := (s + q1) / 86400) in *. set (r2 := (s + q1) mod 86400) in *.
  assert (Htotal : (d * 86400 + s) * 1000000 + us
                   = (d + q2) * 86400000000 + (r2 * 1000000 + r1)) by lia.
  rewrite Htotal.
  assert (Hbound : 0 <= r2 * 1000000 + r1 < 86400000000) by lia.
  split.
  - apply (Z.div_unique_pos _ _ _ (r2 * 1000000 + r1)); lia.
  - replace (((d + q2) * 86400000000 + (r2 * 1000000 + r1)) mod 86400000000)
      with (r2 * 1000000 + r1).
    + apply (Z.div_unique_pos _ _ _ r1); lia.
    + apply (Z.mod_unique_pos _ _ (d + q2)); lia.
Qed.

Lemma sub_fields (a b : datetime) :
  days (sub a b) = (instant a - instant b) / 86400000000 /\
  seconds (sub a b) = ((instant a - instant b) mod 86400000000) / 1000000.
Proof.
  unfold sub.
  replace (instant a - instant b)
    with (((toordinal a - toordinal b) * 86400
           + ((second a + minute a * 60 + hour a * 3600)
              - (second b + minute b * 60 + hour b * 3600))) * 1000000
          + (microsecond a - microsecond b))
    by (unfold instant; lia).
  apply new_fields.
Qed.

(** The ladder of [get_time_ago] in elapsed time.  Up to 60.999999
    seconds the answer is "Just now"; from 61 seconds up to one hour (the
    full hour included) it counts whole minutes, so one hour reads
    "60 minutes ago"; from one hour and one second it counts whole hours;
    from 24 hours it counts whole days and nothing else. *)
Theorem time_ago_ladder (now timestamp : datetime) :
  let elapsed := instant now - instant timestamp in
  (0 <= elapsed < 61000000 -> get_time_ago now timestamp = "Just now"%string) /\
  (61000000 <= elapsed < 3601000000 ->
   get_time_ago now timestamp
     = (str_int (elapsed / 60000000)%Z ++ " minute"
        ++ (if (1 <? elapsed / 60000000)%Z then "s" else "") ++ " ago")%string /\
   1 <= elapsed / 60000000 <= 60) /\
  (3601000000 <= elapsed < 86400000000 ->
   get_time_ago now timestamp = hours_ago (elapsed / 3600000000) /\
   1 <= elapsed / 3600000000 <= 23) /\
  (86400000000 <= elapsed ->
   get_time_ago now timestamp
     = (str_int (elapsed / 86400000000)%Z ++ " day"
        ++ (if (1 <? elapsed / 86400000000)%Z then "s" else "") ++ " ago")%string).
Proof.
  cbn zeta. destruct (sub_fields now timestamp) as [Hdays Hseconds].
  set (elapsed := instant now - instant timestamp) in *.
  unfold get_time_ago. rewrite Hdays, Hseconds.
  split; [|split; [|split]]; intros Hrange.
  - rewrite (Z.div_small elapsed 86400000000) by lia.
    rewrite (Z.mod_small elapsed 86400000000) by lia.
    assert (Hs : elapsed / 1000000 <= 60)
      by (apply Z.lt_succ_r, Z.div_lt_upper_bound; lia).
    cbn [Z.ltb Z.compare].
    destruct (Z.ltb_spec 3600 (elapsed / 1000000)); [lia|].
    destruct (Z.ltb_spec 60 (elapsed / 1000000)); [lia|]. reflexivity.
  - rewrite (Z.div_small elapsed 86400000000) by lia.
    rewrite (Z.mod_small elapsed 86400000000) by lia.
    assert (Hlow : 61 <= elapsed / 1000000) by (apply Z.div_le_lower_bound; lia).
    assert (Hhigh : elapsed / 1000000 <= 3600)
      by (apply Z.lt_succ_r, Z.div_lt_upper_bound; lia).
    assert (Hdiv : elapsed / 1000000 / 60 = elapsed / 60000000)
      by (rewrite Z.div_div by lia; reflexivity).
    cbn [Z.ltb Z.compare].
    destruct (Z.ltb_spec 3600 (elapsed / 1000000)); [lia|].
    destruct (Z.ltb_spec 60 (elapsed / 1000000)); [|lia].
    rewrite Hdiv. split; [reflexivity|].
    split; [apply Z.div_le_lower_bound; lia|].
    apply Z.lt_succ_r, Z.div_lt_upper_bound; lia.
  - rewrite (Z.div_small elapsed 86400000000) by lia.
    rewrite (Z.mod_small elapsed 86400000000) by lia.
    assert (Hlow : 3601 <= elapsed / 1000000) by (apply Z.div_le_lower_bound; lia).
    assert (Hdiv : elapsed / 1000000 / 3600 = elapsed / 3600000000)
      by (rewrite Z.div_div by lia; reflexivity).
    cbn [Z.ltb Z.compare].
    destruct (Z.ltb_spec 3600 (elapsed / 1000000)); [|lia].
    unfold hours_ago. rewrite Hdiv. split; [reflexivity|].
    split; [apply Z.div_le_lower_bound; lia|].
    apply Z.lt_succ_r, Z.div_lt_upper_bound; lia.
  - assert (Hlow : 1 <= elapsed / 86400000000)
      by (apply Z.div_le_lower_bound; lia).
    destruct (Z.ltb_spec 0 (elapsed / 86400000000)); [|lia]. reflexivity.
Qed.

(** A timestamp that lies ahead of the clock is never "Just now" news: up
    to 22 hours 59 minutes 59 seconds ahead, it is reported as between 1
    and 23 hours old, the nearer the future the older: the negative
    difference is normalized to minus one day plus the rest, and only the
    rest is looked at. *)
Theorem future_timestamp_reads_as_hours_ago (now timestamp : datetime) :
  0 < instant timestamp - instant now <= 82799000000 ->
  let h := (86400000000 - (instant timestamp - instant now)) / 3600000000 in
  1 <= h <= 23 /\ get_time_ago now timestamp = hours_ago h.
Proof.
  intros Hahead. cbn zeta.
  destruct (sub_fields now timestamp) as [Hdays Hseconds].
  set (ahead := instant timestamp - instant now) in *.
  replace (instant now - instant timestamp) with (- ahead) in * by (unfold ahead; lia).
  assert (Hd : - ahead / 86400000000 = -1).
  { symmetry. apply (Z.div_unique_pos _ _ _ (86400000000 - ahead)); lia. }
  assert (Hm : (- ahead) mod 86400000000 = 86400000000 - ahead).
  { symmetry. apply (Z.mod_unique_pos _ _ (-1)); lia. }
  unfold get_time_ago. rewrite Hdays, Hseconds, Hd, Hm.
  assert (Hlow : 3601 <= (86400000000 - ahead) / 1000000)
    by (apply Z.div_le_lower_bound; lia).
  assert (Hdiv : (86400000000 - ahead) / 1000000 / 3600
                 = (86400000000 - ahead) / 3600000000)
    by (rewrite Z.div_div by lia; reflexivity).
  cbn [Z.ltb Z.compare].
  destruct (Z.ltb_spec 3600 ((86400000000 - ahead) / 1000000)); [|lia].
  unfold hours_ago. rewrite Hdiv. split; [|reflexivity].
  split; [apply Z.div_le_lower_bound; lia|].
  apply Z.lt_succ_r, Z.div_lt_upper_bound; lia.
Qed.

Lemma future_timestamp_reads_as_hours_ago_one_second_ahead :
  0 < instant (Build 2024 1 15 10 30 1 0) - instant (Build 2024 1 15 10 30 0 0)
    <= 82799000000 /\
  1 <= (86400000000
        - (instant (Build 2024 1 15 10 30 1 0)
           - instant (Build 2024 1 15 10 30 0 0))) / 3600000000 <= 23 /\
  get_time_ago (Build 2024 1 15 10 30 0 0) (Build 2024 1 15 10 30 1 0)
    = hours_ago
        ((86400000000
          - (instant (Build 2024 1 15 10 30 1 0)
             - instant (Build 2024 1 15 10 30 0 0))) / 3600000000).
Proof.
  assert (H : 0 < instant (Build 2024 1 15 10 30 1 0)
                  - instant (Build 2024 1 15 10 30 0 0) <= 82799000000)
    by (vm_compute; split; [reflexivity|discriminate]).
  split; [exact H|].
  exact (future_timestamp_reads_as_hours_ago (Build 2024 1 15 10 30 0 0)
           (Build 2024 1 15 10 30 1 0) H).
Defined.

End TimeAgoFacts.

(* ================================================================== *)
(** ** Facts about alerts *)
(* ================================================================== *)

Module AlertsFacts.

Import Datetime Database Predictor Alerts.

(** *** Counting rows of a frame *)

Lemma count_bounds (mask : alerts_row -> bool) (frame : list alerts_row) :
  0 <= count mask frame <= Z.of_nat (List.length frame).
Proof.
  unfold count. pose proof (filter_length_le mask frame). lia.
Qed.

Lemma count_monotone (mask mask' : alerts_row -> bool) (frame : list alerts_row) :
  (forall r, mask r = true -> mask' r = true) ->
  count mask frame <= count mask' frame.
Proof.
  intros Hsub. unfold count. induction frame as [|r frame IH]; cbn [filter];
    [lia|].
  destruct (mask r) eqn:Hr.
  - rewrite (Hsub r Hr). cbn [List.length]. lia.
  - destruct (mask' r); cbn [List.length]; lia.
Qed.

Lemma count_disjoint (mask mask' : alerts_row -> bool) (frame : list alerts_row) :
  (forall r, mask r = true -> mask' r = false) ->
  count mask frame + count mask' frame <= Z.of_nat (List.length frame).
Proof.
  intros Hdisjoint. unfold count. induction frame as [|r frame IH];
    cbn [filter List.length]; [lia|].
  destruct (mask r) eqn:Hr.
  - rewrite (Hdisjoint r Hr). cbn [List.length]. lia.
  - destruct (mask' r); cbn [List.length]; lia.
Qed.

Lemma count_none (mask : alerts_row -> bool) (frame : list alerts_row) :
  (forall r, In r frame -> mask r = false) -> count mask frame = 0.
Proof.
  intros Hnone. unfold count. induction frame as [|r frame IH]; cbn [filter];
    [reflexivity|].
  rewrite (Hnone r (or_introl eq_refl)). apply IH.
  intros r' Hr'. apply Hnone. now right.
Qed.

(** The numbers of [get_alert_statistics] fit together on every frame:
    the total is the number of rows; critical and warning alerts together
    are no more than the total; the false positives are among the resolved
    alerts and among the warnings; the rate is the integer 0 on an empty
    frame only, and the response time is the constant 18 otherwise. *)
Theorem statistics_are_consistent {formats : Formats} (alerts_df : list alerts_row) :
  let stats := get_alert_statistics alerts_df in
  total_alerts stats = Z.of_nat (List.length alerts_df) /\
  0 <= critical_alerts stats /\ 0 <= warning_alerts stats /\
  critical_alerts stats + warning_alerts stats <= total_alerts stats /\
  0 <= false_positives stats <= resolved_alerts stats /\
  false_positives stats <= warning_alerts stats /\
  resolved_alerts stats <= total_alerts stats /\
  (false_positive_rate stats = Int 0 <-> alerts_df = []) /\
  (avg_response_time stats = 18 <-> alerts_df <> []).
Proof.
  cbn zeta. destruct alerts_df as [|r frame].
  - cbn. repeat split; try lia; try reflexivity; try discriminate.
    intros H. now elim H.
  - unfold get_alert_statistics.
    cbn [total_alerts critical_alerts warning_alerts resolved_alerts
         false_positives false_positive_rate avg_response_time].
    set (df := r :: frame).
    pose proof (count_bounds (fun r => String.eqb (alert_severity r) "CRITICAL") df).
    pose proof (count_bounds (fun r => String.eqb (alert_severity r) "WARNING") df).
    pose proof (count_bounds (fun r => String.eqb (alert_status r) "resolved") df).
    pose proof (count_bounds
                  (fun r => String.eqb (alert_status r) "resolved"
                            && String.eqb (alert_severity r) "WARNING") df).
    pose proof (count_disjoint
                  (fun r => String.eqb (alert_severity r) "CRITICAL")
                  (fun r => String.eqb (alert_severity r) "WARNING") df) as Hsum.
    pose proof (count_monotone
                  (fun r => String.eqb (alert_status r) "resolved"
                            && String.eqb (alert_severity r) "WARNING")
                  (fun r => String.eqb (alert_status r) "resolved") df) as Hres.
    pose proof (count_monotone
                  (fun r => String.eqb (alert_status r) "resolved"
                            && String.eqb (alert_severity r) "WARNING")
                  (fun r => String.eqb (alert_severity r) "WARNING") df) as Hwarn.
    assert (Hpos : (0 <? Z.of_nat (List.length df)) = true)
      by (apply Z.ltb_lt; unfold df; cbn [List.length]; lia).
    rewrite Hpos.
    split; [reflexivity|]. split; [lia|]. split; [lia|]. split.
    { apply Hsum. intros x Hx. apply String.eqb_eq in Hx. rewrite Hx. reflexivity. }
    split.
    { split; [lia|]. apply Hres. intros x Hx. now apply andb_prop in Hx as [Hx _]. }
    split.
    { apply Hwarn. intros x Hx. now apply andb_prop in Hx as [_ Hx]. }
    split; [lia|]. split.
    + split; discriminate.
    + split; [discriminate|reflexivity].
Qed.

Section WithFormats.

Context {formats : Formats}.

(** *** What is stored for an alert of the classifier *)


End WithFormats.

End AlertsFacts.
